(** * Airport ride pooling: matching engine, pricing and booking protocol

    A shallow embedding of the JavaScript sources

      - [unnamed/part_000], the matching engine with the fast path and the
        fallback (modules [RouteBuilder] and [Part000]),
      - [services/matchingEngine.js], the engine without them
        (modules [ServicesMatchingEngine] and [ServicesFindBestMatch]),
      - [services/pricingService.js] (modules [PricingService] and
        [PricingEstimates]),
      - [models/ActiveRide.js], [models/Cab.js], [models/RideRequest.js]
        (the documents and the collection primitives of module [Db]),
      - [controllers/rideController.js] (module [RideController]) and
        [unnamed/part_003], the short controller without transaction and
        retry loop (module [Part003]).

    JavaScript numbers are modelled by the real numbers [R]: arithmetic is
    exact, there is no NaN and no rounding.  [Infinity], used only as the
    initial value of a running minimum, is [None] of an [option R].  Seat
    capacities and luggage counts are integers ([Z]); array lengths are
    [nat].  Mongo object ids are natural numbers.

    The one place where the rounding of doubles changes a result by more
    than a rounding error is the rounding of a price to cents: module
    [PricingDoubles] has that arithmetic on binary64 floats. *)

From Stdlib Require Import String Reals Lra Lia ZArith Bool Arith List
  Permutation.
From Stdlib Require Floats.
Import ListNotations.

Local Open Scope R_scope.

(** ** JavaScript numeric helpers *)

Module Js.

(** [a < b], [a <= b] and [a === b] on numbers, as booleans. *)
Definition ltb (a b : R) : bool := if Rlt_dec a b then true else false.
Definition leb (a b : R) : bool := if Rle_dec a b then true else false.
Definition eqb (a b : R) : bool := if Req_dec_T a b then true else false.

(** [x || d] on numbers: [0] is falsy. *)
Definition or_default (x d : R) : R := if Req_dec_T x 0 then d else x.

(** [x < m] where [m] starts at [Infinity]. *)
Definition lt_inf (x : R) (m : option R) : bool :=
  match m with
  | None => true
  | Some b => ltb x b
  end.

(** [Math.atan2 y x]. *)
Definition atan2 (y x : R) : R :=
  if Rlt_dec 0 x then atan (y / x)
  else if Rlt_dec x 0 then
         (if Rle_dec 0 y then atan (y / x) + PI else atan (y / x) - PI)
  else if Rlt_dec 0 y then PI / 2
  else if Rlt_dec y 0 then - (PI / 2)
  else 0.

(** [Math.round x]: the nearest integer, halves rounded up. *)
Definition round (x : R) : R := IZR (up (x + / 2) - 1).

End Js.

(** ** Geometry *)

(** A GeoJSON position [[longitude, latitude]]: [fst] is index 0. *)
Definition Coord : Type := (R * R)%type.

Definition lon (c : Coord) : R := fst c.
Definition lat (c : Coord) : R := snd c.

Module Geo.

(** Earth's radius in kilometers. *)
Definition R_earth : R := 6371.

(** The haversine term [a] of [calculateDistance]. *)
Definition haversine_a (coord1 coord2 : Coord) : R :=
  let '(lon1, lat1) := coord1 in
  let '(lon2, lat2) := coord2 in
  let dLat := (lat2 - lat1) * PI / 180 in
  let dLon := (lon2 - lon1) * PI / 180 in
  sin (dLat / 2) * sin (dLat / 2) +
  cos (lat1 * PI / 180) * cos (lat2 * PI / 180) *
  sin (dLon / 2) * sin (dLon / 2).

(** [calculateDistance]: the same function in the matching engines and in
    the pricing service. *)
Definition calculateDistance (coord1 coord2 : Coord) : R :=
  let a := haversine_a coord1 coord2 in
  let c := 2 * Js.atan2 (sqrt a) (sqrt (1 - a)) in
  R_earth * c.

(** The loop of [calculateRouteDistance]: the sum of the consecutive
    distances. *)
Fixpoint routeSum (route : list Coord) : R :=
  match route with
  | p :: ((q :: _) as rest) => calculateDistance p q + routeSum rest
  | _ => 0
  end.

(** [calculateRouteDistance] of the engine with the fast path: the guard
    [!route || route.length < 2] returns 0. *)
Definition calculateRouteDistance (route : list Coord) : R :=
  if (length route <? 2)%nat then 0 else routeSum route.

End Geo.

(** ** Documents *)

Definition ObjectId : Type := nat.

(** The sub-document of [passengerSchema].  The schema has no
    [detourTolerance] path and the controllers push
    [{ userId, pickupLocation, dropoffLocation, luggageCount }], so a stored
    passenger carries none ([None], JavaScript [undefined]); the field is
    kept because [checkDetourTolerance] reads it. *)
Module Passenger.
Record t : Type := mk {
  userId : ObjectId;
  pickupLocation : Coord;
  dropoffLocation : Coord;
  luggageCount : Z;
  detourTolerance : option R
}.
End Passenger.

(** [RideRequest] documents; also the plain request object handed to
    [findBestMatch]. *)
Module RideRequest.
Inductive Status : Type := pending | matched | completed | cancelled.

Record t : Type := mk {
  _id : ObjectId;
  userId : ObjectId;
  pickupLocation : Coord;
  dropoffLocation : Coord;
  detourTolerance : R;
  luggageCount : Z;
  status : Status;
  price : R
}.
End RideRequest.

(** [ActiveRide] documents; [__v] is the version key that
    [optimisticConcurrency] checks on save. *)
Module ActiveRide.
Inductive Status : Type := active | completed | cancelled.

Definition status_eqb (a b : Status) : bool :=
  match a, b with
  | active, active | completed, completed | cancelled, cancelled => true
  | _, _ => false
  end.

Record t : Type := mk {
  _id : ObjectId;
  cabId : ObjectId;
  passengers : list Passenger.t;
  currentRoute : list Coord;
  status : Status;
  totalPrice : R;
  __v : nat
}.

Definition isActive (r : t) : bool := status_eqb (status r) active.

End ActiveRide.

(** [Cab] documents.  [status] is queried by the engine and by the short
    controller although [cabSchema] does not declare it. *)
Module Cab.
Record t : Type := mk {
  _id : ObjectId;
  driverName : string;
  capacity : Z;
  currentLocation : Coord;
  status : string
}.
End Cab.

(** A row of the aggregation in [findBestMatch]: the cab's fields and the
    joined ride after [$unwind] ([None] for a cab without one). *)
Module CabData.
Record t : Type := mk {
  _id : ObjectId;
  capacity : Z;
  currentLocation : Coord;
  activeRide : option ActiveRide.t
}.
End CabData.

(** ** The collections and their write primitives *)

Module Db.

Record Store : Type := mkStore {
  cabs : list Cab.t;
  activeRides : list ActiveRide.t;
  rideRequests : list RideRequest.t
}.

(** What a failed operation throws.  [MongoError 11000] is the duplicate
    key error of a unique index. *)
Inductive Exception : Type :=
| VersionError
| MongoError (code : Z)
| ValidationError
| TypeError
| Error (message : string).

Inductive Result (A : Type) : Type :=
| Ok (a : A)
| Throw (e : Exception).
Arguments Ok {A} a.
Arguments Throw {A} e.

Definition bind {A B : Type} (m : Result A) (k : A -> Result B) : Result B :=
  match m with
  | Ok a => k a
  | Throw e => Throw e
  end.

(** *** Reads *)

Definition ActiveRide_findById (st : Store) (id : option ObjectId)
    : option ActiveRide.t :=
  match id with
  | Some i => find (fun r => ActiveRide._id r =? i)%nat (activeRides st)
  | None => None
  end.

Definition Cab_findById (st : Store) (id : ObjectId) : option Cab.t :=
  find (fun c => Cab._id c =? id)%nat (cabs st).

(** *** Schema validation *)

(** The validator of every [coordinates] path. *)
Definition validCoordinates (c : Coord) : bool :=
  Js.leb (-180) (lon c) && Js.leb (lon c) 180
  && Js.leb (-90) (lat c) && Js.leb (lat c) 90.

Definition validPassenger (p : Passenger.t) : bool :=
  validCoordinates (Passenger.pickupLocation p)
  && validCoordinates (Passenger.dropoffLocation p)
  && (0 <=? Passenger.luggageCount p)%Z.

Definition validActiveRide (r : ActiveRide.t) : bool :=
  forallb validPassenger (ActiveRide.passengers r)
  && forallb validCoordinates (ActiveRide.currentRoute r)
  && Js.leb 0 (ActiveRide.totalPrice r).

Definition validRideRequest (r : RideRequest.t) : bool :=
  validCoordinates (RideRequest.pickupLocation r)
  && validCoordinates (RideRequest.dropoffLocation r)
  && Js.leb 0 (RideRequest.detourTolerance r)
  && (0 <=? RideRequest.luggageCount r)%Z
  && Js.leb 0 (RideRequest.price r).

(** *** The unique partial index of [models/ActiveRide.js]

    [{ cabId: 1 }, { unique: true, partialFilterExpression:
    { status: 'active' } }]: among the documents with [status = 'active'],
    no two have the same [cabId]. *)

(** [doc] collides with another active document of the collection. *)
Definition violatesUniqueCab (rides : list ActiveRide.t) (doc : ActiveRide.t)
    : bool :=
  ActiveRide.isActive doc
  && existsb
       (fun r =>
          ActiveRide.isActive r
          && (ActiveRide.cabId r =? ActiveRide.cabId doc)%nat
          && negb (ActiveRide._id r =? ActiveRide._id doc)%nat)
       rides.

Definition hasId (rides : list ActiveRide.t) (id : ObjectId) : bool :=
  existsb (fun r => ActiveRide._id r =? id)%nat rides.

(** An id no document of the collection has, for [new ActiveRide(...)]. *)
Definition freshId (rides : list ActiveRide.t) : ObjectId :=
  S (list_max (map ActiveRide._id rides)).

Definition withVersion (r : ActiveRide.t) (v : nat) : ActiveRide.t :=
  ActiveRide.mk (ActiveRide._id r) (ActiveRide.cabId r)
                (ActiveRide.passengers r) (ActiveRide.currentRoute r)
                (ActiveRide.status r) (ActiveRide.totalPrice r) v.

Definition setActiveRides (st : Store) (rides : list ActiveRide.t) : Store :=
  mkStore (cabs st) rides (rideRequests st).

(** *** Writes *)

(** [doc.save()] of a new document: validation, then the insert, which the
    [_id] index and the unique partial index may refuse. *)
Definition insertActiveRide (st : Store) (doc : ActiveRide.t)
    : Result Store :=
  if negb (validActiveRide doc) then Throw ValidationError
  else if hasId (activeRides st) (ActiveRide._id doc)
  then Throw (MongoError 11000%Z)
  else if violatesUniqueCab (activeRides st) doc
  then Throw (MongoError 11000%Z)
  else Ok (setActiveRides st (activeRides st ++ [withVersion doc 0])).

Definition replaceRide (doc : ActiveRide.t) (rides : list ActiveRide.t)
    : list ActiveRide.t :=
  map (fun r => if (ActiveRide._id r =? ActiveRide._id doc)%nat
                then doc else r)
      rides.

(** [doc.save()] of a loaded and modified document under
    [optimisticConcurrency]: the update is conditional on the version read,
    and bumps it. *)
Definition saveActiveRide (st : Store) (doc : ActiveRide.t)
    : Result Store :=
  if negb (validActiveRide doc) then Throw ValidationError
  else
    match ActiveRide_findById st (Some (ActiveRide._id doc)) with
    | None => Throw VersionError
    | Some stored =>
        if negb (ActiveRide.__v stored =? ActiveRide.__v doc)%nat
        then Throw VersionError
        else if violatesUniqueCab (activeRides st) doc
        then Throw (MongoError 11000%Z)
        else
          Ok (setActiveRides st
                (replaceRide (withVersion doc (S (ActiveRide.__v doc)))
                             (activeRides st)))
    end.

(** [rideRequest.save()]: requests are only added or updated by their own
    booking, so the write is an upsert by [_id]. *)
Definition saveRideRequest (st : Store) (doc : RideRequest.t)
    : Result Store :=
  if negb (validRideRequest doc) then Throw ValidationError
  else
    Ok (mkStore (cabs st) (activeRides st)
          (filter (fun r => negb (RideRequest._id r =? RideRequest._id doc)%nat)
                  (rideRequests st) ++ [doc])).

(** *** Writes of concurrent requests

    What other requests commit between two steps of this one.  They go
    through the same primitives; a refused write leaves the store as it
    is. *)
Inductive Write : Type :=
| WInsert (doc : ActiveRide.t)
| WSave (doc : ActiveRide.t).

Definition applyWrite (st : Store) (w : Write) : Store :=
  match w with
  | WInsert doc =>
      match insertActiveRide st doc with Ok st' => st' | Throw _ => st end
  | WSave doc =>
      match saveActiveRide st doc with Ok st' => st' | Throw _ => st end
  end.

Definition applyWrites (ws : list Write) (st : Store) : Store :=
  fold_left applyWrite ws st.

(** The writes of the others at the successive interleaving points of a
    request; none once the list is used up. *)
Definition Env : Type := list (list Write).

Definition interfere (env : Env) (st : Store) : Env * Store :=
  match env with
  | [] => ([], st)
  | ws :: env' => (env', applyWrites ws st)
  end.

(** *** The $geoNear / $lookup / $unwind aggregation of the engine *)

(** The rows for one cab: one per joined active ride, or a single row
    without ride ([preserveNullAndEmptyArrays]). *)
Definition rowsOf (rides : list ActiveRide.t) (c : Cab.t) : list CabData.t :=
  let joined :=
    filter (fun r => (ActiveRide.cabId r =? Cab._id c)%nat
                     && ActiveRide.isActive r)
           rides in
  match joined with
  | [] => [CabData.mk (Cab._id c) (Cab.capacity c) (Cab.currentLocation c) None]
  | _ => map (fun r => CabData.mk (Cab._id c) (Cab.capacity c)
                                  (Cab.currentLocation c) (Some r))
             joined
  end.

(** [geoNear] is the [$geoNear] stage, the spatial index of the database:
    the cabs near a point, nearest first. *)
Definition aggregate (geoNear : Coord -> list Cab.t -> list Cab.t)
    (st : Store) (near : Coord) : list CabData.t :=
  flat_map (rowsOf (activeRides st)) (geoNear near (cabs st)).

End Db.

(** ** The result of the matching engines *)

Inductive MatchType : Type := pooling | new_ride.

Record Match : Type := mkMatch {
  type : MatchType;
  cabId : ObjectId;
  activeRideId : option ObjectId;
  route : list Coord;
  deviationScore : R;
  estimatedTime : R
}.

(** ** Route builder, shared by both engines *)

Module RouteBuilder.
Import Geo.

Inductive PointType : Type := cab | pickup | dropoff.

Record Point : Type := mkPoint {
  ptype : PointType;
  coordinates : Coord
}.

(** The inner [for (const point of remaining)] loop: [i] is the index of
    the head of [remaining], [nearest] the index of the point held by the
    variable [nearest]. *)
Fixpoint nearestFrom (from : Coord) (remaining : list Point) (i : nat)
    (nearest : option nat) (minDistance : option R) : option nat :=
  match remaining with
  | [] => nearest
  | point :: rest =>
      let distance := calculateDistance from (coordinates point) in
      if Js.lt_inf distance minDistance
      then nearestFrom from rest (S i) (Some i) (Some distance)
      else nearestFrom from rest (S i) nearest minDistance
  end.

(** [remaining.splice(i, 1)]. *)
Fixpoint removeAt {A : Type} (i : nat) (l : list A) : list A :=
  match l, i with
  | [], _ => []
  | _ :: rest, O => rest
  | x :: rest, S j => x :: removeAt j rest
  end.

(** The [while (remaining.length > 0)] loop.  [from] is
    [route[route.length - 1]]; the result is the list of coordinates pushed
    onto [route].  Each turn removes one point, so [length remaining] turns
    empty the list. *)
Fixpoint visit (turns : nat) (from : Coord) (remaining : list Point)
    : list Coord :=
  match turns with
  | O => []
  | S turns' =>
      match nearestFrom from remaining 0 None None with
      | None => []
      | Some i =>
          match nth_error remaining i with
          | None => []
          | Some nearest =>
              coordinates nearest
                :: visit turns' (coordinates nearest) (removeAt i remaining)
          end
      end
  end.

Definition allPoints (currentPassengers : list Passenger.t)
    (newRequest : RideRequest.t) (cabLocation : Coord) : list Point :=
  [ mkPoint cab cabLocation;
    mkPoint pickup (RideRequest.pickupLocation newRequest);
    mkPoint dropoff (RideRequest.dropoffLocation newRequest) ]
  ++ map (fun p => mkPoint pickup (Passenger.pickupLocation p))
         currentPassengers
  ++ map (fun p => mkPoint dropoff (Passenger.dropoffLocation p))
         currentPassengers.

Definition createOptimalRoute (currentPassengers : list Passenger.t)
    (newRequest : RideRequest.t) (cabLocation : Coord) : list Coord :=
  let remaining := tl (allPoints currentPassengers newRequest cabLocation) in
  cabLocation :: visit (length remaining) cabLocation remaining.

Definition calculateEstimatedTime (route : list Coord) : R :=
  calculateRouteDistance route / 40 * 60.

End RouteBuilder.

(** ** The matching engine with the fast path and the fallback *)

Module Part000.
Import Geo RouteBuilder.

(** [passenger.detourTolerance || 5]. *)
Definition toleranceOrDefault (passenger : Passenger.t) : R :=
  match Passenger.detourTolerance passenger with
  | None => 5
  | Some t => Js.or_default t 5
  end.

(** The condition of the fast path: only index 0, the longitude, of each
    position is compared. *)
Definition fastPass (passenger : Passenger.t) (newRequest : RideRequest.t)
    : bool :=
  Js.eqb (lon (Passenger.pickupLocation passenger))
         (lon (RideRequest.pickupLocation newRequest))
  && Js.eqb (lon (Passenger.dropoffLocation passenger))
            (lon (RideRequest.dropoffLocation newRequest)).

Definition checkDetourTolerance (passenger : Passenger.t)
    (newRequest : RideRequest.t) (originalRoute newRoute : list Coord)
    : bool :=
  if fastPass passenger newRequest then true
  else
    let originalDistance := calculateRouteDistance originalRoute in
    let newDistance := calculateRouteDistance newRoute in
    let extraKm := newDistance - originalDistance in
    let maxDetourKm := toleranceOrDefault passenger / 60 * 40 in
    Js.leb extraKm maxDetourKm.

(** [passengers.reduce((total, p) => total + p.luggageCount, 0)]. *)
Definition currentLuggage (passengers : list Passenger.t) : Z :=
  fold_left (fun total p => (total + Passenger.luggageCount p)%Z)
            passengers 0%Z.

Definition checkLuggageConstraint (passengers : list Passenger.t)
    (newLuggageCount cabCapacity : Z) : bool :=
  (currentLuggage passengers + newLuggageCount <=? cabCapacity)%Z.

Definition calculateDeviationScore (currentPassengers : list Passenger.t)
    (newRequest : RideRequest.t) (candidateRoute : list Coord) : R :=
  let baseDistance := calculateRouteDistance candidateRoute in
  let detourPenalty :=
    fold_left
      (fun detourPenalty passenger =>
         let directDistance :=
           calculateDistance (Passenger.pickupLocation passenger)
                             (Passenger.dropoffLocation passenger) in
         let detourRatio :=
           (baseDistance - directDistance) / Js.or_default directDistance 1 in
         detourPenalty + detourRatio * 10)
      currentPassengers 0 in
  baseDistance + detourPenalty.

(** [cabData.activeRide && cabData.activeRide.status === 'active'
     ? cabData.activeRide : null]. *)
Definition activeRideOf (cabData : CabData.t) : option ActiveRide.t :=
  match CabData.activeRide cabData with
  | Some r => if ActiveRide.isActive r then Some r else None
  | None => None
  end.

Definition passengersOf (activeRide : option ActiveRide.t)
    : list Passenger.t :=
  match activeRide with
  | Some r => ActiveRide.passengers r
  | None => []
  end.

(** The points of the route before the request is added. *)
Definition originalRoutePoints (cabData : CabData.t)
    (currentPassengers : list Passenger.t) : list Coord :=
  CabData.currentLocation cabData
    :: map Passenger.pickupLocation currentPassengers
    ++ map Passenger.dropoffLocation currentPassengers.

(** The detour validation of one candidate: the [for] loop with [break]
    over the passengers, run only when the cab has an active ride. *)
Definition validDetour (newRequest : RideRequest.t) (cabData : CabData.t)
    (candidateRoute : list Coord) : bool :=
  match activeRideOf cabData with
  | Some r =>
      let currentPassengers := ActiveRide.passengers r in
      forallb
        (fun p =>
           checkDetourTolerance p newRequest
             (originalRoutePoints cabData currentPassengers) candidateRoute)
        currentPassengers
  | None => true
  end.

(** One turn of the scoring loop up to the computation of the score:
    [None] is [continue], [Some m] the match the turn would store. *)
Definition evaluate (newRequest : RideRequest.t) (cabData : CabData.t)
    : option Match :=
  let activeRide := activeRideOf cabData in
  let currentPassengers := passengersOf activeRide in
  let availableSeats :=
    (CabData.capacity cabData - Z.of_nat (length currentPassengers))%Z in
  if (availableSeats <=? 0)%Z then None
  else if negb (checkLuggageConstraint currentPassengers
                  (RideRequest.luggageCount newRequest)
                  (CabData.capacity cabData))
  then None
  else
    let candidateRoute :=
      createOptimalRoute currentPassengers newRequest
                         (CabData.currentLocation cabData) in
    if negb (validDetour newRequest cabData candidateRoute) then None
    else
      let score :=
        calculateDeviationScore currentPassengers newRequest candidateRoute in
      Some {| type := match activeRide with
                      | Some _ => pooling
                      | None => new_ride
                      end;
              cabId := CabData._id cabData;
              activeRideId := option_map ActiveRide._id activeRide;
              route := candidateRoute;
              deviationScore := score;
              estimatedTime := calculateEstimatedTime candidateRoute |}.

(** Step 2, the scoring loop over [nearbyCabs], started with
    [bestMatch = null] and [bestScore = Infinity]. *)
Fixpoint scoringLoop (newRequest : RideRequest.t) (nearbyCabs : list CabData.t)
    (bestMatch : option Match) (bestScore : option R) : option Match :=
  match nearbyCabs with
  | [] => bestMatch
  | cabData :: rest =>
      match evaluate newRequest cabData with
      | Some m =>
          if Js.lt_inf (deviationScore m) bestScore
          then scoringLoop newRequest rest (Some m) (Some (deviationScore m))
          else scoringLoop newRequest rest bestMatch bestScore
      | None => scoringLoop newRequest rest bestMatch bestScore
      end
  end.

(** Free seats as the fallback loop computes them. *)
Definition fallbackSeats (cabData : CabData.t) : Z :=
  (CabData.capacity cabData
   - Z.of_nat (length (passengersOf (activeRideOf cabData))))%Z.

(** The match built by the fallback loop for a cab with free seats. *)
Definition fallbackMatch (newRequest : RideRequest.t) (cabData : CabData.t)
    : Match :=
  let candidateRoute :=
    createOptimalRoute (passengersOf (activeRideOf cabData)) newRequest
                       (CabData.currentLocation cabData) in
  {| type := new_ride;
     cabId := CabData._id cabData;
     activeRideId := None;
     route := candidateRoute;
     deviationScore := calculateRouteDistance candidateRoute;
     estimatedTime := calculateEstimatedTime candidateRoute |}.

(** The fallback loop: the first cab with [availableSeats > 0], if any. *)
Fixpoint fallbackLoop (newRequest : RideRequest.t)
    (nearbyCabs : list CabData.t) : option Match :=
  match nearbyCabs with
  | [] => None
  | cabData :: rest =>
      if (0 <? fallbackSeats cabData)%Z
      then Some (fallbackMatch newRequest cabData)
      else fallbackLoop newRequest rest
  end.

(** [findBestMatch], given the rows [nearbyCabs] returned by the
    aggregation. *)
Definition findBestMatch (newRequest : RideRequest.t)
    (nearbyCabs : list CabData.t) : option Match :=
  match scoringLoop newRequest nearbyCabs None None with
  | Some bestMatch => Some bestMatch
  | None =>
      if (0 <? length nearbyCabs)%nat
      then fallbackLoop newRequest nearbyCabs
      else None
  end.

(** [findBestMatch(newRequest)] as the controllers call it: the aggregation
    on the current collections, then the two loops. *)
Definition findBestMatchAsync (geoNear : Coord -> list Cab.t -> list Cab.t)
    (st : Db.Store) (newRequest : RideRequest.t) : option Match :=
  findBestMatch newRequest
    (Db.aggregate geoNear st (RideRequest.pickupLocation newRequest)).

End Part000.

(** ** [services/matchingEngine.js]: the deviation score *)

Module ServicesMatchingEngine.
Import Geo.

(** [calculateDeviationScore] of [services/matchingEngine.js].  The
    division by [directDistance] is unguarded there; the model agrees with
    the code wherever [directDistance] is not zero. *)
Definition calculateDeviationScore (currentPassengers : list Passenger.t)
    (newRequest : RideRequest.t) (candidateRoute : list Coord) : R :=
  let baseDistance := routeSum candidateRoute in
  let detourPenalty :=
    fold_left
      (fun detourPenalty passenger =>
         let directDistance :=
           calculateDistance (Passenger.pickupLocation passenger)
                             (Passenger.dropoffLocation passenger) in
         let routeDistance := routeSum candidateRoute in
         let detourRatio := (routeDistance - directDistance) / directDistance in
         detourPenalty + detourRatio * 100)
      currentPassengers 0 in
  let lengthPenalty := baseDistance * (1 / 10) in
  baseDistance + detourPenalty + lengthPenalty.

End ServicesMatchingEngine.

(** ** [services/pricingService.js] *)

Module PricingService.
Import Geo.

(** [PRICING_CONFIG]. *)
Definition BASE_FARE : R := 5.
Definition DISTANCE_RATE : R := 25 / 10.
Definition POOL_DISCOUNT_RATE : R := 15 / 100.
Definition SURGE_THRESHOLD : R := 3 / 10.
Definition MAX_SURGE_MULTIPLIER : R := 3.
Definition MIN_SURGE_MULTIPLIER : R := 1.

(** The counts [calculateSurgeMultiplier] reads:
    [Cab.countDocuments()], [ActiveRide.distinct('cabId').length] and
    [RideRequest.countDocuments({ status: 'pending' })]. *)
Definition totalCabs (st : Db.Store) : nat := length (Db.cabs st).

Definition activeCabs (st : Db.Store) : nat :=
  length (nodup Nat.eq_dec (map ActiveRide.cabId (Db.activeRides st))).

Definition pendingRequests (st : Db.Store) : nat :=
  length
    (filter (fun r => match RideRequest.status r with
                      | RideRequest.pending => true
                      | _ => false
                      end)
            (Db.rideRequests st)).

(** The body of [calculateSurgeMultiplier] on the three counts. *)
Definition surgeOf (totalCabs activeCabs pendingRequests : nat) : R :=
  let availableCabs := INR totalCabs - INR activeCabs in
  let supplyDemandRatio := availableCabs / Rmax (INR pendingRequests) 1 in
  if Js.ltb supplyDemandRatio SURGE_THRESHOLD
  then
    let surgeFactor := 1 + (SURGE_THRESHOLD - supplyDemandRatio) * 10 in
    Rmin surgeFactor MAX_SURGE_MULTIPLIER
  else MIN_SURGE_MULTIPLIER.

Definition calculateSurgeMultiplier (st : Db.Store) : R :=
  surgeOf (totalCabs st) (activeCabs st) (pendingRequests st).

Definition calculatePoolDiscountFactor (passengerCount : R) : R :=
  if Js.leb passengerCount 1 then 1
  else
    let discount := passengerCount * POOL_DISCOUNT_RATE in
    let discountFactor := Rmax (1 - discount) (5 / 10) in
    discountFactor.

(** [Math.round(x * 100) / 100], in exact arithmetic.  The code rounds the
    double [x * 100]: the two agree unless [x * 100] is within the rounding
    error of the doubles of a half-integer, where [Math.round] may go the
    other way ([PricingDoubles.round2]). *)
Definition round2 (x : R) : R := Js.round (x * 100) / 100.

Record Breakdown : Type := mkBreakdown {
  baseFare : R;
  distanceCost : R;
  distanceKm : R;
  surgeMultiplier : R;
  poolDiscountFactor : R;
  passengerCount : R
}.

(** A result with [success: true].  [formula] is the template literal of
    [calculateDynamicPrice], kept as the list of the numbers it
    interpolates (the conversion of a number to text is not modelled);
    [None] is a result without that key. *)
Record Quote : Type := mkQuote {
  success : bool;
  price : R;
  breakdown : Breakdown;
  formula : option (list R)
}.

(** [calculateDynamicPrice]; the [catch] branch is not reached on
    positions that are pairs of numbers. *)
Definition calculateDynamicPrice (st : Db.Store)
    (pickupLocation dropoffLocation : Coord) (passengerCount : R) : Quote :=
  let distance := calculateDistance pickupLocation dropoffLocation in
  let distanceCost := distance * DISTANCE_RATE in
  let surgeMultiplier := calculateSurgeMultiplier st in
  let poolDiscountFactor := calculatePoolDiscountFactor passengerCount in
  let basePrice := BASE_FARE + distanceCost in
  let surgePrice := basePrice * surgeMultiplier in
  let finalPrice := surgePrice * poolDiscountFactor in
  let roundedPrice := round2 finalPrice in
  {| success := true;
     price := roundedPrice;
     breakdown :=
       {| baseFare := BASE_FARE;
          distanceCost := round2 distanceCost;
          distanceKm := round2 distance;
          surgeMultiplier := round2 surgeMultiplier;
          poolDiscountFactor := round2 poolDiscountFactor;
          passengerCount := passengerCount |};
     formula :=
       Some [ BASE_FARE; round2 distanceCost; round2 surgeMultiplier;
              round2 poolDiscountFactor; roundedPrice ] |}.

End PricingService.

(** ** The pricing arithmetic in double precision

    JavaScript numbers are IEEE 754 doubles.  This module is the
    arithmetic of [calculateSurgeMultiplier], of
    [calculatePoolDiscountFactor] and of the steps of
    [calculateDynamicPrice] that follow the distance, on binary64 floats.
    [Math.sin], [Math.cos] and [Math.atan2] of [calculateDistance] are
    implementation-approximated and have no counterpart here, so the
    distance is an argument; for a dropoff at the pickup it is 0. *)

Module PricingDoubles.
Import Floats.
#[local] Set Warnings "-inexact-float".
Local Open Scope float_scope.

(** [PRICING_CONFIG], as the literals of the source. *)
Definition BASE_FARE : float := 5.00.
Definition DISTANCE_RATE : float := 2.50.
Definition POOL_DISCOUNT_RATE : float := 0.15.
Definition SURGE_THRESHOLD : float := 0.3.
Definition MAX_SURGE_MULTIPLIER : float := 3.0.
Definition MIN_SURGE_MULTIPLIER : float := 1.0.

(** [Math.max] and [Math.min] of two numbers, neither of them NaN. *)
Definition max (a b : float) : float := if a <? b then b else a.
Definition min (a b : float) : float := if b <? a then b else a.

(** The integer nearest to [x], for [|x|] below 2^52: adding and
    subtracting 2^52 rounds to an integer. *)
Definition two52 : float := 4503599627370496.

Definition nearestInteger (x : float) : float :=
  if x <? 0 then (x - two52) + two52 else (x + two52) - two52.

(** [Math.floor x]; a double of magnitude 2^52 or more is an integer. *)
Definition floor (x : float) : float :=
  if abs x <? two52
  then let t := nearestInteger x in if x <? t then t - 1 else t
  else x.

(** [Math.round x]: the integer nearest to [x], halves rounded up. *)
Definition round (x : float) : float :=
  let r := floor x in
  if 0.5 <=? x - r then r + 1 else r.

(** [Math.round(x * 100) / 100]. *)
Definition round2 (x : float) : float := round (x * 100) / 100.

(** The body of [calculateSurgeMultiplier] on the three counts. *)
Definition surgeOf (totalCabs activeCabs pendingRequests : float) : float :=
  let availableCabs := totalCabs - activeCabs in
  let supplyDemandRatio := availableCabs / max pendingRequests 1 in
  if supplyDemandRatio <? SURGE_THRESHOLD
  then
    let surgeFactor := 1 + (SURGE_THRESHOLD - supplyDemandRatio) * 10 in
    min surgeFactor MAX_SURGE_MULTIPLIER
  else MIN_SURGE_MULTIPLIER.

Definition calculatePoolDiscountFactor (passengerCount : float) : float :=
  if passengerCount <=? 1 then 1.0
  else
    let discount := passengerCount * POOL_DISCOUNT_RATE in
    let discountFactor := max (1.0 - discount) 0.5 in
    discountFactor.



End PricingDoubles.

(** ** Requests and responses of the HTTP handlers *)

Module Http.

(** [req.body] of a booking, after the defaults [detourTolerance = 5] and
    [luggageCount = 0]; the model starts after the checks of the required
    fields and of the GeoJSON shape. *)
Record Body : Type := mkBody {
  userId : ObjectId;
  pickupLocation : Coord;
  dropoffLocation : Coord;
  detourTolerance : R;
  luggageCount : Z
}.

Record Data : Type := mkData {
  rideId : ObjectId;
  cabId : ObjectId;
  route : list Coord;
  passengerCount : nat;
  price : R
}.

Record Response : Type := mkResponse {
  statusCode : nat;
  success : bool;
  message : string;
  data : option Data
}.

End Http.

(** [s.includes(sub)]. *)
Fixpoint includes (sub s : string) : bool :=
  if String.prefix sub s then true
  else match s with
       | EmptyString => false
       | String _ s' => includes sub s'
       end.

(** ** [controllers/rideController.js] *)

Module RideController.
Import Db.

(** Every handler runs in one transaction.  The model keeps the committed
    store, on which the writes of other requests land at the interleaving
    points, and applies the handler's own writes when it commits: an abort
    leaves the committed store as the others made it. *)

(** The message of a thrown error, as far as the retry test reads it.  A
    mongoose [VersionError] is recognised by its [name]; the messages of the
    driver's duplicate key error, of a validation error and of the
    [TypeError] of a property read on [null] do not contain "version". *)
Definition isVersionConflict (e : Exception) : bool :=
  match e with
  | VersionError => true
  | Error message => includes "version" message
  | MongoError _ | ValidationError | TypeError => false
  end.

(** One turn of the retry loop, as the log sees it. *)
Inductive Attempt : Type :=
| Committed
| VersionConflict
| Failed (e : Exception).

Record Outcome : Type := mkOutcome {
  response : Http.Response;
  store : Store;
  attempts : list Attempt
}.

Definition maxRetries : nat := 3.

Definition passengerOf (body : Http.Body) : Passenger.t :=
  Passenger.mk (Http.userId body) (Http.pickupLocation body)
               (Http.dropoffLocation body) (Http.luggageCount body) None.

Definition freshRequestId (st : Store) : ObjectId :=
  S (list_max (map RideRequest._id (rideRequests st))).

Definition newRideRequest (st : Store) (body : Http.Body) : RideRequest.t :=
  RideRequest.mk (freshRequestId st) (Http.userId body)
                 (Http.pickupLocation body) (Http.dropoffLocation body)
                 (Http.detourTolerance body) (Http.luggageCount body)
                 RideRequest.pending 0.

(** [rideRequest.status = 'matched'; rideRequest.price = ...]. *)
Definition matchedRequest (r : RideRequest.t) (price : R) : RideRequest.t :=
  RideRequest.mk (RideRequest._id r) (RideRequest.userId r)
                 (RideRequest.pickupLocation r) (RideRequest.dropoffLocation r)
                 (RideRequest.detourTolerance r) (RideRequest.luggageCount r)
                 RideRequest.matched price.

(** [new ActiveRide({ cabId, passengers: [passenger], currentRoute,
    totalPrice })]: [status] defaults to ['active']. *)
Definition newActiveRide (st : Store) (cabId : ObjectId) (body : Http.Body)
    (route : list Coord) (totalPrice : R) : ActiveRide.t :=
  ActiveRide.mk (freshId (activeRides st)) cabId [passengerOf body] route
                ActiveRide.active totalPrice 0.

(** The [catch] of the handler: the transaction is aborted and the error
    mapped to a status. *)
Definition errorResponse (e : Exception) : Http.Response :=
  match e with
  | ValidationError => Http.mkResponse 400 false "Validation error" None
  | MongoError code =>
      if (code =? 11000)%Z
      then Http.mkResponse 409 false "Duplicate booking detected" None
      else Http.mkResponse 500 false
             "Internal server error during ride booking" None
  | _ => Http.mkResponse 500 false
           "Internal server error during ride booking" None
  end.

(** What one turn of the loop leaves: the interleaving points still to
    come, the committed store, and the result of the [try] block. *)
Definition Turn : Type := (Env * Store * Result (Store * Http.Response))%type.

Section Booking.

(** The engine behind [require('../services/matchingEngine')], reading the
    collections. *)
Variable findBestMatch : Store -> RideRequest.t -> option Match.

(** The branch [bestMatch.type === 'pooling'] of the [try] block. *)
Definition tryPooling (body : Http.Body) (rideRequest : RideRequest.t)
    (bestMatch : Match) (env : Env) (st : Store) : Turn :=
  match ActiveRide_findById st (activeRideId bestMatch) with
  | None =>
      (env, st, Throw (Error "Active ride not found or no longer active"))
  | Some activeRide =>
      if negb (ActiveRide.isActive activeRide)
      then (env, st,
            Throw (Error "Active ride not found or no longer active"))
      else
        let currentPassengerCount := length (ActiveRide.passengers activeRide) in
        match Cab_findById st (ActiveRide.cabId activeRide) with
        | None => (env, st, Throw TypeError)
        | Some cab =>
            if (Cab.capacity cab <=? Z.of_nat currentPassengerCount)%Z
            then (env, st,
                  Throw (Error "Cab capacity filled during booking process"))
            else
              let passengers :=
                ActiveRide.passengers activeRide ++ [passengerOf body] in
              let newPassengerCount := length passengers in
              let pricingResult :=
                PricingService.calculateDynamicPrice st
                  (Http.pickupLocation body) (Http.dropoffLocation body)
                  (INR newPassengerCount) in
              if negb (PricingService.success pricingResult)
              then (env, st,
                    Throw (Error "Failed to calculate pooled ride price"))
              else
                let updated :=
                  ActiveRide.mk (ActiveRide._id activeRide)
                    (ActiveRide.cabId activeRide) passengers
                    (route bestMatch) (ActiveRide.status activeRide)
                    (PricingService.price pricingResult)
                    (ActiveRide.__v activeRide) in
                let '(env1, st1) := interfere env st in
                match saveActiveRide st1 updated with
                | Throw e => (env1, st1, Throw e)
                | Ok st2 =>
                    match saveRideRequest st2
                            (matchedRequest rideRequest
                               (PricingService.price pricingResult)) with
                    | Throw e => (env1, st1, Throw e)
                    | Ok st3 =>
                        (env1, st1,
                         Ok (st3,
                             Http.mkResponse 200 true
                               "Ride pooled successfully"
                               (Some (Http.mkData
                                        (ActiveRide._id activeRide)
                                        (ActiveRide.cabId activeRide)
                                        (route bestMatch)
                                        newPassengerCount
                                        (PricingService.price pricingResult)))))
                    end
                end
        end
  end.

(** The [else] branch of the [try] block: a new ride for
    [bestMatch.cabId]. *)
Definition tryNewRide (body : Http.Body) (rideRequest : RideRequest.t)
    (bestMatch : Match) (env : Env) (st : Store) : Turn :=
  match Cab_findById st (cabId bestMatch) with
  | None => (env, st, Throw TypeError)
  | Some cab =>
      let pricingResult :=
        PricingService.calculateDynamicPrice st
          (Http.pickupLocation body) (Http.dropoffLocation body) 1 in
      if negb (PricingService.success pricingResult)
      then (env, st, Throw (Error "Failed to calculate new ride price"))
      else
        let '(env1, st1) := interfere env st in
        let doc :=
          newActiveRide st1 (Cab._id cab) body (route bestMatch)
                        (PricingService.price pricingResult) in
        match insertActiveRide st1 doc with
        | Throw e => (env1, st1, Throw e)
        | Ok st2 =>
            match saveRideRequest st2
                    (matchedRequest rideRequest
                       (PricingService.price pricingResult)) with
            | Throw e => (env1, st1, Throw e)
            | Ok st3 =>
                (env1, st1,
                 Ok (st3,
                     Http.mkResponse 200 true "New ride created successfully"
                       (Some (Http.mkData (ActiveRide._id doc) (Cab._id cab)
                                (route bestMatch) 1
                                (PricingService.price pricingResult)))))
            end
        end
  end.

Definition tryBlock (body : Http.Body) (rideRequest : RideRequest.t)
    (bestMatch : Match) (env : Env) (st : Store) : Turn :=
  match type bestMatch with
  | pooling => tryPooling body rideRequest bestMatch env st
  | new_ride => tryNewRide body rideRequest bestMatch env st
  end.

(** The three assignments of the retry branch: what [bestMatch] is after
    [updatedMatch] has been computed. *)
Definition refreshed (bestMatch updatedMatch : Match) : Match :=
  {| type := type bestMatch;
     cabId := cabId bestMatch;
     activeRideId := activeRideId updatedMatch;
     route := route updatedMatch;
     deviationScore := deviationScore bestMatch;
     estimatedTime := estimatedTime updatedMatch |}.

(** [while (retryCount < maxRetries && !bookingResult)], by recursion on
    [maxRetries - retryCount].  Others may write before the turn reads and
    again before it saves. *)
Fixpoint retryLoop (remaining : nat) (body : Http.Body)
    (rideRequest : RideRequest.t) (bestMatch : Match) (env : Env)
    (st : Store) : Outcome :=
  match remaining with
  | O =>
      mkOutcome
        (Http.mkResponse 409 false
           "Ride booking failed due to high demand. Please try again." None)
        st []
  | S remaining' =>
      let '(env0, st0) := interfere env st in
      match tryBlock body rideRequest bestMatch env0 st0 with
      | (_, _, Ok (st', bookingResult)) =>
          mkOutcome bookingResult st' [Committed]
      | (env1, st1, Throw e) =>
          if isVersionConflict e
          then
            match findBestMatch st1 rideRequest with
            | None =>
                let committed :=
                  match saveRideRequest st1 rideRequest with
                  | Ok st2 => st2
                  | Throw _ => st1
                  end in
                mkOutcome
                  (Http.mkResponse 409 false
                     "No available rides found after retry. Please try again."
                     None)
                  committed [VersionConflict]
            | Some updatedMatch =>
                let rest :=
                  retryLoop remaining' body rideRequest
                            (refreshed bestMatch updatedMatch) env1 st1 in
                mkOutcome (response rest) (store rest)
                          (VersionConflict :: attempts rest)
            end
          else mkOutcome (errorResponse e) st1 [Failed e]
      end
  end.

(** The branch [!bestMatch]: claim the first cab with
    [capacity >= 1]. *)
Definition claimAnyCab (body : Http.Body) (rideRequest : RideRequest.t)
    (env : Env) (st : Store) : Outcome :=
  match find (fun c => (1 <=? Cab.capacity c)%Z) (cabs st) with
  | None =>
      mkOutcome (Http.mkResponse 404 false "No available cabs found" None)
                st []
  | Some availableCab =>
      let pricingResult :=
        PricingService.calculateDynamicPrice st
          (Http.pickupLocation body) (Http.dropoffLocation body) 1 in
      if negb (PricingService.success pricingResult)
      then mkOutcome
             (Http.mkResponse 500 false "Failed to calculate ride price" None)
             st []
      else
        let '(_, st1) := interfere env st in
        let route :=
          [ Cab.currentLocation availableCab;
            Http.pickupLocation body;
            Http.dropoffLocation body ] in
        let doc :=
          newActiveRide st1 (Cab._id availableCab) body route
                        (PricingService.price pricingResult) in
        match bind (insertActiveRide st1 doc)
                   (fun st2 =>
                      saveRideRequest st2
                        (matchedRequest rideRequest
                           (PricingService.price pricingResult))) with
        | Throw e => mkOutcome (errorResponse e) st1 []
        | Ok st3 =>
            mkOutcome
              (Http.mkResponse 201 true "New ride created successfully"
                 (Some (Http.mkData (ActiveRide._id doc)
                          (Cab._id availableCab) route 1
                          (PricingService.price pricingResult))))
              st3 []
        end
  end.

Definition bookRide (env : Env) (st : Store) (body : Http.Body) : Outcome :=
  let rideRequest := newRideRequest st body in
  if negb (validRideRequest rideRequest)
  then mkOutcome (errorResponse ValidationError) st []
  else
    match findBestMatch st rideRequest with
    | None => claimAnyCab body rideRequest env st
    | Some bestMatch => retryLoop maxRetries body rideRequest bestMatch env st
    end.

End Booking.

(** *** [cancelRide] *)

(** [passengers.findIndex(p => p.userId.toString() === userId)]; [None]
    is [-1]. *)
Fixpoint findIndex (userId : ObjectId) (passengers : list Passenger.t)
    : option nat :=
  match passengers with
  | [] => None
  | p :: rest =>
      if (Passenger.userId p =? userId)%nat then Some O
      else option_map S (findIndex userId rest)
  end.

Definition calculateOptimalRouteForPassengers
    (passengers : list Passenger.t) (cabLocation : Coord) : list Coord :=
  cabLocation
    :: flat_map (fun passenger =>
                   [ Passenger.pickupLocation passenger;
                     Passenger.dropoffLocation passenger ])
                passengers.

(** The [catch] of [cancelRide]. *)
Definition cancelErrorResponse (e : Exception) : Http.Response :=
  match e with
  | VersionError =>
      Http.mkResponse 409 false
        "Ride was modified by another request. Please refresh and try again."
        None
  | _ => Http.mkResponse 500 false
           "Internal server error during ride cancellation" None
  end.

Definition cancelRide (env : Env) (st : Store) (rideId userId : ObjectId)
    : Outcome :=
  match ActiveRide_findById st (Some rideId) with
  | None =>
      mkOutcome (Http.mkResponse 404 false "Active ride not found" None) st []
  | Some activeRide =>
      if negb (ActiveRide.isActive activeRide)
      then mkOutcome
             (Http.mkResponse 400 false
                "Cannot cancel a ride that is not active" None)
             st []
      else
        match findIndex userId (ActiveRide.passengers activeRide) with
        | None =>
            mkOutcome
              (Http.mkResponse 404 false "Passenger not found in this ride"
                 None)
              st []
        | Some passengerIndex =>
            let passengers :=
              RouteBuilder.removeAt passengerIndex
                (ActiveRide.passengers activeRide) in
            if (length passengers =? 0)%nat
            then
              let doc :=
                ActiveRide.mk (ActiveRide._id activeRide)
                  (ActiveRide.cabId activeRide) passengers
                  (ActiveRide.currentRoute activeRide) ActiveRide.cancelled
                  (ActiveRide.totalPrice activeRide)
                  (ActiveRide.__v activeRide) in
              let '(_, st1) := interfere env st in
              match saveActiveRide st1 doc with
              | Throw e => mkOutcome (cancelErrorResponse e) st1 []
              | Ok st2 =>
                  mkOutcome
                    (Http.mkResponse 200 true
                       "Ride cancelled successfully (no passengers remaining)"
                       None)
                    st2 []
              end
            else
              match Cab_findById st (ActiveRide.cabId activeRide) with
              | None => mkOutcome (cancelErrorResponse TypeError) st []
              | Some cab =>
                  let recalculatedRoute :=
                    calculateOptimalRouteForPassengers passengers
                      (Cab.currentLocation cab) in
                  let doc :=
                    ActiveRide.mk (ActiveRide._id activeRide)
                      (ActiveRide.cabId activeRide) passengers
                      recalculatedRoute (ActiveRide.status activeRide)
                      (ActiveRide.totalPrice activeRide)
                      (ActiveRide.__v activeRide) in
                  let '(_, st1) := interfere env st in
                  match saveActiveRide st1 doc with
                  | Throw e => mkOutcome (cancelErrorResponse e) st1 []
                  | Ok st2 =>
                      mkOutcome
                        (Http.mkResponse 200 true
                           "Passenger removed from ride successfully"
                           (Some (Http.mkData (ActiveRide._id activeRide)
                                    (ActiveRide.cabId activeRide)
                                    recalculatedRoute (length passengers)
                                    (ActiveRide.totalPrice activeRide))))
                        st2 []
                  end
              end
        end
  end.

End RideController.

(** ** The short controller: no transaction, no retry loop *)

Module Part003.
Import Db.

(** [error.message] of what the primitives throw. *)
Definition messageOf (e : Exception) : string :=
  match e with
  | VersionError => "No matching document found for id"
  | MongoError _ => "E11000 duplicate key error"
  | ValidationError => "ActiveRide validation failed"
  | TypeError => "Cannot read properties of null"
  | Error message => message
  end.

Definition errorResponse (e : Exception) : Http.Response :=
  match e with
  | MongoError code =>
      if (code =? 11000)%Z
      then Http.mkResponse 409 false
             "Cab already claimed by another passenger" None
      else Http.mkResponse 500 false (messageOf e) None
  | _ => Http.mkResponse 500 false (messageOf e) None
  end.

Section Booking.

Variable findBestMatch : Store -> RideRequest.t -> option Match.

(** The object literal handed to [findBestMatch]. *)
Definition requestOf (body : Http.Body) : RideRequest.t :=
  RideRequest.mk 0%nat (Http.userId body) (Http.pickupLocation body)
                 (Http.dropoffLocation body) (Http.detourTolerance body)
                 (Http.luggageCount body) RideRequest.pending 0.

(** Step 1: join the pool the engine found. *)
Definition joinPool (bestMatch : Match) (env : Env) (st : Store)
    (body : Http.Body) : Http.Response * Store :=
  let '(env0, st0) := interfere env st in
  match ActiveRide_findById st0 (activeRideId bestMatch) with
  | None => (errorResponse TypeError, st0)
  | Some activeRide =>
      match Cab_findById st0 (ActiveRide.cabId activeRide) with
      | None => (errorResponse TypeError, st0)
      | Some cab =>
          if (Cab.capacity cab
              <=? Z.of_nat (length (ActiveRide.passengers activeRide)))%Z
          then (Http.mkResponse 400 false "Cab is full" None, st0)
          else
            let doc :=
              ActiveRide.mk (ActiveRide._id activeRide)
                (ActiveRide.cabId activeRide)
                (ActiveRide.passengers activeRide
                   ++ [RideController.passengerOf body])
                (ActiveRide.currentRoute activeRide)
                (ActiveRide.status activeRide)
                (ActiveRide.totalPrice activeRide)
                (ActiveRide.__v activeRide) in
            let '(_, st1) := interfere env0 st0 in
            match saveActiveRide st1 doc with
            | Throw e => (errorResponse e, st1)
            | Ok st2 =>
                (Http.mkResponse 200 true "Pooled successfully"
                   (Some (Http.mkData (ActiveRide._id activeRide)
                            (ActiveRide.cabId activeRide)
                            (ActiveRide.currentRoute activeRide)
                            (S (length (ActiveRide.passengers activeRide)))
                            (ActiveRide.totalPrice activeRide))),
                 st2)
            end
      end
  end.

(** Step 2: claim the one cab with [status: 'available']. *)
Definition claimCab (env : Env) (st : Store) (body : Http.Body)
    : Http.Response * Store :=
  match find (fun c => String.eqb (Cab.status c) "available") (cabs st) with
  | None =>
      (Http.mkResponse 404 false "No available cabs found" None, st)
  | Some availableCab =>
      let pricing :=
        PricingService.calculateDynamicPrice st
          (Http.pickupLocation body) (Http.dropoffLocation body) 1 in
      let '(_, st1) := interfere env st in
      let route :=
        [ Cab.currentLocation availableCab;
          Http.pickupLocation body;
          Http.dropoffLocation body ] in
      let newRide :=
        RideController.newActiveRide st1 (Cab._id availableCab) body route
          (PricingService.price pricing) in
      match insertActiveRide st1 newRide with
      | Throw e => (errorResponse e, st1)
      | Ok st2 =>
          (Http.mkResponse 201 true ""
             (Some (Http.mkData (ActiveRide._id newRide)
                      (Cab._id availableCab) route 1
                      (PricingService.price pricing))),
           st2)
      end
  end.

Definition bookRide (env : Env) (st : Store) (body : Http.Body)
    : Http.Response * Store :=
  match findBestMatch st (requestOf body) with
  | Some bestMatch =>
      match type bestMatch with
      | pooling => joinPool bestMatch env st body
      | new_ride => claimCab env st body
      end
  | None => claimCab env st body
  end.

End Booking.

(** The placeholder exported as [cancelRide]. *)
Definition cancelRide (st : Store) (rideId userId : ObjectId)
    : Http.Response * Store :=
  (Http.mkResponse 200 true "Cancel logic placeholder" None, st).

End Part003.

(** ** [services/pricingService.js]: estimates and market conditions *)

(** The object [marketConditions] of [getMarketConditions]; the counts are
    JavaScript numbers, and [availableCabs] is negative when the rides
    reference more cabs than the collection holds. *)
Module MarketConditions.
Record t : Type := mk {
  totalCabs : R;
  availableCabs : R;
  activeCabs : R;
  pendingRequests : R;
  supplyDemandRatio : R;
  surgeMultiplier : R;
  isSurgeActive : bool
}.
End MarketConditions.

Module PricingEstimates.
Import Geo PricingService.


(** [getMarketConditions]: the object [marketConditions] of the result,
    whose [success] is [true] as the [catch] branch is not reached.
    [a > b] is [b < a]. *)
Definition getMarketConditions (st : Db.Store) : MarketConditions.t :=
  let totalCabs := INR (totalCabs st) in
  let activeCabs := INR (activeCabs st) in
  let availableCabs := totalCabs - activeCabs in
  let pendingRequests := INR (pendingRequests st) in
  let surgeMultiplier := calculateSurgeMultiplier st in
  {| MarketConditions.totalCabs := totalCabs;
     MarketConditions.availableCabs := availableCabs;
     MarketConditions.activeCabs := activeCabs;
     MarketConditions.pendingRequests := pendingRequests;
     MarketConditions.supplyDemandRatio :=
       availableCabs / Rmax pendingRequests 1;
     MarketConditions.surgeMultiplier := round2 surgeMultiplier;
     MarketConditions.isSurgeActive :=
       Js.ltb MIN_SURGE_MULTIPLIER surgeMultiplier |}.

End PricingEstimates.

(** ** [services/matchingEngine.js]: the loop of [findBestMatch] *)

Module ServicesFindBestMatch.
Import Geo RouteBuilder.

(** [calculateRouteDistance] of this file has no guard: the loop runs over
    the consecutive pairs. *)
Definition calculateRouteDistance (route : list Coord) : R := routeSum route.

(** [checkDetourTolerance] of this file compares a percentage with a
    number of kilometers; [originalRoute] and [newRequest] are not read.
    When [originalDistance] is 0 the quotient is [Infinity] or [NaN], as
    [newDistance] is not negative, and [<=] is false for both. *)
Definition checkDetourTolerance (passenger : Passenger.t)
    (newRequest : RideRequest.t) (originalRoute newRoute : list Coord)
    : bool :=
  let originalDistance :=
    calculateDistance (Passenger.pickupLocation passenger)
                      (Passenger.dropoffLocation passenger) in
  let newDistance := calculateRouteDistance newRoute in
  if Js.eqb originalDistance 0 then false
  else
    let detourPercentage :=
      (newDistance - originalDistance) / originalDistance * 100 in
    let maxDetourDistance :=
      Part000.toleranceOrDefault passenger / 60 * 40 in
    Js.leb detourPercentage maxDetourDistance.

(** [checkLuggageConstraint] is the one of the other engine. *)
Definition checkLuggageConstraint := Part000.checkLuggageConstraint.

Definition calculateEstimatedTime (route : list Coord) : R :=
  calculateRouteDistance route / 40 * 60.

(** The rows of the aggregation: the [$lookup] joins the rides of the cab
    whatever their status. *)
Definition rowsOf (rides : list ActiveRide.t) (c : Cab.t) : list CabData.t :=
  let joined :=
    filter (fun r => (ActiveRide.cabId r =? Cab._id c)%nat) rides in
  match joined with
  | [] => [CabData.mk (Cab._id c) (Cab.capacity c) (Cab.currentLocation c) None]
  | _ => map (fun r => CabData.mk (Cab._id c) (Cab.capacity c)
                                  (Cab.currentLocation c) (Some r))
             joined
  end.

Definition aggregate (geoNear : Coord -> list Cab.t -> list Cab.t)
    (st : Db.Store) (near : Coord) : list CabData.t :=
  flat_map (rowsOf (Db.activeRides st)) (geoNear near (Db.cabs st)).

(** [activeRide.passengers || []] when there is a joined ride. *)
Definition passengersOf (cabData : CabData.t) : list Passenger.t :=
  match CabData.activeRide cabData with
  | Some r => ActiveRide.passengers r
  | None => []
  end.

(** The detour validation: the [for] loop with [break] over the
    passengers, [originalRoutes[i]] being the passenger's own pickup and
    dropoff. *)
Definition validDetour (newRequest : RideRequest.t)
    (currentPassengers : list Passenger.t) (candidateRoute : list Coord)
    : bool :=
  forallb
    (fun p =>
       checkDetourTolerance p newRequest
         [Passenger.pickupLocation p; Passenger.dropoffLocation p]
         candidateRoute)
    currentPassengers.

(** One turn of the loop up to the computation of the score: [None] is
    [continue]. *)
Definition evaluate (newRequest : RideRequest.t) (cabData : CabData.t)
    : option Match :=
  let activeRide := CabData.activeRide cabData in
  let currentPassengers := passengersOf cabData in
  let availableSeats :=
    (CabData.capacity cabData - Z.of_nat (length currentPassengers))%Z in
  if (availableSeats <=? 0)%Z then None
  else if negb (checkLuggageConstraint currentPassengers
                  (RideRequest.luggageCount newRequest)
                  (CabData.capacity cabData))
  then None
  else
    let candidateRoute :=
      createOptimalRoute currentPassengers newRequest
                         (CabData.currentLocation cabData) in
    if negb (validDetour newRequest currentPassengers candidateRoute)
    then None
    else
      let score :=
        ServicesMatchingEngine.calculateDeviationScore
          currentPassengers newRequest candidateRoute in
      Some {| type := match activeRide with
                      | Some _ => pooling
                      | None => new_ride
                      end;
              cabId := CabData._id cabData;
              activeRideId := option_map ActiveRide._id activeRide;
              route := candidateRoute;
              deviationScore := score;
              estimatedTime := calculateEstimatedTime candidateRoute |}.

Fixpoint scoringLoop (newRequest : RideRequest.t) (nearbyCabs : list CabData.t)
    (bestMatch : option Match) (bestScore : option R) : option Match :=
  match nearbyCabs with
  | [] => bestMatch
  | cabData :: rest =>
      match evaluate newRequest cabData with
      | Some m =>
          if Js.lt_inf (deviationScore m) bestScore
          then scoringLoop newRequest rest (Some m) (Some (deviationScore m))
          else scoringLoop newRequest rest bestMatch bestScore
      | None => scoringLoop newRequest rest bestMatch bestScore
      end
  end.

(** [findBestMatch], given the rows of the aggregation: there is no
    fallback. *)
Definition findBestMatch (newRequest : RideRequest.t)
    (nearbyCabs : list CabData.t) : option Match :=
  scoringLoop newRequest nearbyCabs None None.

Definition findBestMatchAsync (geoNear : Coord -> list Cab.t -> list Cab.t)
    (st : Db.Store) (newRequest : RideRequest.t) : option Match :=
  findBestMatch newRequest
    (aggregate geoNear st (RideRequest.pickupLocation newRequest)).

End ServicesFindBestMatch.

(** * Properties *)

(** ** Numbers *)

Module JsFacts.
Import Js.

Lemma ltb_true a b : ltb a b = true <-> a < b.
Proof. unfold ltb; destruct (Rlt_dec a b); split; intros; try easy. Qed.

Lemma ltb_false a b : ltb a b = false <-> b <= a.
Proof.
  unfold ltb; destruct (Rlt_dec a b); split; intros; try easy; lra.
Qed.

Lemma leb_true a b : leb a b = true <-> a <= b.
Proof. unfold leb; destruct (Rle_dec a b); split; intros; try easy. Qed.

Lemma leb_false a b : leb a b = false <-> b < a.
Proof.
  unfold leb; destruct (Rle_dec a b); split; intros; try easy; lra.
Qed.

Lemma eqb_true a b : eqb a b = true <-> a = b.
Proof. unfold eqb; destruct (Req_dec_T a b); split; intros; try easy. Qed.

Lemma eqb_false a b : eqb a b = false <-> a <> b.
Proof. unfold eqb; destruct (Req_dec_T a b); split; intros; try easy. Qed.

Lemma or_default_nonzero x d : x <> 0 -> or_default x d = x.
Proof. unfold or_default; destruct (Req_dec_T x 0); intros; easy. Qed.

Lemma or_default_zero d : or_default 0 d = d.
Proof. unfold or_default; destruct (Req_dec_T 0 0); intros; easy. Qed.

Lemma atan2_pos y x : 0 < x -> atan2 y x = atan (y / x).
Proof. unfold atan2; destruct (Rlt_dec 0 x); intros; easy. Qed.

Lemma atan2_nonneg y x : 0 <= y -> 0 <= x -> 0 <= atan2 y x.
Proof.
  intros Hy Hx. unfold atan2.
  pose proof PI_RGT_0 as Hpi.
  destruct (Rlt_dec 0 x) as [Hpos|Hnpos].
  - destruct (Req_dec_T y 0) as [->|Hny].
    + unfold Rdiv. rewrite Rmult_0_l, atan_0. lra.
    + left. rewrite <- atan_0. apply atan_increasing.
      apply Rdiv_lt_0_compat; lra.
  - destruct (Rlt_dec x 0); [lra|].
    destruct (Rlt_dec 0 y); [lra|].
    destruct (Rlt_dec y 0); lra.
Qed.

(** [Math.round] of a number that is not negative is not negative. *)
Lemma round_nonneg x : 0 <= x -> 0 <= round x.
Proof.
  intros Hx. unfold round.
  destruct (archimed (x + / 2)) as [Hup _].
  assert (H0 : (0 < up (x + / 2))%Z).
  { apply lt_IZR. lra. }
  apply IZR_le. lia.
Qed.

End JsFacts.

(** ** Distances *)

Module GeoFacts.
Import Geo.

Lemma calculateRouteDistance_sum route :
  calculateRouteDistance route = routeSum route.
Proof.
  unfold calculateRouteDistance.
  destruct route as [|p [|q r]]; reflexivity.
Qed.

(** Kilometers per degree along the equator. *)
Definition km_per_degree : R := R_earth * PI / 180.

Lemma km_per_degree_pos : 0 < km_per_degree.
Proof. unfold km_per_degree, R_earth. pose proof PI_RGT_0. lra. Qed.

Lemma km_per_degree_lt : km_per_degree < 142.
Proof. unfold km_per_degree, R_earth. pose proof PI_4. lra. Qed.

Lemma km_per_degree_gt : 106 < km_per_degree.
Proof.
  unfold km_per_degree, R_earth.
  pose proof PI2_3_2. lra.
Qed.

(** Two points on the equator less than 180 degrees apart are
    [|lon2 - lon1|] degrees of arc apart. *)
Lemma calculateDistance_equator (x y : R) :
  Rabs (y - x) < 180 ->
  calculateDistance (x, 0) (y, 0) = Rabs (y - x) * km_per_degree.
Proof.
  intros Hd.
  unfold calculateDistance, haversine_a, km_per_degree.
  set (h := (y - x) * PI / 180 / 2).
  replace ((0 - 0) * PI / 180 / 2) with 0 by lra.
  replace (0 * PI / 180) with 0 by lra.
  rewrite sin_0, cos_0.
  replace (0 * 0 + 1 * 1 * sin h * sin h) with (Rsqr (sin h))
    by (unfold Rsqr; lra).
  assert (Hh : Rabs h < PI / 2).
  { unfold h.
    replace ((y - x) * PI / 180 / 2) with ((y - x) * (PI / 360)) by lra.
    pose proof PI_RGT_0 as Hpi.
    rewrite Rabs_mult, (Rabs_pos_eq (PI / 360)) by lra.
    nra. }
  assert (Hc : 0 < cos h).
  { apply cos_gt_0; apply Rabs_def2 in Hh; lra. }
  replace (1 - Rsqr (sin h)) with (Rsqr (cos h))
    by (pose proof (sin2_cos2 h); lra).
  rewrite sqrt_Rsqr_abs, (sqrt_Rsqr (cos h)) by lra.
  rewrite JsFacts.atan2_pos by assumption.
  assert (Hat : atan (Rabs (sin h) / cos h) = Rabs h).
  { destruct (Rle_dec 0 h) as [Hpos | Hneg].
    - rewrite (Rabs_pos_eq h) in * by assumption.
      assert (0 <= sin h) by (apply sin_ge_0; pose proof PI_RGT_0; lra).
      rewrite Rabs_pos_eq by assumption.
      change (sin h / cos h) with (tan h).
      apply atan_tan. lra.
    - assert (Hlt : h < 0) by lra.
      rewrite (Rabs_left h) in * by assumption.
      assert (sin h < 0).
      { apply sin_lt_0_var; pose proof PI_RGT_0; lra. }
      rewrite Rabs_left by assumption.
      replace (- sin h / cos h) with (tan (- h)).
      + apply atan_tan. lra.
      + unfold tan. rewrite sin_neg, cos_neg. reflexivity. }
  rewrite Hat.
  unfold h.
  replace ((y - x) * PI / 180 / 2) with ((y - x) * (PI / 360)) by lra.
  pose proof PI_RGT_0 as Hpi.
  rewrite Rabs_mult, (Rabs_pos_eq (PI / 360)) by lra.
  unfold R_earth. lra.
Qed.

Lemma calculateDistance_equator_le (x y : R) :
  x <= y -> y - x < 180 ->
  calculateDistance (x, 0) (y, 0) = (y - x) * km_per_degree.
Proof.
  intros Hxy Hd.
  rewrite calculateDistance_equator; rewrite Rabs_pos_eq; lra.
Qed.

Lemma calculateDistance_equator_ge (x y : R) :
  y <= x -> x - y < 180 ->
  calculateDistance (x, 0) (y, 0) = (x - y) * km_per_degree.
Proof.
  intros Hxy Hd.
  rewrite calculateDistance_equator.
  - rewrite Rabs_minus_sym, Rabs_pos_eq; lra.
  - rewrite Rabs_minus_sym, Rabs_pos_eq; lra.
Qed.

Lemma calculateDistance_nonneg p q : 0 <= calculateDistance p q.
Proof.
  unfold calculateDistance, R_earth.
  pose proof (JsFacts.atan2_nonneg (sqrt (haversine_a p q))
                (sqrt (1 - haversine_a p q))
                (sqrt_pos _) (sqrt_pos _)).
  simpl. lra.
Qed.

Lemma calculateDistance_equator_same (x : R) :
  calculateDistance (x, 0) (x, 0) = 0.
Proof. rewrite calculateDistance_equator_le by lra. lra. Qed.

End GeoFacts.

Arguments Geo.calculateDistance : simpl never.
Arguments Js.ltb : simpl never.
Arguments Js.leb : simpl never.
Arguments Js.eqb : simpl never.
Arguments Js.or_default : simpl never.
Arguments Js.round : simpl never.

Lemma status_eqb_eq a b : ActiveRide.status_eqb a b = true <-> a = b.
Proof. destruct a, b; simpl; split; intros; congruence. Qed.

(** ** The route builder visits every point *)

Module RouteFacts.
Import RouteBuilder.

Lemma nearestFrom_bound from remaining i nearest minDistance j :
  nearestFrom from remaining i nearest minDistance = Some j ->
  nearest = Some j \/ (i <= j < i + length remaining)%nat.
Proof.
  revert i nearest minDistance.
  induction remaining as [|point rest IH]; intros i nearest minDistance;
    simpl.
  - intros H. left. exact H.
  - destruct (Js.lt_inf _ minDistance); intros H; apply IH in H;
      destruct H as [H|H].
    + injection H as <-. right. lia.
    + right. lia.
    + left. exact H.
    + right. lia.
Qed.

Lemma nearestFrom_Some_stays from remaining i k minDistance :
  nearestFrom from remaining i (Some k) minDistance <> None.
Proof.
  revert i k minDistance.
  induction remaining as [|point rest IH]; intros i k minDistance; simpl.
  - discriminate.
  - destruct (Js.lt_inf _ minDistance); apply IH.
Qed.

(** From a list that is not empty the inner loop selects a point of the
    list. *)
Lemma nearestFrom_selects from point rest :
  exists j, nearestFrom from (point :: rest) 0 None None = Some j
            /\ (j < length (point :: rest))%nat.
Proof.
  destruct (nearestFrom from (point :: rest) 0 None None) as [j|] eqn:H.
  - exists j. split; [reflexivity|].
    apply nearestFrom_bound in H. destruct H as [H|H]; [discriminate|lia].
  - exfalso. simpl in H. exact (nearestFrom_Some_stays _ _ _ _ _ H).
Qed.

Lemma removeAt_length {A : Type} (l : list A) j :
  (j < length l)%nat -> S (length (removeAt j l)) = length l.
Proof.
  revert j.
  induction l as [|x rest IH]; intros j Hj; simpl in *; [lia|].
  destruct j as [|j]; [reflexivity|].
  simpl. rewrite IH by lia. reflexivity.
Qed.

(** [length remaining] turns are enough: the loop visits every point. *)
Lemma visit_length from remaining :
  length (visit (length remaining) from remaining) = length remaining.
Proof.
  remember (length remaining) as n eqn:Hn.
  revert from remaining Hn.
  induction n as [|n IH]; intros from remaining Hn; [reflexivity|].
  destruct remaining as [|point rest]; [discriminate|].
  cbn [visit].
  destruct (nearestFrom_selects from point rest) as (j & Hj & Hlt).
  rewrite Hj.
  destruct (nth_error (point :: rest) j) as [nearest|] eqn:Hnth.
  - cbn [length]. f_equal. apply IH.
    pose proof (removeAt_length (point :: rest) j Hlt) as Hlen.
    rewrite <- Hn in Hlen. lia.
  - apply nth_error_None in Hnth. lia.
Qed.

(** The route has the cab's position and one stop per pickup and dropoff of
    the request and of every passenger. *)
Lemma createOptimalRoute_length currentPassengers newRequest cabLocation :
  length (createOptimalRoute currentPassengers newRequest cabLocation)
  = (3 + 2 * length currentPassengers)%nat.
Proof.
  unfold createOptimalRoute. cbn [length].
  rewrite visit_length.
  unfold allPoints. cbn [tl app length].
  rewrite length_app, !length_map. lia.
Qed.

End RouteFacts.

(** ** The deviation score *)

Module DeviationFacts.
Import Geo.

Definition directDistance (p : Passenger.t) : R :=
  calculateDistance (Passenger.pickupLocation p) (Passenger.dropoffLocation p).

(** The sum of [f p] over the passengers, in order. *)
Fixpoint sumOver (f : Passenger.t -> R) (passengers : list Passenger.t) : R :=
  match passengers with
  | [] => 0
  | p :: rest => f p + sumOver f rest
  end.

(** The score as the specification words it. *)
Definition deviationScoreSpec (currentPassengers : list Passenger.t)
    (candidateRoute : list Coord) : R :=
  let routeLength := calculateRouteDistance candidateRoute in
  routeLength
  + sumOver (fun p => 10 * Rmax 0 ((routeLength - directDistance p)
                                   / directDistance p))
            currentPassengers.

Lemma fold_left_sumOver (f : Passenger.t -> R) passengers acc :
  fold_left (fun a p => a + f p) passengers acc = acc + sumOver f passengers.
Proof.
  revert acc.
  induction passengers as [|p rest IH]; intros acc; simpl.
  - lra.
  - rewrite IH. lra.
Qed.

Lemma sumOver_ext (f g : Passenger.t -> R) passengers :
  (forall p, In p passengers -> f p = g p) ->
  sumOver f passengers = sumOver g passengers.
Proof.
  induction passengers as [|p rest IH]; intros H; simpl.
  - reflexivity.
  - rewrite (H p (or_introl eq_refl)), IH; [reflexivity|].
    intros q Hq. apply H. right. exact Hq.
Qed.

(** What the engine with the fallback computes: every passenger adds ten
    times [(routeLength - direct) / direct], the divisor being 1 for a
    passenger whose pickup and dropoff coincide. *)
Lemma calculateDeviationScore_sum currentPassengers newRequest candidateRoute :
  Part000.calculateDeviationScore currentPassengers newRequest candidateRoute
  = calculateRouteDistance candidateRoute
    + sumOver (fun p =>
                 (calculateRouteDistance candidateRoute - directDistance p)
                 / Js.or_default (directDistance p) 1 * 10)
              currentPassengers.
Proof.
  unfold Part000.calculateDeviationScore.
  rewrite (fold_left_sumOver
             (fun p => (calculateRouteDistance candidateRoute
                        - directDistance p)
                       / Js.or_default (directDistance p) 1 * 10)).
  lra.
Qed.

(** The score agrees with the specification's formula on passengers with
    a trip of nonzero length that the route does not shorten. *)
Lemma calculateDeviationScore_spec currentPassengers newRequest candidateRoute :
  (forall p, In p currentPassengers ->
             directDistance p <> 0
             /\ directDistance p <= calculateRouteDistance candidateRoute) ->
  Part000.calculateDeviationScore currentPassengers newRequest candidateRoute
  = deviationScoreSpec currentPassengers candidateRoute.
Proof.
  intros H.
  rewrite calculateDeviationScore_sum.
  unfold deviationScoreSpec. f_equal.
  apply sumOver_ext. intros p Hp.
  destruct (H p Hp) as [Hnz Hle].
  rewrite JsFacts.or_default_nonzero by assumption.
  assert (Hpos : 0 < directDistance p).
  { pose proof (GeoFacts.calculateDistance_nonneg
                  (Passenger.pickupLocation p) (Passenger.dropoffLocation p)).
    unfold directDistance in *. lra. }
  rewrite Rmax_right.
  - lra.
  - apply Rmult_le_pos; [lra|].
    left. apply Rinv_0_lt_compat. exact Hpos.
Qed.

End DeviationFacts.

(** ** The fast path of the detour check *)

Module DetourFacts.
Import Part000.

Lemma fastPass_iff passenger newRequest :
  fastPass passenger newRequest = true <->
  lon (Passenger.pickupLocation passenger)
    = lon (RideRequest.pickupLocation newRequest)
  /\ lon (Passenger.dropoffLocation passenger)
     = lon (RideRequest.dropoffLocation newRequest).
Proof.
  unfold fastPass.
  rewrite andb_true_iff, !JsFacts.eqb_true.
  reflexivity.
Qed.

(** Off the fast path the check is the comparison of the extra kilometers
    with the passenger's own tolerance. *)
Lemma checkDetourTolerance_slow passenger newRequest originalRoute newRoute :
  fastPass passenger newRequest = false ->
  checkDetourTolerance passenger newRequest originalRoute newRoute
  = Js.leb (Geo.calculateRouteDistance newRoute
            - Geo.calculateRouteDistance originalRoute)
           (toleranceOrDefault passenger / 60 * 40).
Proof.
  intros Hf. unfold checkDetourTolerance. rewrite Hf. reflexivity.
Qed.

(** C10.  The fast path of [checkDetourTolerance] returns [true] as soon as
    the pickup longitudes are equal and the dropoff longitudes are equal:
    the latitudes, the two routes and the passenger's tolerance are not
    looked at. *)
Theorem checkDetourTolerance_fast_path :
  forall (passenger : Passenger.t) (newRequest : RideRequest.t)
         (originalRoute newRoute : list Coord),
    lon (Passenger.pickupLocation passenger)
      = lon (RideRequest.pickupLocation newRequest) ->
    lon (Passenger.dropoffLocation passenger)
      = lon (RideRequest.dropoffLocation newRequest) ->
    checkDetourTolerance passenger newRequest originalRoute newRoute = true.
Proof.
  intros passenger newRequest originalRoute newRoute Hpick Hdrop.
  unfold checkDetourTolerance.
  rewrite (proj2 (fastPass_iff passenger newRequest) (conj Hpick Hdrop)).
  reflexivity.
Qed.

(** A passenger and a request on the same two meridians, 60 degrees of
    latitude apart at the pickup and 80 at the dropoff. *)
Definition meridianPassenger : Passenger.t :=
  Passenger.mk 1%nat (10, -30) (20, -40) 0%Z (Some 1).

Definition meridianRequest : RideRequest.t :=
  RideRequest.mk 2%nat 3%nat (10, 30) (20, 40) 0 0%Z RideRequest.pending 0.

Lemma checkDetourTolerance_fast_path_witness :
  lat (Passenger.pickupLocation meridianPassenger)
    <> lat (RideRequest.pickupLocation meridianRequest)
  /\ checkDetourTolerance meridianPassenger meridianRequest
       [(10, -30); (20, -40)] [(10, -30); (10, 30); (20, 40); (20, -40)]
     = true.
Proof.
  split.
  - simpl. lra.
  - apply (checkDetourTolerance_fast_path meridianPassenger meridianRequest);
      reflexivity.
Defined.

End DetourFacts.

(** ** Rounding to cents *)

Module RoundFacts.
Import PricingService.

Lemma up_monotone x y : x <= y -> (up x <= up y)%Z.
Proof.
  intros Hxy.
  destruct (archimed x) as [Hx1 Hx2], (archimed y) as [Hy1 Hy2].
  destruct (Z_le_gt_dec (up x) (up y)) as [H|H]; [exact H|].
  assert (Hz : (up y + 1 <= up x)%Z) by lia.
  apply IZR_le in Hz. rewrite plus_IZR in Hz. lra.
Qed.

Lemma round_monotone x y : x <= y -> Js.round x <= Js.round y.
Proof.
  intros Hxy. unfold Js.round. apply IZR_le.
  assert (H : (up (x + / 2) <= up (y + / 2))%Z) by (apply up_monotone; lra).
  lia.
Qed.



Lemma round_integer (z : Z) : Js.round (IZR z) = IZR z.
Proof.
  unfold Js.round. f_equal.
  assert (H : (z + 1)%Z = up (IZR z + / 2)).
  { apply tech_up; rewrite plus_IZR; lra. }
  lia.
Qed.


Lemma round2_monotone x y : x <= y -> round2 x <= round2 y.
Proof.
  intros Hxy. unfold round2.
  pose proof (round_monotone (x * 100) (y * 100)). lra.
Qed.


(** An amount of whole cents is its own rounding. *)
Lemma round2_cents (z : Z) : round2 (IZR z / 100) = IZR z / 100.
Proof.
  unfold round2. replace (IZR z / 100 * 100) with (IZR z) by lra.
  rewrite round_integer. reflexivity.
Qed.

End RoundFacts.

(** ** The price of a quote *)

Module PricingFacts.
Import PricingService.

(** The discount factor as the specification words it. *)
Definition poolDiscountFactorSpec (passengerCount : R) : R :=
  if Rle_dec passengerCount 1 then 1
  else Rmax (1 - passengerCount * (15 / 100)) (1 / 2).

Lemma calculatePoolDiscountFactor_spec passengerCount :
  calculatePoolDiscountFactor passengerCount
  = poolDiscountFactorSpec passengerCount.
Proof.
  unfold calculatePoolDiscountFactor, poolDiscountFactorSpec, Js.leb,
    POOL_DISCOUNT_RATE.
  destruct (Rle_dec passengerCount 1); [reflexivity|].
  f_equal. lra.
Qed.

(** Two passengers pay 70 percent, five or more pay half. *)
Lemma calculatePoolDiscountFactor_2 :
  calculatePoolDiscountFactor 2 = 7 / 10.
Proof.
  rewrite calculatePoolDiscountFactor_spec.
  unfold poolDiscountFactorSpec.
  destruct (Rle_dec 2 1); [lra|].
  rewrite Rmax_left; lra.
Qed.

Lemma surgeOf_bounds t a p : 1 <= surgeOf t a p <= 3.
Proof.
  unfold surgeOf, SURGE_THRESHOLD, MAX_SURGE_MULTIPLIER,
    MIN_SURGE_MULTIPLIER, Js.ltb.
  set (ratio := (INR t - INR a) / Rmax (INR p) 1).
  destruct (Rlt_dec ratio (3 / 10)).
  - unfold Rmin. destruct (Rle_dec (1 + (3 / 10 - ratio) * 10) 3); lra.
  - lra.
Qed.





End PricingFacts.

(** ** The price in doubles *)

Module DoublesFacts.
Import Floats.
#[local] Set Warnings "-inexact-float".

(** [PricingDoubles.round] on the cases that tell [Math.round] from other
    roundings: halves go up, also below zero, and the largest double below
    one half goes down. *)
Lemma round_as_Math_round :
  PricingDoubles.round 2.5 = 3%float
  /\ PricingDoubles.round (-2.5) = (-2)%float
  /\ PricingDoubles.round 0.49999999999999994 = 0%float
  /\ PricingDoubles.round 787.4999999999999 = 787%float
  /\ PricingDoubles.round 787.5 = 788%float.
Proof. repeat split; vm_compute; reflexivity. Qed.


End DoublesFacts.

Module PriceFacts.
Import PricingService.

Lemma calculatePoolDiscountFactor_pos passengerCount :
  0 < calculatePoolDiscountFactor passengerCount.
Proof.
  rewrite PricingFacts.calculatePoolDiscountFactor_spec.
  unfold PricingFacts.poolDiscountFactorSpec.
  destruct (Rle_dec passengerCount 1); [lra|].
  pose proof (Rmax_r (1 - passengerCount * (15 / 100)) (1 / 2)). lra.
Qed.

(** A quoted price is not negative, so the [min: 0] validators of
    [totalPrice] and [price] accept it. *)
Lemma price_nonneg st pickupLocation dropoffLocation passengerCount :
  0 <= price (calculateDynamicPrice st pickupLocation dropoffLocation
                                    passengerCount).
Proof.
  unfold calculateDynamicPrice, round2. cbn [price].
  pose proof (GeoFacts.calculateDistance_nonneg pickupLocation dropoffLocation)
    as Hd.
  pose proof (PricingFacts.surgeOf_bounds (totalCabs st) (activeCabs st)
                (pendingRequests st)) as Hs.
  pose proof (calculatePoolDiscountFactor_pos passengerCount) as Hp.
  unfold calculateSurgeMultiplier, BASE_FARE, DISTANCE_RATE.
  apply Rmult_le_pos; [|lra].
  apply JsFacts.round_nonneg.
  apply Rmult_le_pos; [|lra].
  apply Rmult_le_pos; [|lra].
  apply Rmult_le_pos; [|lra].
  apply Rplus_le_le_0_compat; [lra|].
  apply Rmult_le_pos; lra.
Qed.

End PriceFacts.

(** ** The two loops of the engine *)

Module EngineFacts.
Import Geo RouteBuilder Part000.

(** A match stored by the scoring loop was computed for one of the rows. *)
Lemma scoringLoop_In newRequest nearbyCabs bestMatch bestScore m :
  scoringLoop newRequest nearbyCabs bestMatch bestScore = Some m ->
  bestMatch = Some m
  \/ exists cabData, In cabData nearbyCabs
                     /\ evaluate newRequest cabData = Some m.
Proof.
  revert bestMatch bestScore.
  induction nearbyCabs as [|c rest IH]; intros bestMatch bestScore H; simpl in H.
  - left. exact H.
  - destruct (evaluate newRequest c) as [m'|] eqn:Hev.
    + destruct (Js.lt_inf (deviationScore m') bestScore).
      * apply IH in H. destruct H as [H | (c' & Hin & Hc')].
        -- right. exists c. split; [left; reflexivity|]. congruence.
        -- right. exists c'. split; [right; exact Hin | exact Hc'].
      * apply IH in H. destruct H as [H | (c' & Hin & Hc')].
        -- left. exact H.
        -- right. exists c'. split; [right; exact Hin | exact Hc'].
    + apply IH in H. destruct H as [H | (c' & Hin & Hc')].
      * left. exact H.
      * right. exists c'. split; [right; exact Hin | exact Hc'].
Qed.

Lemma scoringLoop_Some_stays newRequest nearbyCabs b bestScore :
  scoringLoop newRequest nearbyCabs (Some b) bestScore <> None.
Proof.
  revert b bestScore.
  induction nearbyCabs as [|c rest IH]; intros b bestScore; simpl.
  - discriminate.
  - destruct (evaluate newRequest c) as [m'|]; [|apply IH].
    destruct (Js.lt_inf (deviationScore m') bestScore); apply IH.
Qed.

(** The scoring loop ends without a match exactly when every row is
    skipped. *)
Lemma scoringLoop_None newRequest nearbyCabs :
  scoringLoop newRequest nearbyCabs None None = None <->
  forall cabData, In cabData nearbyCabs -> evaluate newRequest cabData = None.
Proof.
  induction nearbyCabs as [|c rest IH]; simpl.
  - split; [intros _ c []| reflexivity].
  - destruct (evaluate newRequest c) as [m'|] eqn:Hev.
    + simpl. split.
      * intros H. exfalso. exact (scoringLoop_Some_stays _ _ _ _ H).
      * intros H. specialize (H c (or_introl eq_refl)). congruence.
    + rewrite IH. split.
      * intros H c' [<-|Hin]; [exact Hev | apply H; exact Hin].
      * intros H c' Hin. apply H. right. exact Hin.
Qed.

(** What a row that is not skipped has passed, and the match it gives. *)
Lemma evaluate_Some newRequest cabData m :
  evaluate newRequest cabData = Some m ->
  let currentPassengers := passengersOf (activeRideOf cabData) in
  let candidateRoute :=
    createOptimalRoute currentPassengers newRequest
                       (CabData.currentLocation cabData) in
  (Z.of_nat (length currentPassengers) < CabData.capacity cabData)%Z
  /\ (currentLuggage currentPassengers + RideRequest.luggageCount newRequest
      <= CabData.capacity cabData)%Z
  /\ validDetour newRequest cabData candidateRoute = true
  /\ type m = match activeRideOf cabData with
              | Some _ => pooling
              | None => new_ride
              end
  /\ cabId m = CabData._id cabData
  /\ activeRideId m = option_map ActiveRide._id (activeRideOf cabData)
  /\ route m = candidateRoute
  /\ deviationScore m
     = calculateDeviationScore currentPassengers newRequest candidateRoute.
Proof.
  unfold evaluate, checkLuggageConstraint.
  destruct (_ - _ <=? 0)%Z eqn:Hseats; [discriminate|].
  destruct (_ + _ <=? _)%Z eqn:Hlug; simpl; [|discriminate].
  destruct (validDetour _ _ _) eqn:Hdet; simpl; [|discriminate].
  intros H. injection H as <-. simpl.
  apply Z.leb_gt in Hseats. apply Z.leb_le in Hlug.
  repeat split; try reflexivity; try lia.
Qed.




End EngineFacts.

(** ** Concrete rides along the equator *)

Module Equator.
Import Geo GeoFacts RouteBuilder Part000 EngineFacts DeviationFacts.

(** Rewrites the distances between points of the equator to multiples of
    [km_per_degree]. *)
Ltac equator :=
  repeat first
    [ rewrite calculateDistance_equator_same
    | rewrite calculateDistance_equator_le by lra
    | rewrite calculateDistance_equator_ge by lra ].

(** Decides the comparisons of the goal by linear arithmetic. *)
Ltac js_cmp :=
  repeat match goal with
  | |- context [Js.ltb ?a ?b] =>
      first [ rewrite (proj2 (JsFacts.ltb_true a b)) by lra
            | rewrite (proj2 (JsFacts.ltb_false a b)) by lra ]
  | |- context [Js.leb ?a ?b] =>
      first [ rewrite (proj2 (JsFacts.leb_true a b)) by lra
            | rewrite (proj2 (JsFacts.leb_false a b)) by lra ]
  | |- context [Js.eqb ?a ?b] =>
      first [ rewrite (proj2 (JsFacts.eqb_true a b)) by lra
            | rewrite (proj2 (JsFacts.eqb_false a b)) by lra ]
  | |- context [Js.or_default ?a ?b] =>
      first [ rewrite (JsFacts.or_default_nonzero a b) by lra
            | replace (Js.or_default a b) with b
                by (replace a with 0 by lra;
                    symmetry; apply JsFacts.or_default_zero) ]
  end.

Ltac km_bounds :=
  pose proof km_per_degree_pos;
  pose proof km_per_degree_lt.

(** The spatial index when every cab is near: all cabs, in stored order. *)
Definition geoNearAll (near : Coord) (cabs : list Cab.t) : list Cab.t := cabs.

(** A cab at the origin carrying one passenger whose pickup and dropoff are
    the origin; a request from the origin to a hundredth of a degree east,
    with a detour tolerance of 0 minutes. *)
Definition rider : Passenger.t :=
  Passenger.mk 100%nat (0, 0) (0, 0) 1%Z None.

Definition ride (passengers : list Passenger.t) (version : nat)
    : ActiveRide.t :=
  ActiveRide.mk 10%nat 1%nat passengers [(0, 0); (0, 0); (0, 0)]
                ActiveRide.active (5 + INR version) version.

Definition pooledRow (capacity : Z) (version : nat) : CabData.t :=
  CabData.mk 1%nat capacity (0, 0) (Some (ride [rider] version)).

Definition request : RideRequest.t :=
  RideRequest.mk 1%nat 101%nat (0, 0) (1 / 100, 0) 0 1%Z
                 RideRequest.pending 0.

Definition pooledRoute : list Coord :=
  [(0, 0); (0, 0); (0, 0); (0, 0); (1 / 100, 0)].

Lemma pooledRoute_built :
  createOptimalRoute [rider] request (0, 0) = pooledRoute.
Proof.
  km_bounds.
  unfold createOptimalRoute, allPoints. simpl.
  equator. js_cmp. simpl.
  equator. js_cmp. simpl.
  equator. js_cmp. simpl.
  reflexivity.
Qed.

Lemma pooledRoute_length :
  calculateRouteDistance pooledRoute = 1 / 100 * km_per_degree.
Proof.
  unfold pooledRoute, calculateRouteDistance. simpl.
  equator. lra.
Qed.

Lemma rider_directDistance : directDistance rider = 0.
Proof. unfold directDistance. simpl. equator. reflexivity. Qed.

Definition pooledMatch : Match :=
  {| type := pooling;
     cabId := 1%nat;
     activeRideId := Some 10%nat;
     route := pooledRoute;
     deviationScore := 11 * (1 / 100 * km_per_degree);
     estimatedTime := calculateEstimatedTime pooledRoute |}.

Lemma evaluate_pooledRow capacity version :
  (2 <= capacity)%Z ->
  evaluate request (pooledRow capacity version) = Some pooledMatch.
Proof.
  intros Hcap. km_bounds.
  unfold evaluate, checkLuggageConstraint. simpl.
  replace (capacity - 1 <=? 0)%Z with false by (symmetry; apply Z.leb_gt; lia).
  replace (2 <=? capacity)%Z with true by (symmetry; apply Z.leb_le; lia).
  simpl.
  rewrite pooledRoute_built.
  unfold validDetour. simpl.
  unfold checkDetourTolerance, fastPass, toleranceOrDefault. simpl.
  js_cmp. simpl.
  rewrite pooledRoute_length.
  unfold calculateRouteDistance. simpl. equator.
  js_cmp. simpl.
  rewrite calculateDeviationScore_sum. simpl.
  rewrite rider_directDistance, pooledRoute_length.
  js_cmp.
  unfold pooledMatch. do 2 f_equal. lra.
Qed.


Lemma findBestMatch_pooledRow capacity version :
  (2 <= capacity)%Z ->
  findBestMatch request [pooledRow capacity version] = Some pooledMatch.
Proof.
  intros Hcap. unfold findBestMatch. cbn [scoringLoop].
  rewrite (evaluate_pooledRow capacity version Hcap). reflexivity.
Qed.

(** An idle cab at the origin, for the same request. *)
Definition idleRow : CabData.t := CabData.mk 2%nat 4%Z (0, 0) None.

Definition idleRoute : list Coord := [(0, 0); (0, 0); (1 / 100, 0)].

Lemma idleRoute_built (newRequest : RideRequest.t) :
  RideRequest.pickupLocation newRequest = (0, 0) ->
  RideRequest.dropoffLocation newRequest = (1 / 100, 0) ->
  createOptimalRoute [] newRequest (0, 0) = idleRoute.
Proof.
  intros Hp Hd. km_bounds.
  unfold createOptimalRoute, allPoints. rewrite Hp, Hd. simpl.
  equator. js_cmp. simpl.
  reflexivity.
Qed.

Lemma idleRoute_length :
  calculateRouteDistance idleRoute = 1 / 100 * km_per_degree.
Proof.
  unfold idleRoute, calculateRouteDistance. simpl.
  equator. lra.
Qed.

(** The request with five pieces of luggage, for a cab of capacity 4. *)
Definition heavyRequest : RideRequest.t :=
  RideRequest.mk 1%nat 101%nat (0, 0) (1 / 100, 0) 0 5%Z
                 RideRequest.pending 0.

Definition idleMatch : Match :=
  {| type := new_ride;
     cabId := 2%nat;
     activeRideId := None;
     route := idleRoute;
     deviationScore := calculateRouteDistance idleRoute;
     estimatedTime := calculateEstimatedTime idleRoute |}.

Lemma evaluate_heavy : evaluate heavyRequest idleRow = None.
Proof. reflexivity. Qed.

Lemma fallbackMatch_heavy : fallbackMatch heavyRequest idleRow = idleMatch.
Proof.
  unfold fallbackMatch. simpl.
  rewrite (idleRoute_built heavyRequest) by reflexivity.
  reflexivity.
Qed.


Lemma findBestMatch_heavy :
  findBestMatch heavyRequest [idleRow] = Some idleMatch.
Proof.
  unfold findBestMatch. cbn [scoringLoop].
  rewrite evaluate_heavy. simpl.
  rewrite fallbackMatch_heavy. reflexivity.
Qed.



(** C7 (counterexample).  For the passenger whose pickup and dropoff
    coincide the engine scores eleven times the route length, which the
    stated formula, a division by that passenger's direct distance of
    zero, does not give; and the score of [services/matchingEngine.js] for
    the idle cab is the route length plus a tenth of it. *)
Lemma deviationScore_not_the_formula :
  findBestMatch request [pooledRow 4 0] = Some pooledMatch
  /\ directDistance rider = 0
  /\ 0 < calculateRouteDistance (route pooledMatch)
  /\ deviationScore pooledMatch
     = 11 * calculateRouteDistance (route pooledMatch)
  /\ deviationScore pooledMatch
     <> deviationScoreSpec [rider] (route pooledMatch)
  /\ ServicesMatchingEngine.calculateDeviationScore [] request idleRoute
     <> deviationScoreSpec [] idleRoute.
Proof.
  km_bounds.
  split; [apply findBestMatch_pooledRow; lia|].
  split; [exact rider_directDistance|].
  simpl. unfold deviationScoreSpec. simpl.
  rewrite rider_directDistance, pooledRoute_length, idleRoute_length.
  split; [lra|]. split; [lra|]. split.
  - replace ((1 / 100 * km_per_degree - 0) / 0) with 0
      by (unfold Rdiv; rewrite Rinv_0; lra).
    rewrite Rmax_left by lra. lra.
  - unfold ServicesMatchingEngine.calculateDeviationScore. simpl.
    equator. lra.
Qed.

End Equator.

(** ** The deviation score and the detour check of the engine *)

Module DeviationClaims.
Import Geo GeoFacts DeviationFacts.

(** C7 (amended).  In the engine with the fallback the score is the route
    length plus, for every existing passenger, ten times
    [(routeLength - direct) / direct], where the divisor is 1 when the
    passenger's direct distance is 0; the term is not clamped at 0 and
    nothing else is added.  In [services/matchingEngine.js] the weight is
    100 and a tenth of the route length is added. *)
Theorem calculateDeviationScore_formula :
  forall (currentPassengers : list Passenger.t) (newRequest : RideRequest.t)
         (candidateRoute : list Coord),
    let routeLength := calculateRouteDistance candidateRoute in
    Part000.calculateDeviationScore currentPassengers newRequest candidateRoute
    = routeLength
      + sumOver (fun p =>
                   10 * ((routeLength - directDistance p)
                         / (if Req_dec_T (directDistance p) 0
                            then 1 else directDistance p)))
                currentPassengers
    /\ ((forall p, In p currentPassengers -> directDistance p <> 0) ->
        ServicesMatchingEngine.calculateDeviationScore
          currentPassengers newRequest candidateRoute
        = routeLength
          + sumOver (fun p =>
                       100 * ((routeLength - directDistance p)
                              / directDistance p))
                    currentPassengers
          + routeLength / 10).
Proof.
  intros currentPassengers newRequest candidateRoute routeLength.
  split.
  - rewrite calculateDeviationScore_sum. fold routeLength. f_equal.
    apply sumOver_ext. intros p _. unfold Js.or_default. lra.
  - intros _.
    unfold ServicesMatchingEngine.calculateDeviationScore.
    rewrite <- calculateRouteDistance_sum. fold routeLength.
    rewrite (fold_left_sumOver
               (fun p => (routeLength - directDistance p)
                         / directDistance p * 100)).
    rewrite (sumOver_ext
               (fun p => (routeLength - directDistance p)
                         / directDistance p * 100)
               (fun p => 100 * ((routeLength - directDistance p)
                                / directDistance p)))
      by (intros; lra).
    lra.
Qed.

(** A passenger who rides a hundredth of a degree along the equator. *)
Definition shortRider : Passenger.t :=
  Passenger.mk 100%nat (0, 0) (1 / 100, 0) 1%Z None.

Lemma calculateDeviationScore_formula_witness :
  ServicesMatchingEngine.calculateDeviationScore
    [shortRider] Equator.request Equator.pooledRoute
  = calculateRouteDistance Equator.pooledRoute
    + sumOver (fun p =>
                 100 * ((calculateRouteDistance Equator.pooledRoute
                         - directDistance p)
                        / directDistance p))
              [shortRider]
    + calculateRouteDistance Equator.pooledRoute / 10.
Proof.
  apply (calculateDeviationScore_formula
           [shortRider] Equator.request Equator.pooledRoute).
  intros p [<-|[]].
  unfold directDistance. simpl.
  rewrite calculateDistance_equator_le by lra.
  pose proof km_per_degree_pos. lra.
Defined.

End DeviationClaims.

Module DetourClaims.
Import Geo RouteBuilder Part000 EngineFacts DetourFacts.

(** The tolerance, in minutes, that the check uses for a passenger: the
    passenger's own if the record has one that is not 0, and 5 if the
    record has none or has 0. *)
Inductive toleranceOf (passenger : Passenger.t) (t : R) : Prop :=
| tolerance_own :
    Passenger.detourTolerance passenger = Some t -> t <> 0 ->
    toleranceOf passenger t
| tolerance_zero :
    Passenger.detourTolerance passenger = Some 0 -> t = 5 ->
    toleranceOf passenger t
| tolerance_default :
    Passenger.detourTolerance passenger = None -> t = 5 ->
    toleranceOf passenger t.

(** Every passenger has a tolerance. *)
Lemma toleranceOf_total passenger : exists t, toleranceOf passenger t.
Proof.
  destruct (Passenger.detourTolerance passenger) as [t|] eqn:Ht.
  - destruct (Req_dec_T t 0) as [->|Hnz].
    + exists 5. apply tolerance_zero; [exact Ht | reflexivity].
    + exists t. apply tolerance_own; assumption.
  - exists 5. apply tolerance_default; [exact Ht | reflexivity].
Qed.







Definition nearRequest : RideRequest.t :=
  RideRequest.mk 2%nat 201%nat (1 / 100, 0) (3 / 100, 0) 0 1%Z
                 RideRequest.pending 0.


Import GeoFacts.
Import Equator.




(** The same cab with a passenger whose record has a tolerance of 0
    minutes. *)
Definition patient : Passenger.t :=
  Passenger.mk 200%nat (0, 0) (2 / 100, 0) 1%Z (Some 0).

Definition patientRide : ActiveRide.t :=
  ActiveRide.mk 21%nat 3%nat [patient] [(0, 0); (0, 0); (2 / 100, 0)]
                ActiveRide.active 5 0.

Definition patientRow : CabData.t :=
  CabData.mk 3%nat 4%Z (0, 0) (Some patientRide).

Lemma patient_route (newRequest : RideRequest.t) (x : R) :
  RideRequest.pickupLocation newRequest = (1 / 100, 0) ->
  RideRequest.dropoffLocation newRequest = (x, 0) ->
  3 / 100 <= x <= 1 ->
  createOptimalRoute [patient] newRequest (0, 0)
  = [(0, 0); (0, 0); (1 / 100, 0); (2 / 100, 0); (x, 0)].
Proof.
  intros Hp Hd Hx. km_bounds.
  assert (Hxk : 3 / 100 * km_per_degree <= x * km_per_degree) by nra.
  unfold createOptimalRoute, allPoints. rewrite Hp, Hd. simpl.
  equator. js_cmp. simpl.
  equator. js_cmp. simpl.
  equator. js_cmp. simpl.
  reflexivity.
Qed.

Lemma patient_extra (x : R) :
  3 / 100 <= x <= 1 ->
  calculateRouteDistance [(0, 0); (0, 0); (1 / 100, 0); (2 / 100, 0); (x, 0)]
  - calculateRouteDistance (originalRoutePoints patientRow [patient])
  = (x - 2 / 100) * km_per_degree.
Proof.
  intros Hx.
  unfold calculateRouteDistance, originalRoutePoints. simpl.
  equator. lra.
Qed.

Lemma patient_not_fastPass (newRequest : RideRequest.t) :
  RideRequest.pickupLocation newRequest = (1 / 100, 0) ->
  fastPass patient newRequest = false.
Proof.
  intros Hp. unfold fastPass. rewrite Hp. simpl.
  js_cmp. reflexivity.
Qed.

(** A stored tolerance of 0 counts as 5 minutes: the passenger is pooled
    with a request that lengthens the route by a hundredth of a degree,
    more than a kilometer and less than the 10/3 km of 5 minutes. *)
Lemma zero_tolerance_passenger_pooled :
  1 < calculateRouteDistance
        (createOptimalRoute [patient] nearRequest (0, 0))
      - calculateRouteDistance (originalRoutePoints patientRow [patient])
  /\ exists m, findBestMatch nearRequest [patientRow] = Some m
               /\ type m = pooling
               /\ activeRideId m = Some 21%nat.
Proof.
  km_bounds. pose proof km_per_degree_gt.
  rewrite (patient_route nearRequest (3 / 100)) by (reflexivity || lra).
  rewrite (patient_extra (3 / 100)) by lra.
  split; [lra|].
  unfold findBestMatch. cbn [scoringLoop].
  unfold evaluate, checkLuggageConstraint. simpl.
  rewrite (patient_route nearRequest (3 / 100)) by (reflexivity || lra).
  unfold validDetour. simpl.
  rewrite checkDetourTolerance_slow
    by (apply patient_not_fastPass; reflexivity).
  rewrite (patient_extra (3 / 100)) by lra.
  unfold toleranceOrDefault. simpl.
  js_cmp. simpl.
  eexists. split; [reflexivity|].
  repeat split.
Qed.



End DetourClaims.

(** ** The unique index: one active ride per cab *)

Module StoreFacts.
Import Db.

(** The number of active rides of the collection that reference a cab. *)
Definition activeFor (cab : ObjectId) (rides : list ActiveRide.t) : nat :=
  length (filter (fun r => ActiveRide.isActive r
                           && (ActiveRide.cabId r =? cab)%nat)
                 rides).

Definition uniqueActive (st : Store) : Prop :=
  forall cab, (activeFor cab (activeRides st) <= 1)%nat.

Definition distinctIds (st : Store) : Prop :=
  NoDup (map ActiveRide._id (activeRides st)).

(** What the [_id] index and the unique partial index maintain. *)
Definition consistent (st : Store) : Prop :=
  distinctIds st /\ uniqueActive st.

Lemma activeFor_app cab l1 l2 :
  activeFor cab (l1 ++ l2) = (activeFor cab l1 + activeFor cab l2)%nat.
Proof. unfold activeFor. rewrite filter_app, length_app. reflexivity. Qed.

Lemma hasId_false_not_In rides id :
  hasId rides id = false -> ~ In id (map ActiveRide._id rides).
Proof.
  unfold hasId. intros H Hin.
  apply in_map_iff in Hin. destruct Hin as (r & Hr & Hin).
  assert (Hex : existsb (fun r => (ActiveRide._id r =? id)%nat) rides = true).
  { apply existsb_exists. exists r. split; [exact Hin|].
    apply Nat.eqb_eq. exact Hr. }
  congruence.
Qed.

(** Without a collision, and with [doc] active, no stored ride with another
    id is active for the cab of [doc]. *)
Lemma violatesUniqueCab_false rides doc :
  violatesUniqueCab rides doc = false ->
  ActiveRide.isActive doc = true ->
  forall r, In r rides -> ActiveRide._id r <> ActiveRide._id doc ->
            ActiveRide.isActive r
            && (ActiveRide.cabId r =? ActiveRide.cabId doc)%nat = false.
Proof.
  unfold violatesUniqueCab. intros H Hact r Hin Hid.
  rewrite Hact in H. simpl in H.
  destruct (ActiveRide.isActive r
            && (ActiveRide.cabId r =? ActiveRide.cabId doc)%nat) eqn:Hr;
    [|reflexivity].
  exfalso.
  assert (Hex : existsb
                  (fun r => ActiveRide.isActive r
                            && (ActiveRide.cabId r =? ActiveRide.cabId doc)%nat
                            && negb (ActiveRide._id r =? ActiveRide._id doc)%nat)
                  rides = true).
  { apply existsb_exists. exists r. split; [exact Hin|].
    rewrite Hr. simpl. apply negb_true_iff, Nat.eqb_neq. exact Hid. }
  congruence.
Qed.

Lemma activeFor_zero cab rides :
  (forall r, In r rides ->
             ActiveRide.isActive r && (ActiveRide.cabId r =? cab)%nat = false) ->
  activeFor cab rides = 0%nat.
Proof.
  unfold activeFor.
  induction rides as [|r rest IH]; intros H; simpl; [reflexivity|].
  rewrite (H r (or_introl eq_refl)). apply IH.
  intros r' Hin. apply H. right. exact Hin.
Qed.

Lemma insertActiveRide_consistent st doc st' :
  consistent st -> insertActiveRide st doc = Ok st' -> consistent st'.
Proof.
  intros [Hids Huniq]. unfold insertActiveRide.
  destruct (negb (validActiveRide doc)); [discriminate|].
  destruct (hasId (activeRides st) (ActiveRide._id doc)) eqn:Hhas;
    [discriminate|].
  destruct (violatesUniqueCab (activeRides st) doc) eqn:Hviol; [discriminate|].
  intros H. injection H as <-.
  split.
  - unfold distinctIds. simpl. rewrite map_app. simpl.
    apply NoDup_app; [exact Hids | repeat constructor; intros [] |].
    intros id Hin [<-|[]].
    exact (hasId_false_not_In _ _ Hhas Hin).
  - intros cab. simpl. rewrite activeFor_app.
    destruct (ActiveRide.isActive doc
              && (ActiveRide.cabId doc =? cab)%nat) eqn:Hdoc.
    + apply andb_true_iff in Hdoc. destruct Hdoc as [Hact Hcab].
      apply Nat.eqb_eq in Hcab. subst cab.
      rewrite activeFor_zero.
      * unfold activeFor. simpl.
        destruct (_ && _); simpl; lia.
      * intros r Hin.
        apply (violatesUniqueCab_false _ _ Hviol Hact r Hin).
        intros Heq. apply (hasId_false_not_In _ _ Hhas).
        rewrite <- Heq. apply in_map. exact Hin.
    + specialize (Huniq cab).
      unfold activeFor at 2. simpl.
      change (ActiveRide.isActive (withVersion doc 0)) with
        (ActiveRide.isActive doc).
      change (ActiveRide.cabId (withVersion doc 0)) with
        (ActiveRide.cabId doc).
      rewrite Hdoc. simpl. lia.
Qed.

Lemma replaceRide_ids doc rides :
  map ActiveRide._id (replaceRide doc rides) = map ActiveRide._id rides.
Proof.
  unfold replaceRide. rewrite map_map. apply map_ext_in.
  intros r _.
  destruct (ActiveRide._id r =? ActiveRide._id doc)%nat eqn:Heq;
    [|reflexivity].
  apply Nat.eqb_eq in Heq. symmetry. exact Heq.
Qed.

Lemma filter_id_absent rides id :
  ~ In id (map ActiveRide._id rides) ->
  filter (fun r => (ActiveRide._id r =? id)%nat) rides = [].
Proof.
  induction rides as [|r rest IH]; intros Hnotin; simpl; [reflexivity|].
  destruct (ActiveRide._id r =? id)%nat eqn:Heq.
  - exfalso. apply Hnotin. left. apply Nat.eqb_eq. exact Heq.
  - apply IH. intros Hin. apply Hnotin. right. exact Hin.
Qed.

(** Under distinct ids at most one ride has a given id. *)
Lemma count_id_le_1 rides id :
  NoDup (map ActiveRide._id rides) ->
  (length (filter (fun r => (ActiveRide._id r =? id)%nat) rides) <= 1)%nat.
Proof.
  induction rides as [|r rest IH]; intros Hnd; simpl; [lia|].
  inversion Hnd as [|? ? Hnotin Hnd']; subst.
  destruct (ActiveRide._id r =? id)%nat eqn:Heq.
  - apply Nat.eqb_eq in Heq. simpl.
    rewrite filter_id_absent by (rewrite <- Heq; exact Hnotin).
    simpl. lia.
  - apply IH. exact Hnd'.
Qed.

Lemma activeFor_replace_le doc rides cab :
  (forall r, In r rides -> ActiveRide._id r <> ActiveRide._id doc ->
             ActiveRide.isActive doc
             && (ActiveRide.cabId doc =? cab)%nat = true ->
             ActiveRide.isActive r && (ActiveRide.cabId r =? cab)%nat = false) ->
  (activeFor cab (replaceRide doc rides)
   <= if ActiveRide.isActive doc && (ActiveRide.cabId doc =? cab)%nat
      then length (filter (fun r => (ActiveRide._id r =? ActiveRide._id doc)%nat)
                          rides)
      else activeFor cab rides)%nat.
Proof.
  unfold activeFor, replaceRide.
  induction rides as [|r rest IH]; intros H; simpl.
  - destruct (_ && _); lia.
  - assert (IH' := IH (fun r' Hin => H r' (or_intror Hin))). clear IH.
    destruct (ActiveRide._id r =? ActiveRide._id doc)%nat eqn:Heq.
    + destruct (ActiveRide.isActive doc
                && (ActiveRide.cabId doc =? cab)%nat) eqn:Hdoc; simpl.
      * lia.
      * destruct (ActiveRide.isActive r && (ActiveRide.cabId r =? cab)%nat);
          simpl; lia.
    + apply Nat.eqb_neq in Heq.
      destruct (ActiveRide.isActive doc
                && (ActiveRide.cabId doc =? cab)%nat) eqn:Hdoc.
      * rewrite (H r (or_introl eq_refl) Heq eq_refl). exact IH'.
      * destruct (ActiveRide.isActive r && (ActiveRide.cabId r =? cab)%nat);
          simpl; lia.
Qed.

Lemma saveActiveRide_consistent st doc st' :
  consistent st -> saveActiveRide st doc = Ok st' -> consistent st'.
Proof.
  intros [Hids Huniq]. unfold saveActiveRide.
  destruct (negb (validActiveRide doc)); [discriminate|].
  destruct (ActiveRide_findById st (Some (ActiveRide._id doc))) as [stored|];
    [|discriminate].
  destruct (negb (ActiveRide.__v stored =? ActiveRide.__v doc)%nat);
    [discriminate|].
  destruct (violatesUniqueCab (activeRides st) doc) eqn:Hviol; [discriminate|].
  intros H. injection H as <-.
  set (doc' := withVersion doc (S (ActiveRide.__v doc))).
  split.
  - unfold distinctIds. simpl. rewrite replaceRide_ids. exact Hids.
  - intros cab. simpl.
    eapply Nat.le_trans; [apply activeFor_replace_le|].
    + intros r Hin Hid Hdoc.
      apply andb_true_iff in Hdoc. destruct Hdoc as [Hact Hcab].
      apply Nat.eqb_eq in Hcab. subst cab.
      exact (violatesUniqueCab_false _ _ Hviol Hact r Hin Hid).
    + destruct (_ && _).
      * apply count_id_le_1. exact Hids.
      * apply Huniq.
Qed.

Lemma saveRideRequest_activeRides st doc st' :
  saveRideRequest st doc = Ok st' ->
  activeRides st' = activeRides st /\ cabs st' = cabs st.
Proof.
  unfold saveRideRequest.
  destruct (negb (validRideRequest doc)); [discriminate|].
  intros H. injection H as <-. split; reflexivity.
Qed.

Lemma saveRideRequest_consistent st doc st' :
  consistent st -> saveRideRequest st doc = Ok st' -> consistent st'.
Proof.
  intros [Hids Huniq] H.
  apply saveRideRequest_activeRides in H. destruct H as [H _].
  unfold consistent, distinctIds, uniqueActive. rewrite H.
  split; assumption.
Qed.

Lemma applyWrite_consistent st w :
  consistent st -> consistent (applyWrite st w).
Proof.
  intros Hc. destruct w as [doc|doc]; simpl.
  - destruct (insertActiveRide st doc) eqn:H; [|exact Hc].
    exact (insertActiveRide_consistent _ _ _ Hc H).
  - destruct (saveActiveRide st doc) eqn:H; [|exact Hc].
    exact (saveActiveRide_consistent _ _ _ Hc H).
Qed.

Lemma applyWrites_consistent ws st :
  consistent st -> consistent (applyWrites ws st).
Proof.
  unfold applyWrites. revert st.
  induction ws as [|w rest IH]; intros st Hc; simpl; [exact Hc|].
  apply IH. apply applyWrite_consistent. exact Hc.
Qed.

Lemma interfere_consistent env st :
  consistent st -> consistent (snd (interfere env st)).
Proof.
  intros Hc. destruct env as [|ws env']; simpl; [exact Hc|].
  apply applyWrites_consistent. exact Hc.
Qed.

End StoreFacts.

(** ** The handlers keep the collection consistent *)

Module HandlerFacts.
Import Db StoreFacts.

Lemma interfere_eq_consistent env st env1 st1 :
  consistent st -> interfere env st = (env1, st1) -> consistent st1.
Proof.
  intros Hc H. pose proof (interfere_consistent env st Hc) as Hi.
  rewrite H in Hi. exact Hi.
Qed.

(** Case analysis on a [match] of a hypothesis or of the goal. *)
Ltac split_match H :=
  match type of H with
  | context [match ?x with _ => _ end] => destruct x eqn:?
  end.

Ltac split_goal_match :=
  match goal with
  | |- context [match ?x with _ => _ end] => destruct x eqn:?
  end.

(** Carries consistency forward along the writes recorded in the
    context. *)
Ltac forward_consistent :=
  repeat match goal with
  | Hc : consistent ?st, H : interfere _ ?st = (_, _) |- _ =>
      apply (interfere_eq_consistent _ _ _ _ Hc) in H
  | Hc : consistent ?st, H : saveActiveRide ?st _ = Ok _ |- _ =>
      apply (saveActiveRide_consistent _ _ _ Hc) in H
  | Hc : consistent ?st, H : insertActiveRide ?st _ = Ok _ |- _ =>
      apply (insertActiveRide_consistent _ _ _ Hc) in H
  | Hc : consistent ?st, H : saveRideRequest ?st _ = Ok _ |- _ =>
      apply (saveRideRequest_consistent _ _ _ Hc) in H
  end;
  try assumption.

Section AnyEngine.

Variable findBestMatch : Store -> RideRequest.t -> option Match.

Lemma tryBlock_consistent body rideRequest bestMatch env st env1 st1 res :
  consistent st ->
  RideController.tryBlock body rideRequest bestMatch env st = (env1, st1, res) ->
  consistent st1
  /\ forall st3 resp, res = Ok (st3, resp) -> consistent st3.
Proof.
  intros Hc H.
  unfold RideController.tryBlock, RideController.tryPooling,
    RideController.tryNewRide in H.
  repeat split_match H;
    injection H as <- <- <-;
    (split; [forward_consistent|]);
    intros st3 resp Heq; inversion Heq; subst; forward_consistent.
Qed.

Lemma retryLoop_consistent remaining body rideRequest bestMatch env st :
  consistent st ->
  consistent
    (RideController.store
       (RideController.retryLoop findBestMatch remaining body rideRequest
                                 bestMatch env st)).
Proof.
  revert bestMatch env st.
  induction remaining as [|k IH]; intros bestMatch env st Hc; simpl.
  - exact Hc.
  - destruct (interfere env st) as [env0 st0] eqn:Hi.
    assert (Hc0 : consistent st0)
      by exact (interfere_eq_consistent _ _ _ _ Hc Hi).
    destruct (RideController.tryBlock body rideRequest bestMatch env0 st0)
      as [[env1 st1] res] eqn:Ht.
    destruct (tryBlock_consistent _ _ _ _ _ _ _ _ Hc0 Ht) as [Hc1 Hok].
    destruct res as [[st3 resp]|e]; simpl.
    + apply (Hok st3 resp). reflexivity.
    + destruct (RideController.isVersionConflict e); simpl; [|exact Hc1].
      destruct (findBestMatch st1 rideRequest) as [updatedMatch|]; simpl.
      * apply IH. exact Hc1.
      * destruct (saveRideRequest st1 rideRequest) eqn:Hs;
          forward_consistent.
Qed.

Lemma claimAnyCab_consistent body rideRequest env st :
  consistent st ->
  consistent
    (RideController.store
       (RideController.claimAnyCab body rideRequest env st)).
Proof.
  intros Hc. unfold RideController.claimAnyCab, bind.
  repeat split_goal_match; cbn [RideController.store];
    forward_consistent.
  match goal with
  | H : match insertActiveRide ?a ?b with _ => _ end = _ |- _ =>
      destruct (insertActiveRide a b) eqn:?; [|discriminate]
  end.
  forward_consistent.
Qed.

Lemma bookRide_consistent env st body :
  consistent st ->
  consistent
    (RideController.store (RideController.bookRide findBestMatch env st body)).
Proof.
  intros Hc. unfold RideController.bookRide.
  destruct (negb _); [exact Hc|].
  destruct (findBestMatch st _).
  - apply retryLoop_consistent. exact Hc.
  - apply claimAnyCab_consistent. exact Hc.
Qed.

Lemma short_bookRide_consistent env st body :
  consistent st ->
  consistent (snd (Part003.bookRide findBestMatch env st body)).
Proof.
  intros Hc.
  unfold Part003.bookRide, Part003.joinPool, Part003.claimCab.
  repeat split_goal_match; cbn [snd]; forward_consistent.
Qed.

End AnyEngine.

Lemma cancelRide_consistent env st rideId userId :
  consistent st ->
  consistent
    (RideController.store (RideController.cancelRide env st rideId userId)).
Proof.
  intros Hc. unfold RideController.cancelRide.
  repeat split_goal_match; cbn [RideController.store]; forward_consistent.
Qed.

(** The states of the collections that the handlers produce, starting
    without rides.  Every handler runs against any engine and any writes of
    concurrent requests. *)
Inductive reachable : Store -> Prop :=
| reach_init cabs rideRequests :
    reachable (mkStore cabs [] rideRequests)
| reach_bookRide findBestMatch env st body :
    reachable st ->
    reachable
      (RideController.store
         (RideController.bookRide findBestMatch env st body))
| reach_short_bookRide findBestMatch env st body :
    reachable st ->
    reachable (snd (Part003.bookRide findBestMatch env st body))
| reach_cancelRide env st rideId userId :
    reachable st ->
    reachable
      (RideController.store (RideController.cancelRide env st rideId userId)).

Lemma reachable_consistent st : reachable st -> consistent st.
Proof.
  induction 1.
  - split.
    + constructor.
    + intros cab. unfold activeFor. simpl. lia.
  - apply bookRide_consistent. assumption.
  - apply short_bookRide_consistent. assumption.
  - apply cancelRide_consistent. assumption.
Qed.

(** C1.  In every reachable state every cab is referenced by at most one
    ride with status ['active']; booking a new ride, pooling a passenger and
    cancelling all keep it so. *)
Theorem one_active_ride_per_cab :
  forall st : Store,
    reachable st ->
    forall cab : ObjectId, (activeFor cab (activeRides st) <= 1)%nat.
Proof.
  intros st Hreach.
  exact (proj2 (reachable_consistent st Hreach)).
Qed.

End HandlerFacts.

(** ** The retry loop *)

Module RetryFacts.
Import Db RideController.

Section AnyEngine.

Variable findBestMatch : Store -> RideRequest.t -> option Match.

(** After the retry branch [bestMatch] has the ride id, the route and the
    time of the new match, and still the type, the cab and the score of the
    old one. *)
Lemma refreshed_fields (bestMatch updatedMatch : Match) :
  activeRideId (refreshed bestMatch updatedMatch) = activeRideId updatedMatch
  /\ route (refreshed bestMatch updatedMatch) = route updatedMatch
  /\ estimatedTime (refreshed bestMatch updatedMatch)
     = estimatedTime updatedMatch
  /\ type (refreshed bestMatch updatedMatch) = type bestMatch
  /\ cabId (refreshed bestMatch updatedMatch) = cabId bestMatch
  /\ deviationScore (refreshed bestMatch updatedMatch)
     = deviationScore bestMatch.
Proof. repeat split. Qed.

(** The loop makes at most [remaining] turns. *)
Lemma retryLoop_attempts remaining body rideRequest bestMatch env st :
  (length (attempts (retryLoop findBestMatch remaining body rideRequest
                               bestMatch env st))
   <= remaining)%nat.
Proof.
  revert bestMatch env st.
  induction remaining as [|k IH]; intros bestMatch env st; simpl; [lia|].
  destruct (interfere env st) as [env0 st0].
  destruct (tryBlock body rideRequest bestMatch env0 st0)
    as [[env1 st1] [[st3 resp]|e]]; simpl; [lia|].
  destruct (isVersionConflict e); simpl; [|lia].
  destruct (findBestMatch st1 rideRequest); simpl; [|lia].
  specialize (IH (refreshed bestMatch m) env1 st1). lia.
Qed.

(** A loop all of whose turns end in a version conflict answers 409. *)
Lemma retryLoop_conflicts remaining body rideRequest bestMatch env st :
  let o := retryLoop findBestMatch remaining body rideRequest bestMatch
                     env st in
  Forall (fun a => a = VersionConflict) (attempts o) ->
  Http.statusCode (response o) = 409%nat
  /\ Http.success (response o) = false.
Proof.
  revert bestMatch env st.
  induction remaining as [|k IH]; intros bestMatch env st; simpl.
  - intros _. split; reflexivity.
  - destruct (interfere env st) as [env0 st0].
    destruct (tryBlock body rideRequest bestMatch env0 st0)
      as [[env1 st1] [[st3 resp]|e]]; simpl.
    + intros H. inversion H as [|? ? Hhd _]. discriminate.
    + destruct (isVersionConflict e); simpl.
      * destruct (findBestMatch st1 rideRequest); simpl.
        -- intros H. inversion H as [|? ? _ Htl]. apply IH. exact Htl.
        -- intros _. split; reflexivity.
      * intros H. inversion H as [|? ? Hhd _]. discriminate.
Qed.

(** C4.  A booking makes at most 3 commit attempts, and when three
    attempts have all failed with a version conflict it ends with status
    409 and [success: false], not with the 500 of a fatal error. *)
Theorem bookRide_bounded_retries :
  forall (env : Env) (st : Store) (body : Http.Body),
    let o := bookRide findBestMatch env st body in
    (length (attempts o) <= 3)%nat
    /\ (attempts o = [VersionConflict; VersionConflict; VersionConflict] ->
        Http.statusCode (response o) = 409%nat
        /\ Http.success (response o) = false).
Proof.
  intros env st body. unfold bookRide.
  destruct (negb (validRideRequest (newRideRequest st body))).
  - simpl. split; [lia | discriminate].
  - destruct (findBestMatch st (newRideRequest st body)) as [bestMatch|].
    + split.
      * apply retryLoop_attempts.
      * intros H. apply retryLoop_conflicts. rewrite H.
        repeat constructor.
    + assert (Hnone : attempts (claimAnyCab body (newRideRequest st body)
                                            env st) = []).
      { unfold claimAnyCab.
        repeat match goal with
               | |- context [match ?x with _ => _ end] => destruct x
               end; reflexivity. }
      rewrite Hnone. simpl. split; [lia | discriminate].
Qed.

End AnyEngine.

End RetryFacts.

(** ** Cancellation *)

Module CancelFacts.
Import Db RideController.

Lemma findIndex_None userId passengers :
  findIndex userId passengers = None <->
  forall p, In p passengers -> Passenger.userId p <> userId.
Proof.
  induction passengers as [|p rest IH]; simpl.
  - split; [intros _ p [] | reflexivity].
  - destruct (Passenger.userId p =? userId)%nat eqn:Heq.
    + split; [discriminate|].
      intros H. apply Nat.eqb_eq in Heq.
      exfalso. exact (H p (or_introl eq_refl) Heq).
    + apply Nat.eqb_neq in Heq.
      destruct (findIndex userId rest) as [i|]; simpl.
      * split; [discriminate|].
        intros H.
        assert (Hnone : Some i = None); [|discriminate Hnone].
        apply IH. intros q Hq. apply H. right. exact Hq.
      * split; [|reflexivity].
        intros _ q [<-|Hq]; [exact Heq|].
        apply (proj1 IH eq_refl). exact Hq.
Qed.

(** The number of sub-records of a requester in a trip. *)
Definition records (userId : ObjectId) (passengers : list Passenger.t)
    : nat :=
  length (filter (fun p => (Passenger.userId p =? userId)%nat) passengers).

(** Removing the only sub-record of a requester leaves none. *)
Lemma findIndex_removed userId passengers i :
  findIndex userId passengers = Some i ->
  records userId passengers = 1%nat ->
  findIndex userId (RouteBuilder.removeAt i passengers) = None.
Proof.
  unfold records. revert i.
  induction passengers as [|p rest IH]; intros i; simpl; [discriminate|].
  destruct (Passenger.userId p =? userId)%nat eqn:Heq.
  - intros H Hcount. injection H as <-. simpl in *.
    apply findIndex_None. intros q Hq Hid.
    assert (Hin : In q (filter (fun p => (Passenger.userId p =? userId)%nat)
                               rest)).
    { apply filter_In. split; [exact Hq|]. apply Nat.eqb_eq. exact Hid. }
    destruct (filter _ rest); [exact Hin | simpl in Hcount; lia].
  - destruct (findIndex userId rest) as [j|]; simpl; [|discriminate].
    intros H Hcount. injection H as <-. simpl.
    rewrite Heq. rewrite (IH j eq_refl Hcount). reflexivity.
Qed.

(** A cancellation for a requester without sub-record in the trip fails
    and writes nothing: 404 if the trip is active, 400 if it is not. *)
Lemma cancelRide_absent env st rideId userId activeRide :
  ActiveRide_findById st (Some rideId) = Some activeRide ->
  (forall p, In p (ActiveRide.passengers activeRide) ->
             Passenger.userId p <> userId) ->
  let o := cancelRide env st rideId userId in
  store o = st
  /\ Http.success (response o) = false
  /\ Http.statusCode (response o)
     = if ActiveRide.isActive activeRide then 404%nat else 400%nat.
Proof.
  intros Hfind Habsent. unfold cancelRide. rewrite Hfind.
  apply findIndex_None in Habsent.
  destruct (ActiveRide.isActive activeRide); simpl.
  - rewrite Habsent. repeat split.
  - repeat split.
Qed.

Lemma find_id_eq rides id r :
  find (fun r => (ActiveRide._id r =? id)%nat) rides = Some r ->
  ActiveRide._id r = id.
Proof.
  intros H. apply find_some in H. destruct H as [_ H].
  apply Nat.eqb_eq. exact H.
Qed.

Lemma find_replaceRide doc rides stored :
  find (fun r => (ActiveRide._id r =? ActiveRide._id doc)%nat) rides
    = Some stored ->
  find (fun r => (ActiveRide._id r =? ActiveRide._id doc)%nat)
       (replaceRide doc rides)
  = Some doc.
Proof.
  unfold replaceRide.
  induction rides as [|r rest IH]; simpl; [discriminate|].
  destruct (ActiveRide._id r =? ActiveRide._id doc)%nat eqn:Heq.
  - intros _. rewrite Nat.eqb_refl. reflexivity.
  - rewrite Heq. exact IH.
Qed.

(** A saved ride is read back as saved, with the next version. *)
Lemma findById_saved st doc st' :
  saveActiveRide st doc = Ok st' ->
  ActiveRide_findById st' (Some (ActiveRide._id doc))
  = Some (withVersion doc (S (ActiveRide.__v doc))).
Proof.
  unfold saveActiveRide.
  destruct (negb (validActiveRide doc)); [discriminate|].
  destruct (ActiveRide_findById st (Some (ActiveRide._id doc)))
    as [stored|] eqn:Hfind; [|discriminate].
  destruct (negb _); [discriminate|].
  destruct (violatesUniqueCab _ _); [discriminate|].
  intros H. injection H as <-. simpl in *.
  apply (find_replaceRide (withVersion doc (S (ActiveRide.__v doc)))
                          (activeRides st) stored).
  exact Hfind.
Qed.

Lemma removeAt_found_length userId passengers i :
  findIndex userId passengers = Some i ->
  S (length (RouteBuilder.removeAt i passengers)) = length passengers.
Proof.
  revert i.
  induction passengers as [|p rest IH]; intros i; simpl; [discriminate|].
  destruct (Passenger.userId p =? userId)%nat.
  - intros H. injection H as <-. reflexivity.
  - destruct (findIndex userId rest) as [j|] eqn:Hj; [|discriminate].
    intros H. injection H as <-. simpl.
    rewrite (IH j eq_refl). reflexivity.
Qed.

(** What a successful cancellation without concurrent writes leaves: the
    trip without the sub-record found, cancelled if that was the last. *)
Lemma cancelRide_success st rideId userId activeRide :
  ActiveRide_findById st (Some rideId) = Some activeRide ->
  Http.success (response (cancelRide [] st rideId userId)) = true ->
  exists i doc,
    findIndex userId (ActiveRide.passengers activeRide) = Some i
    /\ ActiveRide_findById (store (cancelRide [] st rideId userId))
                           (Some rideId) = Some doc
    /\ ActiveRide.passengers doc
       = RouteBuilder.removeAt i (ActiveRide.passengers activeRide)
    /\ ActiveRide.isActive doc
       = negb (length (RouteBuilder.removeAt i
                         (ActiveRide.passengers activeRide)) =? 0)%nat.
Proof.
  intros Hfind.
  assert (Hid : ActiveRide._id activeRide = rideId).
  { apply (find_id_eq (activeRides st)). exact Hfind. }
  unfold cancelRide. rewrite Hfind.
  destruct (ActiveRide.isActive activeRide) eqn:Hactive;
    [|discriminate].
  cbn [negb].
  destruct (findIndex userId (ActiveRide.passengers activeRide))
    as [i|] eqn:Hidx; [|discriminate].
  cbn [interfere].
  destruct (length (RouteBuilder.removeAt i
                      (ActiveRide.passengers activeRide)) =? 0)%nat
    eqn:Hempty.
  - destruct (saveActiveRide st _) as [st2|e] eqn:Hsave;
      [|destruct e; discriminate].
    intros _. apply findById_saved in Hsave.
    cbn [ActiveRide._id ActiveRide.__v] in Hsave. rewrite Hid in Hsave.
    eexists i, _. split; [reflexivity|].
    split; [exact Hsave|]. split; [reflexivity|].
    rewrite Hempty. reflexivity.
  - destruct (Cab_findById st (ActiveRide.cabId activeRide)) as [cab|];
      [|discriminate].
    destruct (saveActiveRide st _) as [st2|e] eqn:Hsave;
      [|destruct e; discriminate].
    intros _. apply findById_saved in Hsave.
    cbn [ActiveRide._id ActiveRide.__v] in Hsave. rewrite Hid in Hsave.
    eexists i, _. split; [reflexivity|].
    split; [exact Hsave|]. split; [reflexivity|].
    rewrite Hempty. exact Hactive.
Qed.

(** C9 (amended).  A cancellation for a requester without sub-record in
    the trip fails and leaves the collections unchanged: with 404 when the
    trip is active, with 400 when it is not.  In particular, after a
    successful cancellation of a requester with one sub-record, a second
    one fails and changes nothing: with 404 if passengers remain, with 400
    if the first emptied and thereby cancelled the trip. *)
Theorem cancelRide_absent_passenger :
  forall (env : Env) (st : Store) (rideId userId : ObjectId)
         (activeRide : ActiveRide.t),
    ActiveRide_findById st (Some rideId) = Some activeRide ->
    ((forall p, In p (ActiveRide.passengers activeRide) ->
                Passenger.userId p <> userId) ->
     let o := cancelRide env st rideId userId in
     store o = st
     /\ Http.success (response o) = false
     /\ Http.statusCode (response o)
        = if ActiveRide.isActive activeRide then 404%nat else 400%nat)
    /\ (records userId (ActiveRide.passengers activeRide) = 1%nat ->
        let first := cancelRide [] st rideId userId in
        Http.success (response first) = true ->
        let second := cancelRide env (store first) rideId userId in
        store second = store first
        /\ Http.success (response second) = false
        /\ Http.statusCode (response second)
           = if (length (ActiveRide.passengers activeRide) =? 1)%nat
             then 400%nat else 404%nat).
Proof.
  intros env st rideId userId activeRide Hfind.
  split; [apply cancelRide_absent; exact Hfind|].
  intros Hone first Hsuccess second.
  destruct (cancelRide_success st rideId userId activeRide Hfind Hsuccess)
    as (i & doc & Hidx & Hdoc & Hpassengers & Hactive).
  pose proof (findIndex_removed _ _ _ Hidx Hone) as Hgone.
  pose proof (removeAt_found_length _ _ _ Hidx) as Hlen.
  rewrite <- Hpassengers in Hgone.
  pose proof (cancelRide_absent env (store first) rideId userId doc Hdoc
                (proj1 (findIndex_None _ _) Hgone)) as Hsecond.
  cbv zeta in Hsecond. fold second in Hsecond.
  rewrite Hactive in Hsecond.
  replace (length (ActiveRide.passengers activeRide) =? 1)%nat
    with (length (RouteBuilder.removeAt i
                    (ActiveRide.passengers activeRide)) =? 0)%nat.
  - destruct (length (RouteBuilder.removeAt i
                        (ActiveRide.passengers activeRide)) =? 0)%nat;
      exact Hsecond.
  - rewrite <- Hlen. reflexivity.
Qed.

End CancelFacts.

(** ** Bookings and cancellations on the equator *)

Module SaveFacts.
Import Db.

(** Saving a document read at a version that is no longer the stored one
    throws [VersionError]. *)
Lemma saveActiveRide_stale st doc stored :
  validActiveRide doc = true ->
  ActiveRide_findById st (Some (ActiveRide._id doc)) = Some stored ->
  ActiveRide.__v stored <> ActiveRide.__v doc ->
  saveActiveRide st doc = Throw VersionError.
Proof.
  intros Hvalid Hfind Hv. unfold saveActiveRide.
  rewrite Hvalid, Hfind. cbn [negb].
  replace (ActiveRide.__v stored =? ActiveRide.__v doc)%nat with false
    by (symmetry; apply Nat.eqb_neq; exact Hv).
  reflexivity.
Qed.

End SaveFacts.

Module TurnFacts.
Import Db RideController.

Section AnyEngine.

Variable findBestMatch : Store -> RideRequest.t -> option Match.

(** The three ways a turn of the retry loop can end. *)
Lemma retryLoop_committed n body rideRequest bestMatch env st env0 st0
      env1 st1 st' bookingResult :
  interfere env st = (env0, st0) ->
  tryBlock body rideRequest bestMatch env0 st0
  = (env1, st1, Ok (st', bookingResult)) ->
  retryLoop findBestMatch (S n) body rideRequest bestMatch env st
  = mkOutcome bookingResult st' [Committed].
Proof.
  intros Hi Ht. cbn [retryLoop]. rewrite Hi, Ht. reflexivity.
Qed.

Lemma retryLoop_retried n body rideRequest bestMatch env st env0 st0
      env1 st1 e updatedMatch :
  interfere env st = (env0, st0) ->
  tryBlock body rideRequest bestMatch env0 st0 = (env1, st1, Throw e) ->
  isVersionConflict e = true ->
  findBestMatch st1 rideRequest = Some updatedMatch ->
  retryLoop findBestMatch (S n) body rideRequest bestMatch env st
  = let o := retryLoop findBestMatch n body rideRequest
                       (refreshed bestMatch updatedMatch) env1 st1 in
    mkOutcome (response o) (store o) (VersionConflict :: attempts o).
Proof.
  intros Hi Ht He Hm. cbn [retryLoop]. rewrite Hi, Ht, He, Hm. reflexivity.
Qed.

Lemma retryLoop_failed n body rideRequest bestMatch env st env0 st0
      env1 st1 e :
  interfere env st = (env0, st0) ->
  tryBlock body rideRequest bestMatch env0 st0 = (env1, st1, Throw e) ->
  isVersionConflict e = false ->
  retryLoop findBestMatch (S n) body rideRequest bestMatch env st
  = mkOutcome (errorResponse e) st1 [Failed e].
Proof.
  intros Hi Ht He. cbn [retryLoop]. rewrite Hi, Ht, He. reflexivity.
Qed.

End AnyEngine.

End TurnFacts.

Module Bookings.
Import Db RideController Equator.
Import Geo GeoFacts RouteBuilder EngineFacts.

#[local] Arguments applyWrites : simpl never.
#[local] Arguments saveActiveRide : simpl never.
#[local] Arguments insertActiveRide : simpl never.
#[local] Arguments saveRideRequest : simpl never.
#[local] Arguments PricingService.calculateDynamicPrice : simpl never.
#[local] Arguments INR : simpl never.

(** The engine with the fallback, every cab being near. *)
Definition engine : Store -> RideRequest.t -> option Match :=
  Part000.findBestMatchAsync geoNearAll.

Definition cabA (capacity : Z) : Cab.t :=
  Cab.mk 1%nat "Driver 1" capacity (0, 0) "available".

(** The cab at the origin with its one passenger; the ride is at
    [version]. *)
Definition pooledStore (capacity : Z) (version : nat) : Store :=
  mkStore [cabA capacity] [ride [rider] version] [].

(** The booking whose request is [request]. *)
Definition body : Http.Body := Http.mkBody 101%nat (0, 0) (1 / 100, 0) 0 1%Z.

Lemma newRideRequest_body capacity version :
  newRideRequest (pooledStore capacity version) body = request.
Proof. reflexivity. Qed.

Lemma engine_pooledStore capacity version :
  (2 <= capacity)%Z ->
  engine (pooledStore capacity version) request = Some pooledMatch.
Proof.
  intros Hcap. unfold engine, Part000.findBestMatchAsync.
  apply (findBestMatch_pooledRow capacity version Hcap).
Qed.

(** The ride as another request saves it: read at [version], with a new
    price. *)
Definition repriced (version : nat) : ActiveRide.t :=
  ActiveRide.mk 10%nat 1%nat [rider] [(0, 0); (0, 0); (0, 0)]
                ActiveRide.active (5 + INR (S version)) version.

Lemma valid_repriced version : validActiveRide (repriced version) = true.
Proof.
  pose proof (pos_INR (S version)).
  unfold validActiveRide, validPassenger, validCoordinates. simpl.
  js_cmp. reflexivity.
Qed.

Lemma bump capacity version :
  applyWrites [WSave (repriced version)] (pooledStore capacity version)
  = pooledStore capacity (S version).
Proof.
  unfold applyWrites, applyWrite, saveActiveRide. cbn [fold_left].
  rewrite valid_repriced. simpl.
  rewrite Nat.eqb_refl. simpl. reflexivity.
Qed.

Lemma valid_updated price version :
  0 <= price ->
  validActiveRide
    (ActiveRide.mk 10%nat 1%nat [rider; passengerOf body] pooledRoute
                   ActiveRide.active price version) = true.
Proof.
  intros Hprice.
  unfold validActiveRide, validPassenger, validCoordinates. simpl.
  js_cmp. reflexivity.
Qed.

(** A turn of the loop during which another request saves the ride. *)
Lemma tryBlock_conflict version rest :
  tryBlock body request pooledMatch
           ([WSave (repriced version)] :: rest) (pooledStore 4 version)
  = (rest, pooledStore 4 (S version), Throw VersionError).
Proof.
  unfold tryBlock, tryPooling. simpl.
  rewrite bump.
  rewrite (SaveFacts.saveActiveRide_stale _ _ (ride [rider] (S version))).
  - reflexivity.
  - apply valid_updated. apply PriceFacts.price_nonneg.
  - reflexivity.
  - simpl. lia.
Qed.

Lemma retryLoop_conflict n version rest :
  retryLoop engine (S n) body request pooledMatch
            ([] :: [WSave (repriced version)] :: rest)
            (pooledStore 4 version)
  = let o := retryLoop engine n body request pooledMatch rest
                       (pooledStore 4 (S version)) in
    mkOutcome (response o) (store o) (VersionConflict :: attempts o).
Proof.
  rewrite (TurnFacts.retryLoop_retried engine n body request pooledMatch
             ([] :: [WSave (repriced version)] :: rest)
             (pooledStore 4 version)
             ([WSave (repriced version)] :: rest) (pooledStore 4 version)
             rest (pooledStore 4 (S version)) VersionError pooledMatch).
  - reflexivity.
  - reflexivity.
  - apply tryBlock_conflict.
  - reflexivity.
  - apply engine_pooledStore. lia.
Qed.

(** Three turns, each overtaken by another request that saves the ride
    with a new price. *)
Definition contended : Env :=
  [ []; [WSave (repriced 0)];
    []; [WSave (repriced 1)];
    []; [WSave (repriced 2)] ].

Lemma bookRide_contended :
  attempts (bookRide engine contended (pooledStore 4 0) body)
  = [VersionConflict; VersionConflict; VersionConflict].
Proof.
  unfold bookRide. rewrite newRideRequest_body.
  replace (validRideRequest request) with true.
  - cbn [negb]. rewrite engine_pooledStore by lia.
    unfold maxRetries, contended.
    rewrite !retryLoop_conflict. reflexivity.
  - unfold validRideRequest, validCoordinates. simpl. js_cmp. reflexivity.
Qed.

Lemma bookRide_bounded_retries_witness :
  Http.statusCode
    (response (bookRide engine contended (pooledStore 4 0) body)) = 409%nat
  /\ Http.success
       (response (bookRide engine contended (pooledStore 4 0) body)) = false.
Proof.
  apply (RetryFacts.bookRide_bounded_retries engine contended
           (pooledStore 4 0) body).
  exact bookRide_contended.
Defined.


(** Two bookings and a cancellation, from the cab without ride. *)
Definition afterThree : Store :=
  let st1 := store (bookRide engine [] (mkStore [cabA 4] [] []) body) in
  let st2 := store (bookRide engine [] st1 body) in
  store (cancelRide [] st2 1%nat 101%nat).

Lemma one_active_ride_per_cab_witness :
  (StoreFacts.activeFor 1 (activeRides afterThree) <= 1)%nat.
Proof.
  apply (HandlerFacts.one_active_ride_per_cab afterThree).
  unfold afterThree.
  apply HandlerFacts.reach_cancelRide.
  apply HandlerFacts.reach_bookRide.
  apply HandlerFacts.reach_bookRide.
  apply HandlerFacts.reach_init.
Defined.

(** *** Cancelling the only passenger twice *)

Definition emptiedStore : Store :=
  mkStore [cabA 4]
          [ActiveRide.mk 10%nat 1%nat [] [(0, 0); (0, 0); (0, 0)]
                         ActiveRide.cancelled (5 + INR 0) 1]
          [].

Lemma cancelRide_rider :
  cancelRide [] (pooledStore 4 0) 10%nat 100%nat
  = mkOutcome
      (Http.mkResponse 200 true
         "Ride cancelled successfully (no passengers remaining)" None)
      emptiedStore [].
Proof.
  pose proof (pos_INR 0).
  unfold cancelRide. simpl.
  unfold saveActiveRide, validActiveRide, validCoordinates. simpl.
  js_cmp. reflexivity.
Qed.

(** C9 (counterexample).  The first cancellation of the only passenger
    succeeds and cancels the trip; the second cancellation of the same
    requester, who has no sub-record left, answers 400, not 404. *)
Lemma second_cancellation_of_last_passenger :
  let first := cancelRide [] (pooledStore 4 0) 10%nat 100%nat in
  let second := cancelRide [] (store first) 10%nat 100%nat in
  Http.success (response first) = true
  /\ (exists trip,
         ActiveRide_findById (store first) (Some 10%nat) = Some trip
         /\ ActiveRide.passengers trip = [])
  /\ Http.statusCode (response second) = 400%nat
  /\ Http.statusCode (response second) <> 404%nat.
Proof.
  cbv zeta. rewrite cancelRide_rider. cbn [response store].
  split; [reflexivity|]. split.
  - eexists. split; reflexivity.
  - split; [reflexivity | discriminate].
Qed.

Lemma cancelRide_absent_passenger_witness :
  (let o := cancelRide [] (pooledStore 4 0) 10%nat 999%nat in
   store o = pooledStore 4 0
   /\ Http.success (response o) = false
   /\ Http.statusCode (response o) = 404%nat)
  /\ (let first := cancelRide [] (pooledStore 4 0) 10%nat 100%nat in
      let second := cancelRide [] (store first) 10%nat 100%nat in
      store second = store first
      /\ Http.success (response second) = false
      /\ Http.statusCode (response second) = 400%nat).
Proof.
  destruct (CancelFacts.cancelRide_absent_passenger
              [] (pooledStore 4 0) 10%nat 999%nat (ride [rider] 0) eq_refl)
    as [Habsent _].
  destruct (CancelFacts.cancelRide_absent_passenger
              [] (pooledStore 4 0) 10%nat 100%nat (ride [rider] 0) eq_refl)
    as [_ Hsecond].
  split.
  - apply Habsent. intros p [<-|[]]. simpl. lia.
  - apply Hsecond.
    + reflexivity.
    + rewrite cancelRide_rider. reflexivity.
Defined.

(** *** A fallback match committed *)

Definition idleCab : Cab.t :=
  Cab.mk 2%nat "Driver 2" 4%Z (0, 0) "available".

Definition idleStore : Store := mkStore [idleCab] [] [].

(** The booking whose request is [heavyRequest]: five pieces of luggage. *)
Definition heavyBody : Http.Body :=
  Http.mkBody 101%nat (0, 0) (1 / 100, 0) 0 5%Z.

Lemma engine_idleStore : engine idleStore heavyRequest = Some idleMatch.
Proof. exact findBestMatch_heavy. Qed.

Lemma valid_heavy_ride price :
  0 <= price ->
  validActiveRide
    (ActiveRide.mk 1%nat 2%nat [passengerOf heavyBody] idleRoute
                   ActiveRide.active price 0) = true.
Proof.
  intros Hprice.
  unfold validActiveRide, validPassenger, validCoordinates. simpl.
  js_cmp. reflexivity.
Qed.

Lemma valid_matched_heavy price :
  0 <= price ->
  validRideRequest (matchedRequest heavyRequest price) = true.
Proof.
  intros Hprice.
  unfold validRideRequest, validCoordinates. simpl.
  js_cmp. reflexivity.
Qed.

Definition heavyPrice : R :=
  PricingService.price
    (PricingService.calculateDynamicPrice idleStore (0, 0) (1 / 100, 0) 1).

Definition heavyRide : ActiveRide.t :=
  ActiveRide.mk 1%nat 2%nat [passengerOf heavyBody] idleRoute
                ActiveRide.active heavyPrice 0.

Lemma bookRide_heavy :
  bookRide engine [] idleStore heavyBody
  = mkOutcome
      (Http.mkResponse 200 true "New ride created successfully"
         (Some (Http.mkData 1%nat 2%nat idleRoute 1 heavyPrice)))
      (mkStore [idleCab] [heavyRide] [matchedRequest heavyRequest heavyPrice])
      [Committed].
Proof.
  unfold bookRide.
  change (newRideRequest idleStore heavyBody) with heavyRequest.
  replace (validRideRequest heavyRequest) with true
    by (unfold validRideRequest, validCoordinates; simpl; js_cmp;
        reflexivity).
  cbn [negb]. rewrite engine_idleStore.
  apply (TurnFacts.retryLoop_committed engine 2 heavyBody heavyRequest
           idleMatch [] idleStore [] idleStore [] idleStore).
  - reflexivity.
  - unfold tryBlock, tryNewRide. simpl.
    fold heavyPrice.
    unfold insertActiveRide, newActiveRide. simpl.
    rewrite valid_heavy_ride by apply PriceFacts.price_nonneg.
    simpl.
    unfold saveRideRequest.
    rewrite valid_matched_heavy by apply PriceFacts.price_nonneg.
    reflexivity.
Qed.

(** C2 (counterexample).  The idle cab has capacity 4 and the request five
    pieces of luggage.  The scoring loop skips the cab, the fallback returns
    it, and [bookRide] commits the ride: its luggage exceeds the capacity of
    its cab. *)
Lemma fallback_commit_exceeds_capacity :
  let o := bookRide engine [] idleStore heavyBody in
  Part000.scoringLoop heavyRequest
    (aggregate geoNearAll idleStore (0, 0)) None None = None
  /\ Http.success (response o) = true
  /\ exists trip cab,
       In trip (activeRides (store o))
       /\ ActiveRide.isActive trip = true
       /\ Cab_findById (store o) (ActiveRide.cabId trip) = Some cab
       /\ (Cab.capacity cab
           < Part000.currentLuggage (ActiveRide.passengers trip))%Z.
Proof.
  cbv zeta. rewrite bookRide_heavy. cbn [response store].
  split; [reflexivity|]. split; [reflexivity|].
  exists heavyRide, idleCab.
  split; [left; reflexivity|].
  split; [reflexivity|]. split; [reflexivity|].
  unfold Part000.currentLuggage. simpl. lia.
Qed.


(** *** A retry after the pool has filled up *)

(** A second cab a quarter of a degree east, and the passenger whose
    booking overtakes ours and fills the first cab, of capacity 2:
    [joined] is the ride as that booking saves it. *)
Definition farCab : Cab.t :=
  Cab.mk 2%nat "Driver 2" 4%Z (1 / 4, 0) "available".

Definition latecomer : Passenger.t :=
  Passenger.mk 300%nat (0, 0) (0, 0) 1%Z None.

Definition twoCabs (passengers : list Passenger.t) (version : nat) : Store :=
  mkStore [cabA 2; farCab] [ride passengers version] [].

Definition joined : ActiveRide.t :=
  ActiveRide.mk 10%nat 1%nat [rider; latecomer] [(0, 0); (0, 0); (0, 0)]
                ActiveRide.active (5 + INR 1) 0.

Definition overtaken : Env := [ []; [WSave joined] ].

Definition farRow : CabData.t := CabData.mk 2%nat 4%Z (1 / 4, 0) None.

Definition farRoute : list Coord := [(1 / 4, 0); (1 / 100, 0); (0, 0)].

Definition farMatch : Match :=
  {| type := new_ride;
     cabId := 2%nat;
     activeRideId := None;
     route := farRoute;
     deviationScore := 1 / 4 * km_per_degree;
     estimatedTime := calculateEstimatedTime farRoute |}.

Lemma evaluate_farRow : Part000.evaluate request farRow = Some farMatch.
Proof.
  km_bounds.
  unfold Part000.evaluate, Part000.checkLuggageConstraint. simpl.
  assert (Hroute : createOptimalRoute [] request (1 / 4, 0) = farRoute).
  { unfold createOptimalRoute, allPoints. simpl.
    equator. js_cmp. simpl. reflexivity. }
  rewrite Hroute.
  unfold farMatch. do 2 f_equal.
  unfold Part000.calculateDeviationScore, calculateRouteDistance. simpl.
  equator. lra.
Qed.

Lemma engine_twoCabs_before :
  engine (twoCabs [rider] 0) request = Some pooledMatch.
Proof.
  km_bounds.
  unfold engine, Part000.findBestMatchAsync, Part000.findBestMatch.
  change (aggregate geoNearAll (twoCabs [rider] 0)
                    (RideRequest.pickupLocation request))
    with [pooledRow 2 0; farRow].
  cbn [Part000.scoringLoop].
  rewrite (evaluate_pooledRow 2 0) by lia.
  cbn [Js.lt_inf]. rewrite evaluate_farRow.
  simpl. js_cmp. reflexivity.
Qed.

Lemma engine_twoCabs_after :
  engine (twoCabs [rider; latecomer] 1) request = Some farMatch.
Proof.
  unfold engine, Part000.findBestMatchAsync, Part000.findBestMatch.
  change (aggregate geoNearAll (twoCabs [rider; latecomer] 1)
                    (RideRequest.pickupLocation request))
    with [CabData.mk 1%nat 2%Z (0, 0) (Some (ride [rider; latecomer] 1));
          farRow].
  cbn [Part000.scoringLoop].
  change (Part000.evaluate request
            (CabData.mk 1%nat 2%Z (0, 0) (Some (ride [rider; latecomer] 1))))
    with (@None Match).
  rewrite evaluate_farRow. reflexivity.
Qed.

Lemma overtake :
  applyWrites [WSave joined] (twoCabs [rider] 0)
  = twoCabs [rider; latecomer] 1.
Proof.
  pose proof (pos_INR 1).
  unfold applyWrites, applyWrite, saveActiveRide. cbn [fold_left].
  replace (validActiveRide joined) with true
    by (unfold validActiveRide, validPassenger, validCoordinates; simpl;
        js_cmp; reflexivity).
  reflexivity.
Qed.

Definition notFound : Exception :=
  Error "Active ride not found or no longer active".

Lemma bookRide_overtaken :
  bookRide engine overtaken (twoCabs [rider] 0) body
  = mkOutcome (errorResponse notFound) (twoCabs [rider; latecomer] 1)
              [VersionConflict; Failed notFound].
Proof.
  unfold bookRide.
  change (newRideRequest (twoCabs [rider] 0) body) with request.
  replace (validRideRequest request) with true
    by (unfold validRideRequest, validCoordinates; simpl; js_cmp;
        reflexivity).
  cbn [negb]. rewrite engine_twoCabs_before.
  unfold maxRetries, overtaken.
  rewrite (TurnFacts.retryLoop_retried engine 2 body request pooledMatch
             _ _ [[WSave joined]] (twoCabs [rider] 0)
             [] (twoCabs [rider; latecomer] 1) VersionError farMatch).
  - rewrite (TurnFacts.retryLoop_failed engine 1 body request
               (refreshed pooledMatch farMatch) [] _
               [] (twoCabs [rider; latecomer] 1)
               [] (twoCabs [rider; latecomer] 1) notFound);
      reflexivity.
  - reflexivity.
  - unfold tryBlock, tryPooling. simpl.
    rewrite overtake.
    rewrite (SaveFacts.saveActiveRide_stale _ _ (ride [rider; latecomer] 1)).
    + reflexivity.
    + apply valid_updated. apply PriceFacts.price_nonneg.
    + reflexivity.
    + simpl. lia.
  - reflexivity.
  - exact engine_twoCabs_after.
Qed.

(** C3.  Our pooling commit is overtaken by the booking that fills the
    cab.  The engine, run again, answers with a new ride on the second cab;
    the retry keeps the type ['pooling'] and the cab of the first match and
    takes only the ride id, now [null], the route and the time from the new
    one.  The second attempt looks up the ride [null] and the booking ends
    with status 500. *)
Theorem retry_keeps_stale_match_type :
  let o := bookRide engine overtaken (twoCabs [rider] 0) body in
  engine (twoCabs [rider] 0) request = Some pooledMatch
  /\ attempts o = [VersionConflict; Failed notFound]
  /\ engine (store o) request = Some farMatch
  /\ type farMatch = new_ride /\ cabId farMatch = 2%nat
  /\ type (refreshed pooledMatch farMatch) = pooling
  /\ cabId (refreshed pooledMatch farMatch) = 1%nat
  /\ activeRideId (refreshed pooledMatch farMatch) = None
  /\ Http.statusCode (response o) = 500%nat
  /\ activeRides (store o) = [ride [rider; latecomer] 1].
Proof.
  cbv zeta. rewrite bookRide_overtaken. cbn [response store attempts].
  split; [exact engine_twoCabs_before|].
  split; [reflexivity|].
  split; [exact engine_twoCabs_after|].
  repeat split.
Qed.

End Bookings.

(** ** Luggage and capacity *)

Module LuggageFacts.
Import Db RideController StoreFacts EngineFacts.

(** Every active trip carries no more luggage than its cab has capacity. *)
Definition luggageOk (st : Store) : Prop :=
  forall trip cab,
    In trip (activeRides st) ->
    ActiveRide.isActive trip = true ->
    In cab (cabs st) ->
    Cab._id cab = ActiveRide.cabId trip ->
    (Part000.currentLuggage (ActiveRide.passengers trip)
     <= Cab.capacity cab)%Z.

Definition distinctCabs (st : Store) : Prop :=
  NoDup (map Cab._id (cabs st)).

Lemma currentLuggage_app passengers p :
  Part000.currentLuggage (passengers ++ [p])
  = (Part000.currentLuggage passengers + Passenger.luggageCount p)%Z.
Proof.
  unfold Part000.currentLuggage. rewrite fold_left_app. reflexivity.
Qed.

(** Under distinct ids a stored document is the one found by its id. *)
Lemma find_ride_NoDup rides r :
  NoDup (map ActiveRide._id rides) ->
  In r rides ->
  find (fun x => (ActiveRide._id x =? ActiveRide._id r)%nat) rides = Some r.
Proof.
  induction rides as [|x rest IH]; intros Hnd Hin; [destruct Hin|].
  inversion Hnd as [|? ? Hnotin Hnd']; subst. simpl.
  destruct Hin as [->|Hin].
  - rewrite Nat.eqb_refl. reflexivity.
  - destruct (ActiveRide._id x =? ActiveRide._id r)%nat eqn:Heq.
    + exfalso. apply Hnotin. apply Nat.eqb_eq in Heq. rewrite Heq.
      apply in_map. exact Hin.
    + apply IH; assumption.
Qed.

Lemma cab_unique cabs c1 c2 :
  NoDup (map Cab._id cabs) ->
  In c1 cabs -> In c2 cabs -> Cab._id c1 = Cab._id c2 -> c1 = c2.
Proof.
  induction cabs as [|x rest IH]; intros Hnd H1 H2 Heq; [destruct H1|].
  inversion Hnd as [|? ? Hnotin Hnd']; subst.
  destruct H1 as [->|H1], H2 as [->|H2].
  - reflexivity.
  - exfalso. apply Hnotin. rewrite Heq. apply in_map. exact H2.
  - exfalso. apply Hnotin. rewrite <- Heq. apply in_map. exact H1.
  - apply IH; assumption.
Qed.

Lemma Cab_findById_In st id cab :
  Cab_findById st id = Some cab -> In cab (cabs st) /\ Cab._id cab = id.
Proof.
  unfold Cab_findById. intros H. apply find_some in H.
  destruct H as [Hin Heq]. split; [exact Hin|].
  apply Nat.eqb_eq. exact Heq.
Qed.

Lemma saveActiveRide_Ok st doc st' :
  saveActiveRide st doc = Ok st' ->
  cabs st' = cabs st
  /\ activeRides st'
     = replaceRide (withVersion doc (S (ActiveRide.__v doc)))
                   (activeRides st).
Proof.
  unfold saveActiveRide.
  destruct (negb (validActiveRide doc)); [discriminate|].
  destruct (ActiveRide_findById st _) as [stored|]; [|discriminate].
  destruct (negb _); [discriminate|].
  destruct (violatesUniqueCab _ _); [discriminate|].
  intros H. injection H as <-. split; reflexivity.
Qed.

Lemma insertActiveRide_Ok st doc st' :
  insertActiveRide st doc = Ok st' ->
  cabs st' = cabs st
  /\ activeRides st' = activeRides st ++ [withVersion doc 0].
Proof.
  unfold insertActiveRide.
  destruct (negb (validActiveRide doc)); [discriminate|].
  destruct (hasId _ _); [discriminate|].
  destruct (violatesUniqueCab _ _); [discriminate|].
  intros H. injection H as <-. split; reflexivity.
Qed.

(** Without a write of another request between the read and the save, the
    save does not fail on the version. *)
Lemma saveActiveRide_Throw st doc stored e :
  ActiveRide_findById st (Some (ActiveRide._id doc)) = Some stored ->
  ActiveRide.__v stored = ActiveRide.__v doc ->
  saveActiveRide st doc = Throw e ->
  isVersionConflict e = false.
Proof.
  intros Hfind Hv. unfold saveActiveRide. rewrite Hfind, Hv, Nat.eqb_refl.
  destruct (negb (validActiveRide doc)).
  - intros H. injection H as <-. reflexivity.
  - cbn [negb]. destruct (violatesUniqueCab _ _); [|discriminate].
    intros H. injection H as <-. reflexivity.
Qed.

Lemma insertActiveRide_Throw st doc e :
  insertActiveRide st doc = Throw e -> isVersionConflict e = false.
Proof.
  unfold insertActiveRide.
  destruct (negb (validActiveRide doc));
    [intros H; injection H as <-; reflexivity|].
  destruct (hasId _ _); [intros H; injection H as <-; reflexivity|].
  destruct (violatesUniqueCab _ _); [|discriminate].
  intros H. injection H as <-. reflexivity.
Qed.

Lemma saveRideRequest_Throw st doc e :
  saveRideRequest st doc = Throw e -> isVersionConflict e = false.
Proof.
  unfold saveRideRequest.
  destruct (negb (validRideRequest doc)); [|discriminate].
  intros H. injection H as <-. reflexivity.
Qed.

(** Pooling onto a trip whose luggage leaves room for the request's keeps
    every trip within the capacity of its cab. *)
Lemma tryPooling_luggage st body rideRequest bestMatch trip cab env1 st1 res :
  distinctIds st -> distinctCabs st -> luggageOk st ->
  In trip (activeRides st) ->
  activeRideId bestMatch = Some (ActiveRide._id trip) ->
  In cab (cabs st) ->
  Cab._id cab = ActiveRide.cabId trip ->
  (Part000.currentLuggage (ActiveRide.passengers trip)
   + Http.luggageCount body <= Cab.capacity cab)%Z ->
  tryPooling body rideRequest bestMatch [] st = (env1, st1, res) ->
  st1 = st
  /\ match res with
     | Ok (st3, _) => luggageOk st3
     | Throw e => isVersionConflict e = false
     end.
Proof.
  intros Hids Hcabs Hok Htrip Hid Hcab Hcabid Hroom.
  unfold tryPooling. rewrite Hid. unfold ActiveRide_findById at 1.
  rewrite (find_ride_NoDup _ _ Hids Htrip).
  destruct (negb (ActiveRide.isActive trip));
    [intros H; injection H as <- <- <-; split; reflexivity|].
  destruct (Cab_findById st (ActiveRide.cabId trip)) as [found|];
    [|intros H; injection H as <- <- <-; split; reflexivity].
  destruct (Cab.capacity found <=? _)%Z;
    [intros H; injection H as <- <- <-; split; reflexivity|].
  cbn [negb PricingService.success PricingService.calculateDynamicPrice
       interfere].
  match goal with
  | |- context [saveActiveRide st ?doc] =>
      set (updated := doc);
      destruct (saveActiveRide st updated) as [st2|e] eqn:Hsave
  end.
  - destruct (saveRideRequest st2 _) as [st3|e] eqn:Hreq;
      intros H; injection H as <- <- <-; (split; [reflexivity|]).
    + apply saveRideRequest_activeRides in Hreq. destruct Hreq as [Hr3 Hc3].
      apply saveActiveRide_Ok in Hsave. destruct Hsave as [Hc2 Hr2].
      intros t c Ht Hact Hc Hcid.
      rewrite Hr3, Hr2 in Ht. rewrite Hc3, Hc2 in Hc.
      unfold replaceRide in Ht. apply in_map_iff in Ht.
      destruct Ht as (x & Hx & Hin).
      destruct (ActiveRide._id x =? _)%nat.
      * subst t. simpl in *.
        rewrite (cab_unique _ c cab Hcabs Hc Hcab) by congruence.
        rewrite currentLuggage_app. exact Hroom.
      * subst t. exact (Hok x c Hin Hact Hc Hcid).
    + exact (saveRideRequest_Throw _ _ _ Hreq).
  - intros H; injection H as <- <- <-. split; [reflexivity|].
    apply (saveActiveRide_Throw st updated trip e).
    + unfold ActiveRide_findById, updated. simpl.
      apply (find_ride_NoDup _ _ Hids Htrip).
    + reflexivity.
    + exact Hsave.
Qed.

(** Creating the trip of a request whose luggage fits the cab keeps every
    trip within the capacity of its cab. *)
Lemma tryNewRide_luggage st body rideRequest bestMatch cab env1 st1 res :
  distinctCabs st -> luggageOk st ->
  In cab (cabs st) ->
  Cab._id cab = cabId bestMatch ->
  (Http.luggageCount body <= Cab.capacity cab)%Z ->
  tryNewRide body rideRequest bestMatch [] st = (env1, st1, res) ->
  st1 = st
  /\ match res with
     | Ok (st3, _) => luggageOk st3
     | Throw e => isVersionConflict e = false
     end.
Proof.
  intros Hcabs Hok Hcab Hcabid Hroom.
  unfold tryNewRide.
  destruct (Cab_findById st (cabId bestMatch)) as [found|] eqn:Hfound;
    [|intros H; injection H as <- <- <-; split; reflexivity].
  apply Cab_findById_In in Hfound. destruct Hfound as [Hfin Hfid].
  cbn [negb PricingService.success PricingService.calculateDynamicPrice
       interfere].
  match goal with
  | |- context [insertActiveRide st ?doc] =>
      set (created := doc);
      destruct (insertActiveRide st created) as [st2|e] eqn:Hins
  end.
  - destruct (saveRideRequest st2 _) as [st3|e] eqn:Hreq;
      intros H; injection H as <- <- <-; (split; [reflexivity|]).
    + apply saveRideRequest_activeRides in Hreq. destruct Hreq as [Hr3 Hc3].
      apply insertActiveRide_Ok in Hins. destruct Hins as [Hc2 Hr2].
      intros t c Ht Hact Hc Hcid.
      rewrite Hr3, Hr2 in Ht. rewrite Hc3, Hc2 in Hc.
      apply in_app_or in Ht. destruct Ht as [Ht|[<-|[]]].
      * exact (Hok t c Ht Hact Hc Hcid).
      * simpl in *.
        rewrite (cab_unique _ c cab Hcabs Hc Hcab) by congruence.
        unfold Part000.currentLuggage. simpl. exact Hroom.
    + exact (saveRideRequest_Throw _ _ _ Hreq).
  - intros H; injection H as <- <- <-. split; [reflexivity|].
    exact (insertActiveRide_Throw _ _ _ Hins).
Qed.

Section Aggregation.

Variable geoNear : Coord -> list Cab.t -> list Cab.t.

(** The spatial index returns stored cabs. *)
Hypothesis geoNear_sound :
  forall near cabs c, In c (geoNear near cabs) -> In c cabs.

(** A row of the aggregation is a stored cab, alone or with one of its
    active rides. *)
Lemma aggregate_row st near row :
  In row (aggregate geoNear st near) ->
  exists cab,
    In cab (cabs st)
    /\ CabData._id row = Cab._id cab
    /\ CabData.capacity row = Cab.capacity cab
    /\ match CabData.activeRide row with
       | None => True
       | Some r => In r (activeRides st)
                   /\ ActiveRide.cabId r = Cab._id cab
       end.
Proof.
  unfold aggregate. intros H. apply in_flat_map in H.
  destruct H as (cab & Hcab & Hrow).
  exists cab. split; [eapply geoNear_sound; exact Hcab|].
  unfold rowsOf in Hrow.
  destruct (filter _ (activeRides st)) as [|r0 joined] eqn:Hf.
  - destruct Hrow as [<-|[]]. simpl. repeat split.
  - rewrite <- Hf in Hrow. apply in_map_iff in Hrow.
    destruct Hrow as (r & <- & Hr). simpl.
    apply filter_In in Hr. destruct Hr as [Hin Hr].
    apply andb_true_iff in Hr. destruct Hr as [Hr _].
    apply Nat.eqb_eq in Hr. repeat split; assumption.
Qed.

Lemma activeRideOf_Some row r :
  Part000.activeRideOf row = Some r -> CabData.activeRide row = Some r.
Proof.
  unfold Part000.activeRideOf.
  destruct (CabData.activeRide row) as [x|]; [|discriminate].
  destruct (ActiveRide.isActive x); [|discriminate].
  intros H. injection H as <-. reflexivity.
Qed.

(** C2 (amended).  When the match comes from the scoring loop of the
    engine, not from its fallback, and no other request writes between the
    matching and the commit, a booking leaves every active trip with no
    more luggage than the capacity of its cab, if that held before.  The
    fallback match and the claim of a cab when there is no match are
    committed without a luggage check. *)
Theorem scored_match_keeps_luggage :
  forall (st : Store) (body : Http.Body) (bestMatch : Match),
    distinctIds st -> distinctCabs st -> luggageOk st ->
    Part000.scoringLoop (newRideRequest st body)
      (aggregate geoNear st (Http.pickupLocation body)) None None
    = Some bestMatch ->
    luggageOk
      (store (bookRide (Part000.findBestMatchAsync geoNear) [] st body)).
Proof.
  intros st body bestMatch Hids Hcabs Hok Hscore.
  unfold bookRide.
  destruct (negb (validRideRequest (newRideRequest st body))); [exact Hok|].
  unfold Part000.findBestMatchAsync, Part000.findBestMatch.
  cbn [newRideRequest RideRequest.pickupLocation].
  change (RideRequest.mk (freshRequestId st) (Http.userId body)
            (Http.pickupLocation body) (Http.dropoffLocation body)
            (Http.detourTolerance body) (Http.luggageCount body)
            RideRequest.pending 0)
    with (newRideRequest st body).
  rewrite Hscore.
  apply scoringLoop_In in Hscore.
  destruct Hscore as [Hnone | (row & Hrow & Hev)]; [discriminate|].
  apply evaluate_Some in Hev. cbv zeta in Hev.
  destruct Hev as (_ & Hroom & _ & Htype & Hcabid & Hrideid & _).
  destruct (aggregate_row st _ row Hrow)
    as (cab & Hcab & Hrowid & Hrowcap & Hjoin).
  unfold maxRetries. cbn [retryLoop interfere].
  destruct (tryBlock body (newRideRequest st body) bestMatch [] st)
    as [[env1 st1] res] eqn:Hturn.
  assert (Hgoal : st1 = st
                  /\ match res with
                     | Ok (st3, _) => luggageOk st3
                     | Throw e => isVersionConflict e = false
                     end).
  { unfold tryBlock in Hturn.
    destruct (Part000.activeRideOf row) as [trip|] eqn:Hride.
    - rewrite Htype in Hturn.
      apply activeRideOf_Some in Hride. rewrite Hride in Hjoin.
      destruct Hjoin as [Htrip Htripcab].
      apply (tryPooling_luggage st body (newRideRequest st body) bestMatch
               trip cab env1 st1 res); try assumption.
      + congruence.
      + rewrite <- Hrowcap. exact Hroom.
    - rewrite Htype in Hturn.
      apply (tryNewRide_luggage st body (newRideRequest st body) bestMatch
               cab env1 st1 res); try assumption.
      + congruence.
      + rewrite <- Hrowcap.
        unfold Part000.passengersOf, Part000.currentLuggage in Hroom.
        simpl in Hroom. exact Hroom. }
  destruct Hgoal as [-> Hres].
  destruct res as [[st3 resp]|e].
  - exact Hres.
  - rewrite Hres. exact Hok.
Qed.

End Aggregation.

Lemma scored_match_keeps_luggage_witness :
  luggageOk
    (store (bookRide (Part000.findBestMatchAsync Equator.geoNearAll) []
                     (Bookings.pooledStore 4 0) Bookings.body)).
Proof.
  apply (scored_match_keeps_luggage Equator.geoNearAll
           (fun _ _ _ H => H) (Bookings.pooledStore 4 0) Bookings.body
           Equator.pooledMatch).
  - unfold distinctIds. simpl. repeat constructor. intros [].
  - unfold distinctCabs. simpl. repeat constructor. intros [].
  - intros trip cab [<-|[]] _ [<-|[]] _.
    unfold Part000.currentLuggage. simpl. lia.
  - change (aggregate Equator.geoNearAll (Bookings.pooledStore 4 0)
                      (Http.pickupLocation Bookings.body))
      with [Equator.pooledRow 4 0].
    cbn [Part000.scoringLoop].
    rewrite Bookings.newRideRequest_body.
    rewrite (Equator.evaluate_pooledRow 4 0) by lia.
    reflexivity.
Defined.

End LuggageFacts.

(** * Further properties of the engines, the pricing and the handlers *)

(** ** More rides on the equator *)

Module Scenarios.
Import Db RideController Equator Bookings.

#[local] Arguments applyWrites : simpl never.
#[local] Arguments saveActiveRide : simpl never.
#[local] Arguments insertActiveRide : simpl never.
#[local] Arguments saveRideRequest : simpl never.
#[local] Arguments PricingService.calculateDynamicPrice : simpl never.
#[local] Arguments INR : simpl never.

Lemma valid_ride passengers version :
  forallb validPassenger passengers = true ->
  validActiveRide (ride passengers version) = true.
Proof.
  intros Hp. pose proof (pos_INR version).
  unfold validActiveRide, validCoordinates. simpl. rewrite Hp.
  js_cmp. reflexivity.
Qed.

Lemma valid_rider : forallb validPassenger [rider] = true.
Proof.
  unfold validPassenger, validCoordinates. simpl. js_cmp. reflexivity.
Qed.

(** The first ride of the cab at the origin is inserted. *)
Lemma insert_first :
  insertActiveRide (mkStore [cabA 4] [] []) (ride [rider] 0)
  = Ok (pooledStore 4 0).
Proof.
  unfold insertActiveRide.
  rewrite (valid_ride [rider] 0 valid_rider). reflexivity.
Qed.

(** Another request saves the ride with a new price. *)
Lemma save_repriced :
  saveActiveRide (pooledStore 4 0) (repriced 0) = Ok (pooledStore 4 1).
Proof.
  unfold saveActiveRide. rewrite valid_repriced. reflexivity.
Qed.

(** *** A pooled booking without contention *)

Definition pooledPrice : R :=
  PricingService.price
    (PricingService.calculateDynamicPrice (pooledStore 4 0) (0, 0)
       (1 / 100, 0) (INR 2)).

Definition pooledRide : ActiveRide.t :=
  ActiveRide.mk 10%nat 1%nat [rider; passengerOf body] pooledRoute
                ActiveRide.active pooledPrice 1.

Lemma valid_matched price :
  0 <= price -> validRideRequest (matchedRequest request price) = true.
Proof.
  intros Hprice.
  unfold validRideRequest, validCoordinates. simpl.
  js_cmp. reflexivity.
Qed.

Lemma bookRide_pooled :
  bookRide engine [] (pooledStore 4 0) body
  = mkOutcome
      (Http.mkResponse 200 true "Ride pooled successfully"
         (Some (Http.mkData 10%nat 1%nat pooledRoute 2 pooledPrice)))
      (mkStore [cabA 4] [pooledRide] [matchedRequest request pooledPrice])
      [Committed].
Proof.
  unfold bookRide. rewrite newRideRequest_body.
  replace (validRideRequest request) with true
    by (unfold validRideRequest, validCoordinates; simpl; js_cmp;
        reflexivity).
  cbn [negb]. rewrite engine_pooledStore by lia.
  apply (TurnFacts.retryLoop_committed engine 2 body request pooledMatch
           [] (pooledStore 4 0) [] (pooledStore 4 0) [] (pooledStore 4 0)).
  - reflexivity.
  - unfold tryBlock, tryPooling. simpl.
    fold pooledPrice.
    unfold saveActiveRide.
    rewrite valid_updated by apply PriceFacts.price_nonneg.
    simpl.
    unfold saveRideRequest.
    rewrite valid_matched by apply PriceFacts.price_nonneg.
    reflexivity.
Qed.

(** *** A cancellation overtaken by another request *)

Definition overtakenCancel : Env := [[WSave (repriced 0)]].

Lemma cancelRide_overtaken :
  response (cancelRide overtakenCancel (pooledStore 4 0) 10%nat 100%nat)
  = Http.mkResponse 409 false
      "Ride was modified by another request. Please refresh and try again."
      None.
Proof.
  unfold cancelRide, overtakenCancel. simpl.
  rewrite bump.
  rewrite (SaveFacts.saveActiveRide_stale _ _ (ride [rider] 1)).
  - reflexivity.
  - pose proof (pos_INR 0).
    unfold validActiveRide, validCoordinates. simpl. js_cmp. reflexivity.
  - reflexivity.
  - simpl. lia.
Qed.

(** *** The short controller joins the pool *)

Definition always (m : Match) : Store -> RideRequest.t -> option Match :=
  fun _ _ => Some m.

Lemma short_bookRide_pooled :
  Http.statusCode
    (fst (Part003.bookRide (always pooledMatch) [] (pooledStore 4 0) body))
  = 200%nat.
Proof.
  unfold Part003.bookRide, always, Part003.joinPool. simpl.
  unfold saveActiveRide.
  replace (validActiveRide _) with true; [reflexivity|].
  symmetry. pose proof (pos_INR 0).
  unfold validActiveRide, validPassenger, validCoordinates. simpl.
  js_cmp. reflexivity.
Qed.

(** *** The engine of [services/matchingEngine.js] on the idle cab *)

Definition servicesIdleMatch : Match :=
  {| type := new_ride;
     cabId := 2%nat;
     activeRideId := None;
     route := idleRoute;
     deviationScore :=
       ServicesMatchingEngine.calculateDeviationScore [] request idleRoute;
     estimatedTime := ServicesFindBestMatch.calculateEstimatedTime idleRoute |}.

Lemma services_findBestMatch_idle :
  ServicesFindBestMatch.findBestMatch request [idleRow]
  = Some servicesIdleMatch.
Proof.
  unfold servicesIdleMatch.
  rewrite <- (idleRoute_built request) by reflexivity.
  reflexivity.
Qed.

End Scenarios.

(** ** Laws of the distance and of the route length *)

Module DistanceLaws.
Import Geo.

Lemma haversine_a_sym p q : haversine_a p q = haversine_a q p.
Proof.
  destruct p as [lon1 lat1], q as [lon2 lat2]. unfold haversine_a.
  replace ((lat1 - lat2) * PI / 180 / 2)
    with (- ((lat2 - lat1) * PI / 180 / 2)) by lra.
  replace ((lon1 - lon2) * PI / 180 / 2)
    with (- ((lon2 - lon1) * PI / 180 / 2)) by lra.
  rewrite !sin_neg. ring.
Qed.

(** X1.  The distance from one position to another is the distance
    back. *)
Theorem calculateDistance_symmetric p q :
  calculateDistance p q = calculateDistance q p.
Proof.
  unfold calculateDistance. rewrite (haversine_a_sym p q). reflexivity.
Qed.



(** X3.  The distance from a position to itself is 0. *)
Theorem calculateDistance_same_point p : calculateDistance p p = 0.
Proof.
  destruct p as [x y]. unfold calculateDistance, haversine_a.
  replace ((y - y) * PI / 180 / 2) with 0 by lra.
  replace ((x - x) * PI / 180 / 2) with 0 by lra.
  rewrite sin_0.
  replace (0 * 0 + cos (y * PI / 180) * cos (y * PI / 180) * 0 * 0)
    with 0 by ring.
  rewrite Rminus_0_r, sqrt_0, sqrt_1.
  rewrite JsFacts.atan2_pos by lra.
  unfold Rdiv. rewrite Rmult_0_l, atan_0. unfold R_earth. lra.
Qed.

End DistanceLaws.

Module ArcFacts.
Import Geo GeoFacts.

(** When the haversine term is [sin h] squared for a half angle [h] below
    a right angle, the distance is the arc of angle [2 |h|]. *)
Lemma calculateDistance_half_angle p q h :
  haversine_a p q = Rsqr (sin h) -> Rabs h < PI / 2 ->
  calculateDistance p q = 2 * R_earth * Rabs h.
Proof.
  intros Ha Hh. unfold calculateDistance. rewrite Ha.
  assert (Hc : 0 < cos h).
  { apply cos_gt_0; apply Rabs_def2 in Hh; lra. }
  replace (1 - Rsqr (sin h)) with (Rsqr (cos h))
    by (pose proof (sin2_cos2 h); lra).
  cbv zeta.
  rewrite sqrt_Rsqr_abs, (sqrt_Rsqr (cos h)) by lra.
  rewrite JsFacts.atan2_pos by assumption.
  assert (Hat : atan (Rabs (sin h) / cos h) = Rabs h).
  { destruct (Rle_dec 0 h) as [Hpos | Hneg].
    - rewrite (Rabs_pos_eq h) in * by assumption.
      assert (0 <= sin h) by (apply sin_ge_0; pose proof PI_RGT_0; lra).
      rewrite Rabs_pos_eq by assumption.
      change (sin h / cos h) with (tan h).
      apply atan_tan. lra.
    - assert (Hlt : h < 0) by lra.
      rewrite (Rabs_left h) in * by assumption.
      assert (sin h < 0).
      { apply sin_lt_0_var; pose proof PI_RGT_0; lra. }
      rewrite Rabs_left by assumption.
      replace (- sin h / cos h) with (tan (- h)).
      + apply atan_tan. lra.
      + unfold tan. rewrite sin_neg, cos_neg. reflexivity. }
  rewrite Hat. lra.
Qed.

Lemma half_angle_bound d :
  Rabs d < 180 -> Rabs (d * PI / 180 / 2) < PI / 2.
Proof.
  intros Hd.
  replace (d * PI / 180 / 2) with (d * (PI / 360)) by lra.
  pose proof PI_RGT_0 as Hpi.
  rewrite Rabs_mult, (Rabs_pos_eq (PI / 360)) by lra.
  nra.
Qed.

Lemma half_angle_km d :
  2 * R_earth * Rabs (d * PI / 180 / 2) = Rabs d * km_per_degree.
Proof.
  replace (d * PI / 180 / 2) with (d * (PI / 360)) by lra.
  pose proof PI_RGT_0 as Hpi.
  rewrite Rabs_mult, (Rabs_pos_eq (PI / 360)) by lra.
  unfold km_per_degree, R_earth. lra.
Qed.

(** X4.  Along a meridian, and along the equator, two positions less
    than 180 degrees apart are as many degrees of arc apart as their
    coordinates differ: [km_per_degree], about 111.19 kilometers, for each
    degree. *)
Theorem calculateDistance_arc (x y d : R) :
  Rabs d < 180 ->
  calculateDistance (x, y) (x, y + d) = Rabs d * km_per_degree
  /\ calculateDistance (x, 0) (x + d, 0) = Rabs d * km_per_degree.
Proof.
  intros Hd. split.
  - rewrite (calculateDistance_half_angle _ _ (d * PI / 180 / 2)).
    + apply half_angle_km.
    + unfold haversine_a, Rsqr.
      replace ((y + d - y) * PI / 180 / 2) with (d * PI / 180 / 2) by lra.
      replace ((x - x) * PI / 180 / 2) with 0 by lra.
      rewrite sin_0. ring.
    + apply half_angle_bound, Hd.
  - rewrite (calculateDistance_half_angle _ _ (d * PI / 180 / 2)).
    + apply half_angle_km.
    + unfold haversine_a, Rsqr.
      replace ((x + d - x) * PI / 180 / 2) with (d * PI / 180 / 2) by lra.
      replace ((0 - 0) * PI / 180 / 2) with 0 by lra.
      replace (0 * PI / 180) with 0 by lra.
      rewrite sin_0, cos_0. ring.
    + apply half_angle_bound, Hd.
Qed.

Lemma calculateDistance_arc_witness :
  calculateDistance (77, 28) (77, 28 + 1) = Rabs 1 * km_per_degree
  /\ calculateDistance (77, 0) (77 + 1, 0) = Rabs 1 * km_per_degree.
Proof.
  apply (calculateDistance_arc 77 28 1).
  rewrite Rabs_pos_eq; lra.
Defined.

Lemma routeSum_app l1 p l2 :
  routeSum (l1 ++ p :: l2) = routeSum (l1 ++ [p]) + routeSum (p :: l2).
Proof.
  induction l1 as [|a l1 IH].
  - simpl. destruct l2; lra.
  - destruct l1 as [|b l1].
    + simpl. lra.
    + change (routeSum ((a :: b :: l1) ++ p :: l2))
        with (calculateDistance a b + routeSum ((b :: l1) ++ p :: l2)).
      change (routeSum ((a :: b :: l1) ++ [p]))
        with (calculateDistance a b + routeSum ((b :: l1) ++ [p])).
      rewrite IH. lra.
Qed.

(** X5.  The length of a route through a position is the length up to
    it plus the length from it on. *)
Theorem calculateRouteDistance_concat l1 p l2 :
  calculateRouteDistance (l1 ++ p :: l2)
  = calculateRouteDistance (l1 ++ [p]) + calculateRouteDistance (p :: l2).
Proof.
  rewrite !calculateRouteDistance_sum. apply routeSum_app.
Qed.

Lemma routeSum_rev route : routeSum (rev route) = routeSum route.
Proof.
  induction route as [|p route IH]; [reflexivity|].
  destruct route as [|q route]; [reflexivity|].
  change (rev (p :: q :: route)) with (rev (q :: route) ++ [p]).
  change (rev (q :: route)) with (rev route ++ [q]) at 1.
  rewrite <- app_assoc. change ([q] ++ [p]) with (q :: [p]).
  rewrite routeSum_app.
  change (rev route ++ [q]) with (rev (q :: route)).
  rewrite IH.
  change (routeSum (p :: q :: route))
    with (calculateDistance p q + routeSum (q :: route)).
  change (routeSum [q; p]) with (calculateDistance q p + 0).
  unfold calculateDistance. rewrite (DistanceLaws.haversine_a_sym q p). lra.
Qed.

End ArcFacts.

Module RouteLengthFacts.
Import Geo GeoFacts.

(** X6.  A route driven backwards has the same length. *)
Theorem calculateRouteDistance_reverse route :
  calculateRouteDistance (rev route) = calculateRouteDistance route.
Proof.
  rewrite !calculateRouteDistance_sum. apply ArcFacts.routeSum_rev.
Qed.

End RouteLengthFacts.

(** ** The route builder: every stop once, nearest first *)

Module GreedyFacts.
Import Geo RouteBuilder.











End GreedyFacts.

(** ** The engine with the fallback: when and what it matches *)

Module MatchFacts.
Import Geo RouteBuilder Part000 EngineFacts.

Lemma evaluate_full newRequest cabData :
  (fallbackSeats cabData <= 0)%Z -> evaluate newRequest cabData = None.
Proof.
  unfold fallbackSeats, evaluate. intros H.
  rewrite (proj2 (Z.leb_le _ _) H). reflexivity.
Qed.

Lemma fallbackLoop_None newRequest nearbyCabs :
  fallbackLoop newRequest nearbyCabs = None <->
  forall cabData, In cabData nearbyCabs -> (fallbackSeats cabData <= 0)%Z.
Proof.
  induction nearbyCabs as [|c rest IH]; simpl.
  - split; [intros _ c []| reflexivity].
  - destruct (0 <? fallbackSeats c)%Z eqn:Hc.
    + apply Z.ltb_lt in Hc. split; [discriminate|].
      intros H. specialize (H c (or_introl eq_refl)). lia.
    + apply Z.ltb_ge in Hc. rewrite IH. split.
      * intros H c' [<-|Hin]; [exact Hc | apply H, Hin].
      * intros H c' Hin. apply H. right. exact Hin.
Qed.

Lemma fallbackLoop_In newRequest nearbyCabs m :
  fallbackLoop newRequest nearbyCabs = Some m ->
  exists cabData, In cabData nearbyCabs /\ (0 < fallbackSeats cabData)%Z
                  /\ m = fallbackMatch newRequest cabData.
Proof.
  induction nearbyCabs as [|c rest IH]; simpl; [discriminate|].
  destruct (0 <? fallbackSeats c)%Z eqn:Hc.
  - intros H. injection H as <-. apply Z.ltb_lt in Hc.
    exists c. split; [left; reflexivity|]. split; [exact Hc | reflexivity].
  - intros H. apply IH in H. destruct H as (c' & Hin & Hfree & Hm).
    exists c'. split; [right; exact Hin|]. split; assumption.
Qed.

(** X9.  The engine with the fallback finds no match exactly when no
    row has a free seat: every cab carries as many passengers as its
    capacity or more (in particular when there is no row at all). *)
Theorem findBestMatch_None_iff_full newRequest nearbyCabs :
  findBestMatch newRequest nearbyCabs = None <->
  forall cabData, In cabData nearbyCabs ->
    (CabData.capacity cabData
     <= Z.of_nat (length (passengersOf (activeRideOf cabData))))%Z.
Proof.
  assert (Hseats : forall c,
            (CabData.capacity c
             <= Z.of_nat (length (passengersOf (activeRideOf c))))%Z
            <-> (fallbackSeats c <= 0)%Z).
  { intros c. unfold fallbackSeats. lia. }
  unfold findBestMatch. split.
  - intros H c Hin. apply Hseats.
    destruct (scoringLoop newRequest nearbyCabs None None); [discriminate|].
    destruct nearbyCabs as [|c0 rest]; [destruct Hin|].
    change (0 <? length (c0 :: rest))%nat with true in H. cbv iota in H.
    exact (proj1 (fallbackLoop_None _ _) H c Hin).
  - intros H.
    assert (Hfull : forall c, In c nearbyCabs -> (fallbackSeats c <= 0)%Z).
    { intros c Hin. apply Hseats, H, Hin. }
    rewrite (proj2 (scoringLoop_None newRequest nearbyCabs)).
    + rewrite (proj2 (fallbackLoop_None newRequest nearbyCabs) Hfull).
      destruct (0 <? length nearbyCabs)%nat; reflexivity.
    + intros c Hin. apply evaluate_full, Hfull, Hin.
Qed.

(** X10.  A match is for one of the rows: it names that row's cab,
    which has a free seat, and its route is the one built for that row.  A
    match of type ['pooling'] names the active ride of the row, whose
    luggage with the request's fits the capacity and whose passengers all
    pass the detour check; a match of type ['new_ride'] names no ride. *)
Theorem findBestMatch_sound newRequest nearbyCabs m :
  findBestMatch newRequest nearbyCabs = Some m ->
  exists row,
    In row nearbyCabs
    /\ cabId m = CabData._id row
    /\ (Z.of_nat (length (passengersOf (activeRideOf row)))
        < CabData.capacity row)%Z
    /\ route m
       = createOptimalRoute (passengersOf (activeRideOf row)) newRequest
                            (CabData.currentLocation row)
    /\ estimatedTime m = calculateEstimatedTime (route m)
    /\ match type m with
       | pooling =>
           exists trip,
             activeRideOf row = Some trip
             /\ activeRideId m = Some (ActiveRide._id trip)
             /\ (currentLuggage (ActiveRide.passengers trip)
                 + RideRequest.luggageCount newRequest
                 <= CabData.capacity row)%Z
             /\ validDetour newRequest row (route m) = true
       | new_ride => activeRideId m = None
       end.
Proof.
  unfold findBestMatch.
  destruct (scoringLoop newRequest nearbyCabs None None) as [b|] eqn:Hloop.
  - intros H. injection H as <-.
    apply scoringLoop_In in Hloop.
    destruct Hloop as [Hloop | (row & Hin & Hev)]; [discriminate|].
    exists row. split; [exact Hin|].
    pose proof Hev as Hb. unfold evaluate in Hb.
    destruct (_ <=? 0)%Z; [discriminate|].
    destruct (negb (checkLuggageConstraint _ _ _)); [discriminate|].
    destruct (negb (validDetour _ _ _)); [discriminate|].
    injection Hb as Hb.
    apply evaluate_Some in Hev. cbv zeta in Hev.
    destruct Hev as (Hseats & Hlug & Hdet & Hty & Hcab & Hid & Hroute & _).
    split; [exact Hcab|]. split; [exact Hseats|]. split; [exact Hroute|].
    split; [rewrite <- Hb; reflexivity|].
    rewrite Hty. destruct (activeRideOf row) as [trip|] eqn:Htrip.
    + exists trip. split; [reflexivity|]. split; [exact Hid|].
      split; [exact Hlug|]. rewrite Hroute. exact Hdet.
    + exact Hid.
  - destruct (0 <? length nearbyCabs)%nat; [|discriminate].
    intros H. apply fallbackLoop_In in H.
    destruct H as (row & Hin & Hfree & ->).
    exists row. split; [exact Hin|]. split; [reflexivity|].
    split; [unfold fallbackSeats in Hfree; lia|].
    split; [reflexivity|]. split; reflexivity.
Qed.

Lemma findBestMatch_sound_witness :
  exists row,
    In row [Equator.pooledRow 4 0]
    /\ cabId Equator.pooledMatch = CabData._id row
    /\ (Z.of_nat (length (passengersOf (activeRideOf row)))
        < CabData.capacity row)%Z
    /\ route Equator.pooledMatch
       = createOptimalRoute (passengersOf (activeRideOf row)) Equator.request
                            (CabData.currentLocation row)
    /\ estimatedTime Equator.pooledMatch
       = calculateEstimatedTime (route Equator.pooledMatch)
    /\ match type Equator.pooledMatch with
       | pooling =>
           exists trip,
             activeRideOf row = Some trip
             /\ activeRideId Equator.pooledMatch = Some (ActiveRide._id trip)
             /\ (currentLuggage (ActiveRide.passengers trip)
                 + RideRequest.luggageCount Equator.request
                 <= CabData.capacity row)%Z
             /\ validDetour Equator.request row (route Equator.pooledMatch)
                = true
       | new_ride => activeRideId Equator.pooledMatch = None
       end.
Proof.
  apply (findBestMatch_sound Equator.request [Equator.pooledRow 4 0]
           Equator.pooledMatch).
  apply Equator.findBestMatch_pooledRow. lia.
Defined.





End MatchFacts.

(** ** Rounding, quotes, estimates and surge *)

Module QuoteFacts.
Import Geo PricingService PricingEstimates RoundFacts.


Lemma calculatePoolDiscountFactor_bounds passengerCount :
  1 / 2 <= calculatePoolDiscountFactor passengerCount <= 1.
Proof.
  rewrite PricingFacts.calculatePoolDiscountFactor_spec.
  unfold PricingFacts.poolDiscountFactorSpec.
  destruct (Rle_dec passengerCount 1); [lra|].
  split; [apply Rmax_r|].
  apply Rmax_lub; lra.
Qed.



(** X13.  The pool discount factor does not go up with the number of
    passengers; it stays between one half and 1, and is one half from
    10/3 passengers on, that is from four. *)
Theorem calculatePoolDiscountFactor_monotone (n m : R) :
  n <= m ->
  1 / 2 <= calculatePoolDiscountFactor m
  /\ calculatePoolDiscountFactor m <= calculatePoolDiscountFactor n
  /\ calculatePoolDiscountFactor n <= 1
  /\ (10 / 3 <= m -> calculatePoolDiscountFactor m = 1 / 2).
Proof.
  intros Hnm.
  pose proof (calculatePoolDiscountFactor_bounds n) as Hn.
  pose proof (calculatePoolDiscountFactor_bounds m) as Hm.
  split; [lra|]. split; [|split; [lra|]].
  - rewrite !PricingFacts.calculatePoolDiscountFactor_spec in *.
    unfold PricingFacts.poolDiscountFactorSpec in *.
    destruct (Rle_dec n 1), (Rle_dec m 1); try lra.
    apply Rmax_lub; [|apply Rmax_r].
    eapply Rle_trans; [|apply Rmax_l]. lra.
  - intros H. rewrite PricingFacts.calculatePoolDiscountFactor_spec.
    unfold PricingFacts.poolDiscountFactorSpec.
    destruct (Rle_dec m 1); [lra|].
    rewrite Rmax_right; lra.
Qed.

Lemma calculatePoolDiscountFactor_monotone_witness :
  1 / 2 <= calculatePoolDiscountFactor 4
  /\ calculatePoolDiscountFactor 4 <= calculatePoolDiscountFactor 2
  /\ calculatePoolDiscountFactor 2 <= 1
  /\ (10 / 3 <= 4 -> calculatePoolDiscountFactor 4 = 1 / 2).
Proof.
  apply (calculatePoolDiscountFactor_monotone 2 4). lra.
Defined.


(** X15.  The surge multiplier is 1 when the ratio of available cabs
    to pending requests (one at least) is 3/10 or more, 3 when it is 1/10
    or less, and [4 - 10 * ratio] in between; surge is reported active
    exactly when the ratio is below 3/10, and the multiplier reported,
    rounded to cents, is between 1 and 3. *)
Theorem getMarketConditions_surge st :
  let mc := getMarketConditions st in
  let ratio := MarketConditions.supplyDemandRatio mc in
  1 <= MarketConditions.surgeMultiplier mc <= 3
  /\ MarketConditions.isSurgeActive mc = Js.ltb ratio (3 / 10)
  /\ (3 / 10 <= ratio -> calculateSurgeMultiplier st = 1)
  /\ (1 / 10 <= ratio < 3 / 10 ->
      calculateSurgeMultiplier st = 4 - 10 * ratio)
  /\ (ratio <= 1 / 10 -> calculateSurgeMultiplier st = 3).
Proof.
  cbv zeta. unfold getMarketConditions.
  cbn [MarketConditions.surgeMultiplier MarketConditions.isSurgeActive
       MarketConditions.supplyDemandRatio].
  pose proof (PricingFacts.surgeOf_bounds (totalCabs st) (activeCabs st)
                (pendingRequests st)) as Hs.
  unfold calculateSurgeMultiplier in *.
  split.
  { split.
    - apply Rle_trans with (round2 (IZR 100 / 100));
        [rewrite round2_cents; lra | apply round2_monotone; lra].
    - apply Rle_trans with (round2 (IZR 300 / 100));
        [apply round2_monotone; lra | rewrite round2_cents; lra]. }
  clear Hs.
  unfold surgeOf, SURGE_THRESHOLD, MAX_SURGE_MULTIPLIER,
    MIN_SURGE_MULTIPLIER.
  set (ratio := (INR (totalCabs st) - INR (activeCabs st))
                / Rmax (INR (pendingRequests st)) 1).
  destruct (Js.ltb ratio (3 / 10)) eqn:Hlt.
  - apply JsFacts.ltb_true in Hlt.
    split.
    { apply JsFacts.ltb_true. unfold Rmin.
      destruct (Rle_dec (1 + (3 / 10 - ratio) * 10) 3); lra. }
    split; [lra|]. split.
    + intros H. rewrite Rmin_left; lra.
    + intros H. rewrite Rmin_right; lra.
  - apply JsFacts.ltb_false in Hlt.
    split; [apply JsFacts.ltb_false; lra|].
    split; [reflexivity|]. split; intros; lra.
Qed.

End QuoteFacts.

(** ** Reads after writes, the unique index and the aggregation *)

Module CollectionFacts.
Import Db StoreFacts.

Lemma find_app_absent rides doc id :
  hasId rides id = false ->
  ActiveRide._id doc = id ->
  find (fun r => (ActiveRide._id r =? id)%nat) (rides ++ [doc]) = Some doc.
Proof.
  unfold hasId. intros Habs Hid.
  induction rides as [|r rest IH]; simpl in *.
  - rewrite Hid, Nat.eqb_refl. reflexivity.
  - apply orb_false_iff in Habs. destruct Habs as [Hr Hrest].
    rewrite Hr. apply IH, Hrest.
Qed.

Lemma find_app_other rides doc id :
  ActiveRide._id doc <> id ->
  find (fun r => (ActiveRide._id r =? id)%nat) (rides ++ [doc])
  = find (fun r => (ActiveRide._id r =? id)%nat) rides.
Proof.
  intros Hid.
  induction rides as [|r rest IH]; simpl.
  - rewrite (proj2 (Nat.eqb_neq _ _) Hid). reflexivity.
  - destruct (ActiveRide._id r =? id)%nat; [reflexivity | exact IH].
Qed.

Lemma find_replaceRide_other doc rides id :
  ActiveRide._id doc <> id ->
  find (fun r => (ActiveRide._id r =? id)%nat) (replaceRide doc rides)
  = find (fun r => (ActiveRide._id r =? id)%nat) rides.
Proof.
  intros Hid. unfold replaceRide.
  induction rides as [|r rest IH]; simpl; [reflexivity|].
  destruct (ActiveRide._id r =? ActiveRide._id doc)%nat eqn:Hr.
  - apply Nat.eqb_eq in Hr.
    rewrite (proj2 (Nat.eqb_neq _ _) Hid).
    replace (ActiveRide._id r =? id)%nat with false
      by (symmetry; apply Nat.eqb_neq; congruence).
    exact IH.
  - destruct (ActiveRide._id r =? id)%nat; [reflexivity | exact IH].
Qed.

Lemma hasId_app rides doc :
  hasId (rides ++ [doc]) (ActiveRide._id doc) = true.
Proof.
  unfold hasId. rewrite existsb_app. simpl.
  rewrite Nat.eqb_refl. apply orb_true_iff. right. reflexivity.
Qed.

Lemma insertActiveRide_read st doc st' :
  insertActiveRide st doc = Ok st' ->
  ActiveRide_findById st' (Some (ActiveRide._id doc))
  = Some (withVersion doc 0).
Proof.
  unfold insertActiveRide.
  destruct (negb (validActiveRide doc)); [discriminate|].
  destruct (hasId (activeRides st) (ActiveRide._id doc)) eqn:Hid;
    [discriminate|].
  destruct (violatesUniqueCab (activeRides st) doc); [discriminate|].
  intros H. injection H as <-.
  cbn [ActiveRide_findById setActiveRides activeRides].
  apply find_app_absent; [exact Hid | reflexivity].
Qed.

(** X16.  An inserted ride is read back by its id at version 0, the
    reads of the other ids are as before, and inserting the same document
    again is refused with the duplicate key error 11000. *)
Theorem insertActiveRide_round_trip st doc st' :
  insertActiveRide st doc = Ok st' ->
  ActiveRide_findById st' (Some (ActiveRide._id doc))
  = Some (withVersion doc 0)
  /\ (forall id, id <> ActiveRide._id doc ->
        ActiveRide_findById st' (Some id) = ActiveRide_findById st (Some id))
  /\ insertActiveRide st' doc = Throw (MongoError 11000%Z).
Proof.
  unfold insertActiveRide.
  destruct (negb (validActiveRide doc)) eqn:Hvalid; [discriminate|].
  destruct (hasId (activeRides st) (ActiveRide._id doc)) eqn:Hid;
    [discriminate|].
  destruct (violatesUniqueCab (activeRides st) doc); [discriminate|].
  intros H. injection H as <-. cbn [ActiveRide_findById setActiveRides activeRides].
  split; [apply find_app_absent; [exact Hid | reflexivity]|].
  split.
  - intros id Hne. apply find_app_other. cbn. congruence.
  - change (hasId (activeRides st ++ [withVersion doc 0]) (ActiveRide._id doc))
      with (hasId (activeRides st ++ [withVersion doc 0])
                  (ActiveRide._id (withVersion doc 0))).
    rewrite hasId_app. reflexivity.
Qed.

Lemma insertActiveRide_round_trip_witness :
  ActiveRide_findById (Bookings.pooledStore 4 0)
    (Some (ActiveRide._id (Equator.ride [Equator.rider] 0)))
  = Some (withVersion (Equator.ride [Equator.rider] 0) 0)
  /\ (forall id, id <> ActiveRide._id (Equator.ride [Equator.rider] 0) ->
        ActiveRide_findById (Bookings.pooledStore 4 0) (Some id)
        = ActiveRide_findById (mkStore [Bookings.cabA 4] [] []) (Some id))
  /\ insertActiveRide (Bookings.pooledStore 4 0)
       (Equator.ride [Equator.rider] 0)
     = Throw (MongoError 11000%Z).
Proof.
  apply (insertActiveRide_round_trip (mkStore [Bookings.cabA 4] [] [])
           (Equator.ride [Equator.rider] 0) (Bookings.pooledStore 4 0)).
  exact Scenarios.insert_first.
Defined.

(** X17.  A saved ride is read back by its id with the next version,
    the reads of the other ids and the number of rides are as before, and
    a second save of the document at the version it was read at, now
    stale, throws [VersionError]. *)
Theorem saveActiveRide_round_trip st doc st' :
  saveActiveRide st doc = Ok st' ->
  ActiveRide_findById st' (Some (ActiveRide._id doc))
  = Some (withVersion doc (S (ActiveRide.__v doc)))
  /\ (forall id, id <> ActiveRide._id doc ->
        ActiveRide_findById st' (Some id) = ActiveRide_findById st (Some id))
  /\ length (activeRides st') = length (activeRides st)
  /\ saveActiveRide st' doc = Throw VersionError.
Proof.
  intros Hsave.
  pose proof (CancelFacts.findById_saved _ _ _ Hsave) as Hread.
  split; [exact Hread|].
  assert (Hvalid : validActiveRide doc = true).
  { unfold saveActiveRide in Hsave.
    destruct (validActiveRide doc); [reflexivity | discriminate]. }
  split; [|split].
  - unfold saveActiveRide in Hsave. rewrite Hvalid in Hsave. cbn [negb] in Hsave.
    destruct (ActiveRide_findById st (Some (ActiveRide._id doc)));
      [|discriminate].
    destruct (negb _); [discriminate|].
    destruct (violatesUniqueCab _ _); [discriminate|].
    injection Hsave as <-. intros id Hne.
    cbn [ActiveRide_findById setActiveRides activeRides].
    apply find_replaceRide_other. cbn. congruence.
  - unfold saveActiveRide in Hsave. rewrite Hvalid in Hsave. cbn [negb] in Hsave.
    destruct (ActiveRide_findById st (Some (ActiveRide._id doc)));
      [|discriminate].
    destruct (negb _); [discriminate|].
    destruct (violatesUniqueCab _ _); [discriminate|].
    injection Hsave as <-. cbn [setActiveRides activeRides].
    unfold replaceRide. apply length_map.
  - apply (SaveFacts.saveActiveRide_stale st' doc _ Hvalid Hread).
    cbn. lia.
Qed.

Lemma saveActiveRide_round_trip_witness :
  ActiveRide_findById (Bookings.pooledStore 4 1)
    (Some (ActiveRide._id (Bookings.repriced 0)))
  = Some (withVersion (Bookings.repriced 0)
            (S (ActiveRide.__v (Bookings.repriced 0))))
  /\ (forall id, id <> ActiveRide._id (Bookings.repriced 0) ->
        ActiveRide_findById (Bookings.pooledStore 4 1) (Some id)
        = ActiveRide_findById (Bookings.pooledStore 4 0) (Some id))
  /\ length (activeRides (Bookings.pooledStore 4 1))
     = length (activeRides (Bookings.pooledStore 4 0))
  /\ saveActiveRide (Bookings.pooledStore 4 1) (Bookings.repriced 0)
     = Throw VersionError.
Proof.
  apply (saveActiveRide_round_trip (Bookings.pooledStore 4 0)
           (Bookings.repriced 0) (Bookings.pooledStore 4 1)).
  exact Scenarios.save_repriced.
Defined.

Lemma filter_joined_activeFor rides cab :
  length (filter (fun r => (ActiveRide.cabId r =? cab)%nat
                           && ActiveRide.isActive r) rides)
  = activeFor cab rides.
Proof.
  unfold activeFor. f_equal. apply filter_ext.
  intros r. apply andb_comm.
Qed.

(** Under the unique index a cab gives one row. *)
Lemma rowsOf_single rides c :
  (activeFor (Cab._id c) rides <= 1)%nat ->
  exists row, rowsOf rides c = [row] /\ CabData._id row = Cab._id c.
Proof.
  intros H. rewrite <- filter_joined_activeFor in H. unfold rowsOf.
  destruct (filter _ rides) as [|r [|r' rest]].
  - eexists. split; reflexivity.
  - eexists. split; reflexivity.
  - simpl in H. lia.
Qed.

(** X19.  When no cab has two active rides, the aggregation gives one
    row for each cab that the spatial index returns, in that order, and a
    ride joined to a row is a stored active ride of the row's cab. *)
Theorem aggregate_one_row_per_cab
    (geoNear : Coord -> list Cab.t -> list Cab.t) st near :
  uniqueActive st ->
  map CabData._id (aggregate geoNear st near)
  = map Cab._id (geoNear near (cabs st))
  /\ forall row r,
       In row (aggregate geoNear st near) ->
       CabData.activeRide row = Some r ->
       In r (activeRides st)
       /\ ActiveRide.isActive r = true
       /\ ActiveRide.cabId r = CabData._id row.
Proof.
  intros Huniq. unfold aggregate. split.
  - induction (geoNear near (cabs st)) as [|c rest IH]; [reflexivity|].
    cbn [flat_map map]. rewrite map_app, IH.
    destruct (rowsOf_single (activeRides st) c (Huniq (Cab._id c)))
      as (row & -> & Hid).
    cbn. rewrite Hid. reflexivity.
  - intros row r Hrow Hride.
    apply in_flat_map in Hrow. destruct Hrow as (c & _ & Hrow).
    unfold rowsOf in Hrow.
    destruct (filter _ (activeRides st)) as [|r0 joined] eqn:Hf.
    + destruct Hrow as [<-|[]]. discriminate.
    + rewrite <- Hf in Hrow. apply in_map_iff in Hrow.
      destruct Hrow as (x & <- & Hx). cbn in Hride. injection Hride as <-.
      apply filter_In in Hx. destruct Hx as [Hin Hx].
      apply andb_true_iff in Hx. destruct Hx as [Hc Ha].
      split; [exact Hin|]. split; [exact Ha|].
      cbn. apply Nat.eqb_eq. exact Hc.
Qed.

Lemma aggregate_one_row_per_cab_witness :
  map CabData._id
    (aggregate Equator.geoNearAll (Bookings.pooledStore 4 0) (0, 0))
  = map Cab._id (Equator.geoNearAll (0, 0) (cabs (Bookings.pooledStore 4 0)))
  /\ forall row r,
       In row (aggregate Equator.geoNearAll (Bookings.pooledStore 4 0) (0, 0)) ->
       CabData.activeRide row = Some r ->
       In r (activeRides (Bookings.pooledStore 4 0))
       /\ ActiveRide.isActive r = true
       /\ ActiveRide.cabId r = CabData._id row.
Proof.
  apply (aggregate_one_row_per_cab Equator.geoNearAll
           (Bookings.pooledStore 4 0) (0, 0)).
  intros cab. unfold activeFor.
  destruct cab as [|[|cab]]; simpl; lia.
Defined.

End CollectionFacts.

(** ** What every handler preserves *)

Module FrameFacts.
Import Db RideController HandlerFacts.

Section Preserved.

(** A property of the collections that the three writes keep. *)
Variable P : Store -> Prop.

Hypothesis insert_keeps :
  forall st doc st', P st -> insertActiveRide st doc = Ok st' -> P st'.
Hypothesis save_keeps :
  forall st doc st', P st -> saveActiveRide st doc = Ok st' -> P st'.
Hypothesis request_keeps :
  forall st doc st', P st -> saveRideRequest st doc = Ok st' -> P st'.

Lemma applyWrite_keeps st w : P st -> P (applyWrite st w).
Proof.
  intros Hp. destruct w as [doc|doc]; simpl.
  - destruct (insertActiveRide st doc) eqn:H; [eauto | exact Hp].
  - destruct (saveActiveRide st doc) eqn:H; [eauto | exact Hp].
Qed.

Lemma applyWrites_keeps ws st : P st -> P (applyWrites ws st).
Proof.
  unfold applyWrites. revert st.
  induction ws as [|w ws IH]; intros st Hp; simpl; [exact Hp|].
  apply IH, applyWrite_keeps, Hp.
Qed.

Lemma interfere_keeps env st env1 st1 :
  P st -> interfere env st = (env1, st1) -> P st1.
Proof.
  intros Hp. destruct env as [|ws env]; simpl; intros H; injection H as <- <-.
  - exact Hp.
  - apply applyWrites_keeps, Hp.
Qed.

(** Carries [P] forward along the writes recorded in the context. *)
Ltac forward_kept :=
  repeat match goal with
  | Hp : P ?st, H : interfere _ ?st = (_, _) |- _ =>
      apply (interfere_keeps _ _ _ _ Hp) in H
  | Hp : P ?st, H : saveActiveRide ?st _ = Ok _ |- _ =>
      apply (save_keeps _ _ _ Hp) in H
  | Hp : P ?st, H : insertActiveRide ?st _ = Ok _ |- _ =>
      apply (insert_keeps _ _ _ Hp) in H
  | Hp : P ?st, H : saveRideRequest ?st _ = Ok _ |- _ =>
      apply (request_keeps _ _ _ Hp) in H
  end;
  try assumption.

Variable findBestMatch : Store -> RideRequest.t -> option Match.

Lemma tryBlock_keeps body rideRequest bestMatch env st env1 st1 res :
  P st ->
  tryBlock body rideRequest bestMatch env st = (env1, st1, res) ->
  P st1 /\ forall st3 resp, res = Ok (st3, resp) -> P st3.
Proof.
  intros Hp H.
  unfold tryBlock, tryPooling, tryNewRide in H.
  repeat split_match H;
    injection H as <- <- <-;
    (split; [forward_kept|]);
    intros st3 resp Heq; inversion Heq; subst; forward_kept.
Qed.

Lemma retryLoop_keeps remaining body rideRequest bestMatch env st :
  P st ->
  P (store (retryLoop findBestMatch remaining body rideRequest bestMatch
                      env st)).
Proof.
  revert bestMatch env st.
  induction remaining as [|k IH]; intros bestMatch env st Hp; simpl.
  - exact Hp.
  - destruct (interfere env st) as [env0 st0] eqn:Hi.
    assert (Hp0 : P st0) by exact (interfere_keeps _ _ _ _ Hp Hi).
    destruct (tryBlock body rideRequest bestMatch env0 st0)
      as [[env1 st1] res] eqn:Ht.
    destruct (tryBlock_keeps _ _ _ _ _ _ _ _ Hp0 Ht) as [Hp1 Hok].
    destruct res as [[st3 resp]|e]; simpl.
    + apply (Hok st3 resp). reflexivity.
    + destruct (isVersionConflict e); simpl; [|exact Hp1].
      destruct (findBestMatch st1 rideRequest) as [updatedMatch|]; simpl.
      * apply IH. exact Hp1.
      * destruct (saveRideRequest st1 rideRequest) eqn:Hs; forward_kept.
Qed.

Lemma claimAnyCab_keeps body rideRequest env st :
  P st -> P (store (claimAnyCab body rideRequest env st)).
Proof.
  intros Hp. unfold claimAnyCab, bind.
  repeat split_goal_match; cbn [store]; forward_kept.
  match goal with
  | H : match insertActiveRide ?a ?b with _ => _ end = _ |- _ =>
      destruct (insertActiveRide a b) eqn:?; [|discriminate]
  end.
  forward_kept.
Qed.

Lemma bookRide_keeps env st body :
  P st -> P (store (bookRide findBestMatch env st body)).
Proof.
  intros Hp. unfold bookRide.
  destruct (negb _); [exact Hp|].
  destruct (findBestMatch st _).
  - apply retryLoop_keeps. exact Hp.
  - apply claimAnyCab_keeps. exact Hp.
Qed.

Lemma short_bookRide_keeps env st body :
  P st -> P (snd (Part003.bookRide findBestMatch env st body)).
Proof.
  intros Hp.
  unfold Part003.bookRide, Part003.joinPool, Part003.claimCab.
  repeat split_goal_match; cbn [snd]; forward_kept.
Qed.

Lemma cancelRide_keeps env st rideId userId :
  P st -> P (store (cancelRide env st rideId userId)).
Proof.
  intros Hp. unfold cancelRide.
  repeat split_goal_match; cbn [store]; forward_kept.
Qed.

End Preserved.

(** *** The cabs collection *)

Lemma insertActiveRide_cabs st0 st doc st' :
  cabs st = cabs st0 -> insertActiveRide st doc = Ok st' ->
  cabs st' = cabs st0.
Proof.
  intros Hp H. apply LuggageFacts.insertActiveRide_Ok in H.
  destruct H as [H _]. congruence.
Qed.

Lemma saveActiveRide_cabs st0 st doc st' :
  cabs st = cabs st0 -> saveActiveRide st doc = Ok st' ->
  cabs st' = cabs st0.
Proof.
  intros Hp H. apply LuggageFacts.saveActiveRide_Ok in H.
  destruct H as [H _]. congruence.
Qed.

Lemma saveRideRequest_cabs st0 st doc st' :
  cabs st = cabs st0 -> saveRideRequest st doc = Ok st' ->
  cabs st' = cabs st0.
Proof.
  intros Hp H.
  rewrite (proj2 (StoreFacts.saveRideRequest_activeRides _ _ _ H)). exact Hp.
Qed.

(** X20.  No handler writes to the cabs: after a booking, by either
    controller, and after a cancellation the cabs collection is as it was,
    whatever the engine and whatever other requests write to the rides
    meanwhile. *)
Theorem handlers_never_write_cabs
    (findBestMatch : Store -> RideRequest.t -> option Match)
    (env : Env) (st : Store) (body : Http.Body) (rideId userId : ObjectId) :
  cabs (store (bookRide findBestMatch env st body)) = cabs st
  /\ cabs (snd (Part003.bookRide findBestMatch env st body)) = cabs st
  /\ cabs (store (cancelRide env st rideId userId)) = cabs st.
Proof.
  split; [|split].
  - apply (bookRide_keeps (fun s => cabs s = cabs st)
             (insertActiveRide_cabs st) (saveActiveRide_cabs st)
             (saveRideRequest_cabs st)).
    reflexivity.
  - apply (short_bookRide_keeps (fun s => cabs s = cabs st)
             (insertActiveRide_cabs st) (saveActiveRide_cabs st)).
    reflexivity.
  - apply (cancelRide_keeps (fun s => cabs s = cabs st)
             (insertActiveRide_cabs st) (saveActiveRide_cabs st)).
    reflexivity.
Qed.

(** *** Validity of the stored rides *)

Definition allValid (st : Store) : Prop :=
  Forall (fun r => validActiveRide r = true) (activeRides st).

Lemma insertActiveRide_allValid st doc st' :
  allValid st -> insertActiveRide st doc = Ok st' -> allValid st'.
Proof.
  unfold allValid. intros Hp H.
  assert (Hv : validActiveRide doc = true).
  { unfold insertActiveRide in H.
    destruct (validActiveRide doc); [reflexivity | discriminate]. }
  apply LuggageFacts.insertActiveRide_Ok in H. destruct H as [_ ->].
  apply Forall_app. split; [exact Hp|].
  constructor; [exact Hv | constructor].
Qed.

Lemma saveActiveRide_allValid st doc st' :
  allValid st -> saveActiveRide st doc = Ok st' -> allValid st'.
Proof.
  unfold allValid. intros Hp H.
  assert (Hv : validActiveRide doc = true).
  { unfold saveActiveRide in H.
    destruct (validActiveRide doc); [reflexivity | discriminate]. }
  apply LuggageFacts.saveActiveRide_Ok in H. destruct H as [_ ->].
  unfold replaceRide. apply Forall_map.
  rewrite Forall_forall in *. intros r Hin.
  destruct (_ =? _)%nat; [exact Hv | apply Hp, Hin].
Qed.

Lemma saveRideRequest_allValid st doc st' :
  allValid st -> saveRideRequest st doc = Ok st' -> allValid st'.
Proof.
  unfold allValid. intros Hp H.
  rewrite (proj1 (StoreFacts.saveRideRequest_activeRides _ _ _ H)). exact Hp.
Qed.

Lemma reachable_allValid st : reachable st -> allValid st.
Proof.
  induction 1.
  - constructor.
  - apply (bookRide_keeps allValid insertActiveRide_allValid
             saveActiveRide_allValid saveRideRequest_allValid).
    assumption.
  - apply (short_bookRide_keeps allValid insertActiveRide_allValid
             saveActiveRide_allValid).
    assumption.
  - apply (cancelRide_keeps allValid insertActiveRide_allValid
             saveActiveRide_allValid).
    assumption.
Qed.

(** X21.  Every ride of a reachable state has passed validation: its
    price is not negative, the positions of its route are within the
    ranges of longitude and latitude, and no passenger has a negative
    luggage count. *)
Theorem reachable_rides_valid st r :
  reachable st -> In r (activeRides st) ->
  0 <= ActiveRide.totalPrice r
  /\ (forall c, In c (ActiveRide.currentRoute r) ->
        -180 <= lon c <= 180 /\ -90 <= lat c <= 90)
  /\ (forall p, In p (ActiveRide.passengers r) ->
        (0 <= Passenger.luggageCount p)%Z).
Proof.
  intros Hreach Hin.
  pose proof (reachable_allValid st Hreach) as Hall.
  unfold allValid in Hall. rewrite Forall_forall in Hall.
  specialize (Hall r Hin). unfold validActiveRide in Hall.
  apply andb_true_iff in Hall. destruct Hall as [Hall Hprice].
  apply andb_true_iff in Hall. destruct Hall as [Hpass Hroute].
  split; [apply JsFacts.leb_true; exact Hprice|]. split.
  - intros c Hc. rewrite forallb_forall in Hroute.
    specialize (Hroute c Hc). unfold validCoordinates in Hroute.
    repeat (apply andb_true_iff in Hroute;
            let H := fresh "H" in destruct Hroute as [Hroute H];
            apply JsFacts.leb_true in H).
    apply JsFacts.leb_true in Hroute. lra.
  - intros p Hp. rewrite forallb_forall in Hpass.
    specialize (Hpass p Hp). unfold validPassenger in Hpass.
    apply andb_true_iff in Hpass. destruct Hpass as [_ Hl].
    apply Z.leb_le. exact Hl.
Qed.

Lemma reachable_rides_valid_witness :
  0 <= ActiveRide.totalPrice Bookings.heavyRide
  /\ (forall c, In c (ActiveRide.currentRoute Bookings.heavyRide) ->
        -180 <= lon c <= 180 /\ -90 <= lat c <= 90)
  /\ (forall p, In p (ActiveRide.passengers Bookings.heavyRide) ->
        (0 <= Passenger.luggageCount p)%Z).
Proof.
  apply (reachable_rides_valid
           (store (bookRide Bookings.engine [] Bookings.idleStore
                            Bookings.heavyBody))
           Bookings.heavyRide).
  - apply (reach_bookRide Bookings.engine [] Bookings.idleStore
             Bookings.heavyBody).
    apply reach_init.
  - rewrite Bookings.bookRide_heavy. left. reflexivity.
Defined.

End FrameFacts.

(** ** What a booking leaves behind *)

Module BookingFacts.
Import Db RideController HandlerFacts.

#[local] Arguments PricingService.calculateDynamicPrice : simpl never.
#[local] Arguments saveActiveRide : simpl never.
#[local] Arguments insertActiveRide : simpl never.
#[local] Arguments saveRideRequest : simpl never.

Lemma findById_after_request st doc st' id :
  saveRideRequest st doc = Ok st' ->
  ActiveRide_findById st' id = ActiveRide_findById st id.
Proof.
  intros H. apply StoreFacts.saveRideRequest_activeRides in H.
  destruct H as [H _]. unfold ActiveRide_findById. rewrite H. reflexivity.
Qed.

Lemma saveRideRequest_In st doc st' :
  saveRideRequest st doc = Ok st' -> In doc (rideRequests st').
Proof.
  unfold saveRideRequest.
  destruct (negb (validRideRequest doc)); [discriminate|].
  intros H. injection H as <-. cbn [rideRequests].
  apply in_or_app. right. left. reflexivity.
Qed.

(** What a stored trip and a response say of a committed booking. *)
Definition booked (body : Http.Body) (rideRequest : RideRequest.t)
    (st3 : Store) (d : Http.Data) (trip : ActiveRide.t) : Prop :=
  ActiveRide_findById st3 (Some (Http.rideId d)) = Some trip
  /\ ActiveRide.isActive trip = true
  /\ ActiveRide.cabId trip = Http.cabId d
  /\ (exists before,
        ActiveRide.passengers trip = before ++ [passengerOf body])
  /\ ActiveRide.currentRoute trip = Http.route d
  /\ ActiveRide.totalPrice trip = Http.price d
  /\ In (matchedRequest rideRequest (Http.price d)) (rideRequests st3).

Lemma tryPooling_Ok body rideRequest bestMatch env st env1 st1 st3 resp :
  tryPooling body rideRequest bestMatch env st = (env1, st1, Ok (st3, resp)) ->
  exists d trip cab,
    resp = Http.mkResponse 200 true "Ride pooled successfully" (Some d)
    /\ booked body rideRequest st3 d trip
    /\ Cab_findById st (ActiveRide.cabId trip) = Some cab
    /\ (Z.of_nat (length (ActiveRide.passengers trip)) <= Cab.capacity cab)%Z
    /\ Http.passengerCount d = length (ActiveRide.passengers trip).
Proof.
  unfold tryPooling.
  destruct (ActiveRide_findById st (activeRideId bestMatch))
    as [read|] eqn:Hread; [|discriminate].
  destruct (ActiveRide.isActive read) eqn:Hactive; [|discriminate].
  cbn [negb].
  destruct (Cab_findById st (ActiveRide.cabId read)) as [cab|] eqn:Hcab;
    [|discriminate].
  destruct (Cab.capacity cab <=? _)%Z eqn:Hfull; [discriminate|].
  change (PricingService.success (PricingService.calculateDynamicPrice _ _ _ _))
    with true.
  cbn [negb].
  destruct (interfere env st) as [env' st'].
  destruct (saveActiveRide st' _) as [st2|e] eqn:Hsave; [|discriminate].
  destruct (saveRideRequest st2 _) as [st3'|e] eqn:Hreq; [|discriminate].
  intros H. injection H as <- <- <- <-.
  apply CancelFacts.findById_saved in Hsave.
  cbn [ActiveRide._id ActiveRide.__v] in Hsave.
  apply Z.leb_gt in Hfull.
  eexists _, _, cab. split; [reflexivity|]. split; [|split; [|split]].
  - unfold booked. cbn [Http.rideId Http.cabId Http.route Http.price].
    split.
    { rewrite (findById_after_request _ _ _ _ Hreq). exact Hsave. }
    split; [exact Hactive|]. split; [reflexivity|].
    split; [eexists; reflexivity|]. split; [reflexivity|].
    split; [reflexivity|].
    exact (saveRideRequest_In _ _ _ Hreq).
  - exact Hcab.
  - cbn. rewrite length_app. cbn [length]. lia.
  - reflexivity.
Qed.

Lemma tryNewRide_Ok body rideRequest bestMatch env st env1 st1 st3 resp :
  tryNewRide body rideRequest bestMatch env st = (env1, st1, Ok (st3, resp)) ->
  exists d trip,
    resp = Http.mkResponse 200 true "New ride created successfully" (Some d)
    /\ booked body rideRequest st3 d trip.
Proof.
  unfold tryNewRide.
  destruct (Cab_findById st (cabId bestMatch)) as [cab|] eqn:Hcab;
    [|discriminate].
  change (PricingService.success (PricingService.calculateDynamicPrice _ _ _ _))
    with true.
  cbn [negb].
  destruct (interfere env st) as [env' st'].
  destruct (insertActiveRide st' _) as [st2|e] eqn:Hins; [|discriminate].
  destruct (saveRideRequest st2 _) as [st3'|e] eqn:Hreq; [|discriminate].
  intros H. injection H as <- <- <- <-.
  apply CollectionFacts.insertActiveRide_read in Hins.
  eexists _, _. split; [reflexivity|].
  unfold booked. cbn [Http.rideId Http.cabId Http.route Http.price].
  split.
  { rewrite (findById_after_request _ _ _ _ Hreq). exact Hins. }
  split; [reflexivity|]. split; [reflexivity|].
  split; [exists []; reflexivity|]. split; [reflexivity|].
  split; [reflexivity|].
  exact (saveRideRequest_In _ _ _ Hreq).
Qed.

Lemma tryBlock_Ok body rideRequest bestMatch env st env1 st1 st3 resp :
  tryBlock body rideRequest bestMatch env st = (env1, st1, Ok (st3, resp)) ->
  exists d trip,
    Http.data resp = Some d
    /\ Http.success resp = true
    /\ booked body rideRequest st3 d trip
    /\ (Http.message resp = "Ride pooled successfully"%string ->
        exists cab,
          Cab_findById st (ActiveRide.cabId trip) = Some cab
          /\ (Z.of_nat (length (ActiveRide.passengers trip))
              <= Cab.capacity cab)%Z
          /\ Http.passengerCount d = length (ActiveRide.passengers trip)).
Proof.
  unfold tryBlock. destruct (type bestMatch); intros H.
  - apply tryPooling_Ok in H.
    destruct H as (d & trip & cab & -> & Hb & Hcab & Hseats & Hcount).
    exists d, trip. split; [reflexivity|]. split; [reflexivity|].
    split; [exact Hb|]. intros _. exists cab. repeat split; assumption.
  - apply tryNewRide_Ok in H. destruct H as (d & trip & -> & Hb).
    exists d, trip. split; [reflexivity|]. split; [reflexivity|].
    split; [exact Hb|]. cbn [Http.message]. discriminate.
Qed.

Definition failure (resp : Http.Response) : Prop :=
  Http.success resp = false
  /\ Http.data resp = None
  /\ Http.message resp <> "Ride pooled successfully"%string.

Lemma errorResponse_failure e : failure (errorResponse e).
Proof.
  unfold failure.
  destruct e as [|code| | |message]; cbn [errorResponse];
    try destruct (code =? 11000)%Z;
    (split; [reflexivity|]; split; [reflexivity | discriminate]).
Qed.

Section AnyEngine.

Variable findBestMatch : Store -> RideRequest.t -> option Match.

(** The loop either ends with the result of a turn that committed, or
    with a failure. *)
Lemma retryLoop_outcome remaining body rideRequest bestMatch env st :
  let o := retryLoop findBestMatch remaining body rideRequest bestMatch
                     env st in
  (exists bm env0 st0 env1 st1,
      tryBlock body rideRequest bm env0 st0
      = (env1, st1, Ok (store o, response o))
      /\ cabs st0 = cabs st)
  \/ failure (response o).
Proof.
  cbv zeta. revert bestMatch env st.
  induction remaining as [|k IH]; intros bestMatch env st; cbn [retryLoop].
  - right. unfold failure. cbn.
    split; [reflexivity|]. split; [reflexivity | discriminate].
  - destruct (interfere env st) as [env0 st0] eqn:Hi.
    assert (Hc0 : cabs st0 = cabs st).
    { apply (FrameFacts.interfere_keeps (fun s => cabs s = cabs st)
               (FrameFacts.insertActiveRide_cabs st)
               (FrameFacts.saveActiveRide_cabs st) env st env0 st0);
        [reflexivity | exact Hi]. }
    destruct (tryBlock body rideRequest bestMatch env0 st0)
      as [[env1 st1] res] eqn:Ht.
    destruct res as [[st3 resp]|e].
    + left. exists bestMatch, env0, st0, env1, st1.
      split; [exact Ht | exact Hc0].
    + destruct (isVersionConflict e).
      * destruct (findBestMatch st1 rideRequest) as [updatedMatch|].
        -- assert (Hc1 : cabs st1 = cabs st).
           { apply (FrameFacts.tryBlock_keeps (fun s => cabs s = cabs st)
                      (FrameFacts.insertActiveRide_cabs st)
                      (FrameFacts.saveActiveRide_cabs st)
                      (FrameFacts.saveRideRequest_cabs st)
                      _ _ _ _ _ _ _ _ Hc0 Ht). }
           cbn [response store].
           destruct (IH (refreshed bestMatch updatedMatch) env1 st1)
             as [(bm & e0 & s0 & e1 & s1 & Hturn & Hc) | Hfail].
           ++ left. exists bm, e0, s0, e1, s1.
              split; [exact Hturn | congruence].
           ++ right. exact Hfail.
        -- right. unfold failure. cbn.
           split; [reflexivity|]. split; [reflexivity | discriminate].
      * right. apply errorResponse_failure.
Qed.

Lemma claimAnyCab_outcome body rideRequest env st :
  let o := claimAnyCab body rideRequest env st in
  (exists d trip,
      Http.data (response o) = Some d
      /\ Http.success (response o) = true
      /\ Http.message (response o) <> "Ride pooled successfully"%string
      /\ booked body rideRequest (store o) d trip)
  \/ failure (response o).
Proof.
  cbv zeta. unfold claimAnyCab.
  destruct (find _ (cabs st)) as [availableCab|].
  2:{ right. unfold failure. cbn.
      split; [reflexivity|]. split; [reflexivity | discriminate]. }
  change (PricingService.success (PricingService.calculateDynamicPrice _ _ _ _))
    with true.
  cbn [negb].
  destruct (interfere env st) as [env' st1].
  unfold bind.
  destruct (insertActiveRide st1 _) as [st2|e] eqn:Hins.
  2:{ right. apply errorResponse_failure. }
  destruct (saveRideRequest st2 _) as [st3|e] eqn:Hreq.
  2:{ right. apply errorResponse_failure. }
  left. apply CollectionFacts.insertActiveRide_read in Hins.
  eexists _, _. cbn [response store Http.data Http.success Http.message].
  split; [reflexivity|]. split; [reflexivity|]. split; [discriminate|].
  unfold booked. cbn [Http.rideId Http.cabId Http.route Http.price].
  split.
  { rewrite (findById_after_request _ _ _ _ Hreq). exact Hins. }
  split; [reflexivity|]. split; [reflexivity|].
  split; [exists []; reflexivity|]. split; [reflexivity|].
  split; [reflexivity|].
  exact (saveRideRequest_In _ _ _ Hreq).
Qed.

(** X22.  A booking that answers [success: true] has committed a ride:
    the ride of the returned id is stored and active, belongs to the
    returned cab, has the requester as its last passenger, the returned
    route and the returned price; and the request is stored as matched at
    that price. *)
Theorem bookRide_success_stored (env : Env) (st : Store) (body : Http.Body) :
  let o := bookRide findBestMatch env st body in
  Http.success (response o) = true ->
  exists d trip before,
    Http.data (response o) = Some d
    /\ ActiveRide_findById (store o) (Some (Http.rideId d)) = Some trip
    /\ ActiveRide.isActive trip = true
    /\ ActiveRide.cabId trip = Http.cabId d
    /\ ActiveRide.passengers trip = before ++ [passengerOf body]
    /\ ActiveRide.currentRoute trip = Http.route d
    /\ ActiveRide.totalPrice trip = Http.price d
    /\ In (matchedRequest (newRideRequest st body) (Http.price d))
          (rideRequests (store o)).
Proof.
  cbv zeta. unfold bookRide.
  destruct (negb (validRideRequest (newRideRequest st body)));
    [discriminate|].
  assert (Hbooked : forall st3 d trip,
            booked body (newRideRequest st body) st3 d trip ->
            exists before,
              ActiveRide_findById st3 (Some (Http.rideId d)) = Some trip
              /\ ActiveRide.isActive trip = true
              /\ ActiveRide.cabId trip = Http.cabId d
              /\ ActiveRide.passengers trip = before ++ [passengerOf body]
              /\ ActiveRide.currentRoute trip = Http.route d
              /\ ActiveRide.totalPrice trip = Http.price d
              /\ In (matchedRequest (newRideRequest st body) (Http.price d))
                    (rideRequests st3)).
  { intros st3 d trip (H1 & H2 & H3 & (before & H4) & H5 & H6 & H7).
    exists before. repeat split; assumption. }
  destruct (findBestMatch st (newRideRequest st body)) as [bestMatch|].
  - destruct (retryLoop_outcome maxRetries body (newRideRequest st body)
                bestMatch env st)
      as [(bm & e0 & s0 & e1 & s1 & Hturn & _) | (Hfail & _)].
    + intros _. apply tryBlock_Ok in Hturn.
      destruct Hturn as (d & trip & Hd & _ & Hb & _).
      destruct (Hbooked _ _ _ Hb) as (before & H).
      exists d, trip, before. split; [exact Hd | exact H].
    + intros H. rewrite H in Hfail. discriminate.
  - destruct (claimAnyCab_outcome body (newRideRequest st body) env st)
      as [(d & trip & Hd & _ & _ & Hb) | (Hfail & _)].
    + intros _. destruct (Hbooked _ _ _ Hb) as (before & H).
      exists d, trip, before. split; [exact Hd | exact H].
    + intros H. rewrite H in Hfail. discriminate.
Qed.

(** X23.  A booking that answers ['Ride pooled successfully'] leaves
    the ride with no more passengers than the capacity of its cab, and
    reports their number. *)
Theorem pooled_booking_within_seats (env : Env) (st : Store)
    (body : Http.Body) :
  let o := bookRide findBestMatch env st body in
  Http.message (response o) = "Ride pooled successfully"%string ->
  exists d trip cab,
    Http.data (response o) = Some d
    /\ ActiveRide_findById (store o) (Some (Http.rideId d)) = Some trip
    /\ Cab_findById (store o) (ActiveRide.cabId trip) = Some cab
    /\ (Z.of_nat (length (ActiveRide.passengers trip)) <= Cab.capacity cab)%Z
    /\ Http.passengerCount d = length (ActiveRide.passengers trip).
Proof.
  cbv zeta.
  pose proof (FrameFacts.bookRide_keeps (fun s => cabs s = cabs st)
                (FrameFacts.insertActiveRide_cabs st)
                (FrameFacts.saveActiveRide_cabs st)
                (FrameFacts.saveRideRequest_cabs st)
                findBestMatch env st body eq_refl) as Hcabs.
  revert Hcabs. unfold bookRide.
  destruct (negb (validRideRequest (newRideRequest st body)));
    [discriminate|].
  destruct (findBestMatch st (newRideRequest st body)) as [bestMatch|].
  - destruct (retryLoop_outcome maxRetries body (newRideRequest st body)
                bestMatch env st)
      as [(bm & e0 & s0 & e1 & s1 & Hturn & Hc0) | (_ & _ & Hfail)].
    + intros Hcabs Hmsg. apply tryBlock_Ok in Hturn.
      destruct Hturn as (d & trip & Hd & _ & (Hfind & _) & Hpool).
      destruct (Hpool Hmsg) as (cab & Hcab & Hseats & Hcount).
      exists d, trip, cab. split; [exact Hd|]. split; [exact Hfind|].
      split; [|split; assumption].
      unfold Cab_findById in *. rewrite Hcabs, <- Hc0. exact Hcab.
    + intros _ H. contradiction.
  - destruct (claimAnyCab_outcome body (newRideRequest st body) env st)
      as [(d & trip & _ & _ & Hmsg & _) | (_ & _ & Hfail)];
      intros _ H; contradiction.
Qed.

End AnyEngine.

Lemma bookRide_success_stored_witness :
  exists d trip before,
    Http.data (response (bookRide Bookings.engine [] Bookings.idleStore
                                  Bookings.heavyBody)) = Some d
    /\ ActiveRide_findById
         (store (bookRide Bookings.engine [] Bookings.idleStore
                          Bookings.heavyBody))
         (Some (Http.rideId d)) = Some trip
    /\ ActiveRide.isActive trip = true
    /\ ActiveRide.cabId trip = Http.cabId d
    /\ ActiveRide.passengers trip = before ++ [passengerOf Bookings.heavyBody]
    /\ ActiveRide.currentRoute trip = Http.route d
    /\ ActiveRide.totalPrice trip = Http.price d
    /\ In (matchedRequest (newRideRequest Bookings.idleStore Bookings.heavyBody)
                          (Http.price d))
          (rideRequests
             (store (bookRide Bookings.engine [] Bookings.idleStore
                              Bookings.heavyBody))).
Proof.
  apply (bookRide_success_stored Bookings.engine [] Bookings.idleStore
           Bookings.heavyBody).
  rewrite Bookings.bookRide_heavy. reflexivity.
Defined.

Lemma pooled_booking_within_seats_witness :
  exists d trip cab,
    Http.data (response (bookRide Bookings.engine []
                                  (Bookings.pooledStore 4 0) Bookings.body))
    = Some d
    /\ ActiveRide_findById
         (store (bookRide Bookings.engine [] (Bookings.pooledStore 4 0)
                          Bookings.body))
         (Some (Http.rideId d)) = Some trip
    /\ Cab_findById
         (store (bookRide Bookings.engine [] (Bookings.pooledStore 4 0)
                          Bookings.body))
         (ActiveRide.cabId trip) = Some cab
    /\ (Z.of_nat (length (ActiveRide.passengers trip)) <= Cab.capacity cab)%Z
    /\ Http.passengerCount d = length (ActiveRide.passengers trip).
Proof.
  apply (pooled_booking_within_seats Bookings.engine []
           (Bookings.pooledStore 4 0) Bookings.body).
  rewrite Scenarios.bookRide_pooled. reflexivity.
Defined.

End BookingFacts.

(** ** Bookings and cancellations without and with concurrent writes *)

Module QuietFacts.
Import Db RideController HandlerFacts.

#[local] Arguments PricingService.calculateDynamicPrice : simpl never.
#[local] Arguments saveActiveRide : simpl never.
#[local] Arguments insertActiveRide : simpl never.
#[local] Arguments saveRideRequest : simpl never.

(** A document found by an id is found by its own. *)
Lemma findById_own st id read :
  ActiveRide_findById st id = Some read ->
  ActiveRide_findById st (Some (ActiveRide._id read)) = Some read.
Proof.
  destruct id as [i|]; [|discriminate]. cbn [ActiveRide_findById].
  intros H. rewrite (CancelFacts.find_id_eq _ _ _ H). exact H.
Qed.

(** Without writes of other requests a turn leaves the committed store as
    it is, and does not fail on a version. *)
Lemma tryBlock_quiet body rideRequest bestMatch st env1 st1 res :
  tryBlock body rideRequest bestMatch [] st = (env1, st1, res) ->
  env1 = [] /\ st1 = st
  /\ match res with
     | Ok _ => True
     | Throw e => isVersionConflict e = false
     end.
Proof.
  unfold tryBlock, tryPooling, tryNewRide. cbn [interfere].
  change (PricingService.success (PricingService.calculateDynamicPrice _ _ _ _))
    with true.
  cbn [negb].
  destruct (type bestMatch).
  - destruct (ActiveRide_findById st (activeRideId bestMatch))
      as [read|] eqn:Hread.
    2:{ intros H; injection H as <- <- <-. repeat split. }
    destruct (ActiveRide.isActive read).
    2:{ intros H; injection H as <- <- <-. repeat split. }
    cbn [negb].
    destruct (Cab_findById st (ActiveRide.cabId read)) as [cab|].
    2:{ intros H; injection H as <- <- <-. repeat split. }
    destruct (Cab.capacity cab <=? _)%Z.
    { intros H; injection H as <- <- <-. repeat split. }
    destruct (saveActiveRide st _) as [st2|e] eqn:Hsave.
    + destruct (saveRideRequest st2 _) as [st3|e] eqn:Hreq;
        intros H; injection H as <- <- <-; repeat split.
      exact (LuggageFacts.saveRideRequest_Throw _ _ _ Hreq).
    + intros H; injection H as <- <- <-. repeat split.
      eapply LuggageFacts.saveActiveRide_Throw; [| |exact Hsave].
      * exact (findById_own _ _ _ Hread).
      * reflexivity.
  - destruct (Cab_findById st (cabId bestMatch)) as [cab|].
    2:{ intros H; injection H as <- <- <-. repeat split. }
    destruct (insertActiveRide st _) as [st2|e] eqn:Hins.
    + destruct (saveRideRequest st2 _) as [st3|e] eqn:Hreq;
        intros H; injection H as <- <- <-; repeat split.
      exact (LuggageFacts.saveRideRequest_Throw _ _ _ Hreq).
    + intros H; injection H as <- <- <-. repeat split.
      exact (LuggageFacts.insertActiveRide_Throw _ _ _ Hins).
Qed.

(** X24.  When no other request writes during a booking, the booking
    makes at most one commit attempt, never meets a version conflict, and
    if it fails it leaves the collections exactly as they were. *)
Theorem bookRide_without_contention
    (findBestMatch : Store -> RideRequest.t -> option Match)
    (st : Store) (body : Http.Body) :
  let o := bookRide findBestMatch [] st body in
  (forall a, In a (attempts o) -> a <> VersionConflict)
  /\ (length (attempts o) <= 1)%nat
  /\ (Http.success (response o) = false -> store o = st).
Proof.
  cbv zeta. unfold bookRide.
  destruct (negb (validRideRequest (newRideRequest st body))).
  { cbn. split; [intros a []|]. split; [lia | reflexivity]. }
  destruct (findBestMatch st (newRideRequest st body)) as [bestMatch|].
  - unfold maxRetries. cbn [retryLoop interfere].
    destruct (tryBlock body (newRideRequest st body) bestMatch [] st)
      as [[env1 st1] res] eqn:Ht.
    pose proof Ht as Hq. apply tryBlock_quiet in Hq.
    destruct Hq as (-> & -> & Hres).
    destruct res as [[st3 resp]|e].
    + cbn [attempts response store].
      split; [intros a [<-|[]]; discriminate|]. split; [cbn; lia|].
      apply BookingFacts.tryBlock_Ok in Ht.
      destruct Ht as (d & trip & _ & Hs & _). rewrite Hs. discriminate.
    + rewrite Hres. cbn [attempts response store].
      split; [intros a [<-|[]]; discriminate|]. split; [cbn; lia|].
      reflexivity.
  - unfold claimAnyCab.
    destruct (find _ (cabs st)) as [availableCab|].
    2:{ cbn. split; [intros a []|]. split; [lia | reflexivity]. }
    change (PricingService.success
              (PricingService.calculateDynamicPrice _ _ _ _)) with true.
    cbn [negb interfere]. unfold bind.
    destruct (insertActiveRide st _) as [st2|e].
    + destruct (saveRideRequest st2 _) as [st3|e];
        cbn [attempts response store Http.success];
        (split; [intros a []|]); (split; [cbn; lia|]);
        [discriminate | reflexivity].
    + cbn [attempts response store].
      split; [intros a []|]. split; [cbn; lia | reflexivity].
Qed.

(** A save refused with [VersionError] found the document missing or at
    another version. *)
Lemma saveActiveRide_VersionError st doc :
  saveActiveRide st doc = Throw VersionError ->
  option_map ActiveRide.__v
    (ActiveRide_findById st (Some (ActiveRide._id doc)))
  <> Some (ActiveRide.__v doc).
Proof.
  unfold saveActiveRide.
  destruct (negb (validActiveRide doc)); [discriminate|].
  destruct (ActiveRide_findById st (Some (ActiveRide._id doc)))
    as [stored|]; [|discriminate].
  destruct (ActiveRide.__v stored =? ActiveRide.__v doc)%nat eqn:Hv;
    cbn [negb].
  - destruct (violatesUniqueCab _ _); discriminate.
  - intros _ H. cbn in H. injection H as H.
    apply Nat.eqb_neq in Hv. contradiction.
Qed.

Lemma cancelErrorResponse_409 e :
  Http.statusCode (cancelErrorResponse e) = 409%nat -> e = VersionError.
Proof. destruct e; cbn; [reflexivity | discriminate..]. Qed.

(** X25.  A cancellation answers 409 only if another request has
    written in between: the cancellation itself writes nothing, and the
    ride is then missing or at another version than the one read. *)
Theorem cancelRide_conflict (env : Env) (st : Store)
    (rideId userId : ObjectId) :
  let o := cancelRide env st rideId userId in
  Http.statusCode (response o) = 409%nat ->
  exists read,
    ActiveRide_findById st (Some rideId) = Some read
    /\ store o = snd (interfere env st)
    /\ option_map ActiveRide.__v (ActiveRide_findById (store o) (Some rideId))
       <> Some (ActiveRide.__v read)
    /\ env <> [].
Proof.
  cbv zeta. unfold cancelRide.
  destruct (ActiveRide_findById st (Some rideId)) as [read|] eqn:Hread;
    [|discriminate].
  pose proof (CancelFacts.find_id_eq _ _ _ Hread) as Hid.
  destruct (ActiveRide.isActive read); [|discriminate].
  cbn [negb].
  destruct (findIndex userId (ActiveRide.passengers read)) as [i|];
    [|discriminate].
  assert (Hgoal : forall doc st1 (ok : Store -> Outcome),
            ActiveRide._id doc = rideId ->
            ActiveRide.__v doc = ActiveRide.__v read ->
            (env = [] -> st1 = st) ->
            (forall st2, Http.statusCode (response (ok st2)) <> 409%nat) ->
            let o := match saveActiveRide st1 doc with
                     | Throw e => mkOutcome (cancelErrorResponse e) st1 []
                     | Ok st2 => ok st2
                     end in
            Http.statusCode (response o) = 409%nat ->
            exists read',
              Some read = Some read'
              /\ store o = st1
              /\ option_map ActiveRide.__v
                   (ActiveRide_findById (store o) (Some rideId))
                 <> Some (ActiveRide.__v read')
              /\ env <> []).
  { intros doc st1 ok Hdoc Hv Hquiet Hok. cbv zeta.
    destruct (saveActiveRide st1 doc) as [st2|e] eqn:Hsave.
    - intros H. exfalso. exact (Hok st2 H).
    - cbn [response store]. intros H.
      apply cancelErrorResponse_409 in H. subst e.
      apply saveActiveRide_VersionError in Hsave.
      rewrite Hdoc, Hv in Hsave.
      exists read. split; [reflexivity|]. split; [reflexivity|].
      split; [exact Hsave|].
      intros Henv. rewrite (Hquiet Henv), Hread in Hsave.
      apply Hsave. reflexivity. }
  assert (Hquiet : env = [] -> snd (interfere env st) = st).
  { intros ->. reflexivity. }
  destruct (length (RouteBuilder.removeAt i (ActiveRide.passengers read))
            =? 0)%nat.
  - destruct (interfere env st) as [env' st1]. cbn [snd] in *.
    match goal with
    | |- context [saveActiveRide st1 ?doc] =>
        apply (Hgoal doc st1 (fun st2 => mkOutcome _ st2 []) Hid eq_refl
                 Hquiet)
    end.
    intros st2. discriminate.
  - destruct (Cab_findById st (ActiveRide.cabId read)) as [cab|];
      [|discriminate].
    destruct (interfere env st) as [env' st1]. cbn [snd] in *.
    match goal with
    | |- context [saveActiveRide st1 ?doc] =>
        apply (Hgoal doc st1 (fun st2 => mkOutcome _ st2 []) Hid eq_refl
                 Hquiet)
    end.
    intros st2. discriminate.
Qed.

Lemma cancelRide_conflict_witness :
  exists read,
    ActiveRide_findById (Bookings.pooledStore 4 0) (Some 10%nat) = Some read
    /\ store (cancelRide Scenarios.overtakenCancel (Bookings.pooledStore 4 0)
                         10%nat 100%nat)
       = snd (interfere Scenarios.overtakenCancel (Bookings.pooledStore 4 0))
    /\ option_map ActiveRide.__v
         (ActiveRide_findById
            (store (cancelRide Scenarios.overtakenCancel
                               (Bookings.pooledStore 4 0) 10%nat 100%nat))
            (Some 10%nat))
       <> Some (ActiveRide.__v read)
    /\ Scenarios.overtakenCancel <> [].
Proof.
  apply (cancelRide_conflict Scenarios.overtakenCancel
           (Bookings.pooledStore 4 0) 10%nat 100%nat).
  rewrite Scenarios.cancelRide_overtaken. reflexivity.
Defined.

End QuietFacts.

Module CancelledFacts.
Import Db RideController.

#[local] Arguments saveActiveRide : simpl never.

(** X26.  After a successful cancellation the ride is stored without
    the first sub-record of the requester, at the next version, for the
    same cab and at the same total price.  If no passenger is left the
    ride is cancelled and keeps its route; otherwise it stays active and
    its route is the cab's position followed by the pickup and the dropoff
    of each remaining passenger in turn. *)
Theorem cancelRide_success_stored (env : Env) (st : Store)
    (rideId userId : ObjectId) :
  let o := cancelRide env st rideId userId in
  Http.success (response o) = true ->
  exists read i trip,
    ActiveRide_findById st (Some rideId) = Some read
    /\ findIndex userId (ActiveRide.passengers read) = Some i
    /\ ActiveRide_findById (store o) (Some rideId) = Some trip
    /\ ActiveRide.passengers trip
       = RouteBuilder.removeAt i (ActiveRide.passengers read)
    /\ ActiveRide.cabId trip = ActiveRide.cabId read
    /\ ActiveRide.totalPrice trip = ActiveRide.totalPrice read
    /\ ActiveRide.__v trip = S (ActiveRide.__v read)
    /\ match ActiveRide.passengers trip with
       | [] =>
           ActiveRide.status trip = ActiveRide.cancelled
           /\ ActiveRide.currentRoute trip = ActiveRide.currentRoute read
       | _ :: _ =>
           ActiveRide.status trip = ActiveRide.active
           /\ exists cab,
                Cab_findById st (ActiveRide.cabId read) = Some cab
                /\ ActiveRide.currentRoute trip
                   = calculateOptimalRouteForPassengers
                       (ActiveRide.passengers trip) (Cab.currentLocation cab)
       end.
Proof.
  cbv zeta. unfold cancelRide.
  destruct (ActiveRide_findById st (Some rideId)) as [read|] eqn:Hread;
    [|discriminate].
  pose proof (CancelFacts.find_id_eq _ _ _ Hread) as Hid.
  destruct (ActiveRide.isActive read) eqn:Hactive; [|discriminate].
  cbn [negb].
  destruct (findIndex userId (ActiveRide.passengers read)) as [i|] eqn:Hidx;
    [|discriminate].
  destruct (length (RouteBuilder.removeAt i (ActiveRide.passengers read))
            =? 0)%nat eqn:Hempty.
  - destruct (interfere env st) as [env' st1].
    destruct (saveActiveRide st1 _) as [st2|e] eqn:Hsave;
      [|destruct e; discriminate].
    intros _. apply CancelFacts.findById_saved in Hsave.
    cbn [ActiveRide._id ActiveRide.__v] in Hsave. rewrite Hid in Hsave.
    eexists read, i, _. split; [reflexivity|]. split; [exact Hidx|].
    cbn [store]. split; [exact Hsave|].
    cbn. split; [reflexivity|]. split; [reflexivity|].
    split; [reflexivity|]. split; [reflexivity|].
    apply Nat.eqb_eq in Hempty.
    destruct (RouteBuilder.removeAt i (ActiveRide.passengers read));
      [split; reflexivity | discriminate].
  - destruct (Cab_findById st (ActiveRide.cabId read)) as [cab|] eqn:Hcab;
      [|discriminate].
    destruct (interfere env st) as [env' st1].
    destruct (saveActiveRide st1 _) as [st2|e] eqn:Hsave;
      [|destruct e; discriminate].
    intros _. apply CancelFacts.findById_saved in Hsave.
    cbn [ActiveRide._id ActiveRide.__v] in Hsave. rewrite Hid in Hsave.
    eexists read, i, _. split; [reflexivity|]. split; [exact Hidx|].
    cbn [store]. split; [exact Hsave|].
    cbn. split; [reflexivity|]. split; [reflexivity|].
    split; [reflexivity|]. split; [reflexivity|].
    apply Nat.eqb_neq in Hempty.
    destruct (RouteBuilder.removeAt i (ActiveRide.passengers read)) eqn:Hrem;
      [contradiction Hempty; reflexivity|].
    split; [apply status_eqb_eq; exact Hactive|].
    exists cab. split; [exact Hcab | reflexivity].
Qed.

Lemma cancelRide_success_stored_witness :
  exists read i trip,
    ActiveRide_findById (Bookings.pooledStore 4 0) (Some 10%nat) = Some read
    /\ findIndex 100%nat (ActiveRide.passengers read) = Some i
    /\ ActiveRide_findById
         (store (cancelRide [] (Bookings.pooledStore 4 0) 10%nat 100%nat))
         (Some 10%nat) = Some trip
    /\ ActiveRide.passengers trip
       = RouteBuilder.removeAt i (ActiveRide.passengers read)
    /\ ActiveRide.cabId trip = ActiveRide.cabId read
    /\ ActiveRide.totalPrice trip = ActiveRide.totalPrice read
    /\ ActiveRide.__v trip = S (ActiveRide.__v read)
    /\ match ActiveRide.passengers trip with
       | [] =>
           ActiveRide.status trip = ActiveRide.cancelled
           /\ ActiveRide.currentRoute trip = ActiveRide.currentRoute read
       | _ :: _ =>
           ActiveRide.status trip = ActiveRide.active
           /\ exists cab,
                Cab_findById (Bookings.pooledStore 4 0)
                  (ActiveRide.cabId read) = Some cab
                /\ ActiveRide.currentRoute trip
                   = calculateOptimalRouteForPassengers
                       (ActiveRide.passengers trip) (Cab.currentLocation cab)
       end.
Proof.
  apply (cancelRide_success_stored [] (Bookings.pooledStore 4 0)
           10%nat 100%nat).
  rewrite Bookings.cancelRide_rider. reflexivity.
Defined.

End CancelledFacts.

(** ** The short controller *)

Module ShortFacts.
Import Db.

#[local] Arguments saveActiveRide : simpl never.
#[local] Arguments insertActiveRide : simpl never.
#[local] Arguments PricingService.calculateDynamicPrice : simpl never.

Lemma errorResponse_not_200 e :
  Http.statusCode (Part003.errorResponse e) <> 200%nat.
Proof.
  destruct e as [|code| | |message]; cbn;
    try destruct (code =? 11000)%Z; discriminate.
Qed.

(** X27.  When the short controller answers 200, the engine had
    returned a pooling match and the requester has been appended to the
    passengers of that ride; the route, the price and the status of the
    ride are as they were read. *)
Theorem short_pooling_keeps_route
    (findBestMatch : Store -> RideRequest.t -> option Match)
    (env : Env) (st : Store) (body : Http.Body) :
  let r := Part003.bookRide findBestMatch env st body in
  Http.statusCode (fst r) = 200%nat ->
  exists bestMatch read trip,
    findBestMatch st (Part003.requestOf body) = Some bestMatch
    /\ type bestMatch = pooling
    /\ ActiveRide_findById (snd (interfere env st)) (activeRideId bestMatch)
       = Some read
    /\ ActiveRide_findById (snd r) (Some (ActiveRide._id read)) = Some trip
    /\ ActiveRide.passengers trip
       = ActiveRide.passengers read ++ [RideController.passengerOf body]
    /\ ActiveRide.currentRoute trip = ActiveRide.currentRoute read
    /\ ActiveRide.totalPrice trip = ActiveRide.totalPrice read
    /\ ActiveRide.status trip = ActiveRide.status read.
Proof.
  cbv zeta. unfold Part003.bookRide.
  assert (Hclaim : Http.statusCode (fst (Part003.claimCab env st body))
                   <> 200%nat).
  { unfold Part003.claimCab.
    destruct (find _ (cabs st)); [|cbn; discriminate].
    destruct (interfere env st) as [env' st1].
    destruct (insertActiveRide st1 _); cbn [fst];
      [cbn; discriminate | apply errorResponse_not_200]. }
  destruct (findBestMatch st (Part003.requestOf body)) as [bestMatch|];
    [|intros H; contradiction].
  destruct (type bestMatch) eqn:Htype; [|intros H; contradiction].
  unfold Part003.joinPool.
  destruct (interfere env st) as [env0 st0]. cbn [snd].
  destruct (ActiveRide_findById st0 (activeRideId bestMatch))
    as [read|] eqn:Hread;
    [|intros H; exfalso; exact (errorResponse_not_200 _ H)].
  destruct (Cab_findById st0 (ActiveRide.cabId read)) as [cab|];
    [|intros H; exfalso; exact (errorResponse_not_200 _ H)].
  destruct (Cab.capacity cab <=? _)%Z; [cbn; discriminate|].
  destruct (interfere env0 st0) as [env1 st1].
  destruct (saveActiveRide st1 _) as [st2|e] eqn:Hsave;
    [|intros H; exfalso; exact (errorResponse_not_200 _ H)].
  intros _. apply CancelFacts.findById_saved in Hsave.
  cbn [ActiveRide._id ActiveRide.__v] in Hsave.
  eexists bestMatch, read, _. split; [reflexivity|]. split; [exact Htype|].
  split; [exact Hread|]. cbn [snd]. split; [exact Hsave|].
  cbn. repeat split.
Qed.

Lemma short_pooling_keeps_route_witness :
  exists bestMatch read trip,
    Scenarios.always Equator.pooledMatch (Bookings.pooledStore 4 0)
      (Part003.requestOf Bookings.body) = Some bestMatch
    /\ type bestMatch = pooling
    /\ ActiveRide_findById (snd (interfere [] (Bookings.pooledStore 4 0)))
         (activeRideId bestMatch) = Some read
    /\ ActiveRide_findById
         (snd (Part003.bookRide (Scenarios.always Equator.pooledMatch) []
                 (Bookings.pooledStore 4 0) Bookings.body))
         (Some (ActiveRide._id read)) = Some trip
    /\ ActiveRide.passengers trip
       = ActiveRide.passengers read
         ++ [RideController.passengerOf Bookings.body]
    /\ ActiveRide.currentRoute trip = ActiveRide.currentRoute read
    /\ ActiveRide.totalPrice trip = ActiveRide.totalPrice read
    /\ ActiveRide.status trip = ActiveRide.status read.
Proof.
  apply (short_pooling_keeps_route (Scenarios.always Equator.pooledMatch) []
           (Bookings.pooledStore 4 0) Bookings.body).
  exact Scenarios.short_bookRide_pooled.
Defined.

End ShortFacts.

(** ** The engine of [services/matchingEngine.js] *)

Module ServicesFacts.
Import Geo RouteBuilder ServicesFindBestMatch.

Lemma services_scoringLoop_In newRequest nearbyCabs bestMatch bestScore m :
  scoringLoop newRequest nearbyCabs bestMatch bestScore = Some m ->
  bestMatch = Some m
  \/ exists cabData, In cabData nearbyCabs
                     /\ evaluate newRequest cabData = Some m.
Proof.
  revert bestMatch bestScore.
  induction nearbyCabs as [|c rest IH]; intros bestMatch bestScore H;
    simpl in H.
  - left. exact H.
  - destruct (evaluate newRequest c) as [m'|] eqn:Hev.
    + destruct (Js.lt_inf (deviationScore m') bestScore);
        apply IH in H; destruct H as [H | (c' & Hin & Hc')].
      * right. exists c. split; [left; reflexivity|]. congruence.
      * right. exists c'. split; [right; exact Hin | exact Hc'].
      * left. exact H.
      * right. exists c'. split; [right; exact Hin | exact Hc'].
    + apply IH in H. destruct H as [H | (c' & Hin & Hc')].
      * left. exact H.
      * right. exists c'. split; [right; exact Hin | exact Hc'].
Qed.

(** X28.  A match of the engine of [services/matchingEngine.js], which
    has no fallback, always satisfies the constraints: it is for a row
    with a free seat whose luggage with the request's fits the capacity,
    and for every passenger of the row the direct distance is not 0 and
    the detour percentage is within the limit.  Its type is ['pooling']
    exactly when the row has a joined ride, whatever the status of that
    ride. *)
Theorem services_findBestMatch_sound newRequest nearbyCabs m :
  findBestMatch newRequest nearbyCabs = Some m ->
  exists row,
    In row nearbyCabs
    /\ cabId m = CabData._id row
    /\ (Z.of_nat (length (passengersOf row)) < CabData.capacity row)%Z
    /\ (Part000.currentLuggage (passengersOf row)
        + RideRequest.luggageCount newRequest <= CabData.capacity row)%Z
    /\ route m
       = createOptimalRoute (passengersOf row) newRequest
                            (CabData.currentLocation row)
    /\ (forall p, In p (passengersOf row) ->
          let direct := calculateDistance (Passenger.pickupLocation p)
                                          (Passenger.dropoffLocation p) in
          direct <> 0
          /\ (calculateRouteDistance (route m) - direct) / direct * 100
             <= Part000.toleranceOrDefault p / 60 * 40)
    /\ activeRideId m = option_map ActiveRide._id (CabData.activeRide row)
    /\ (type m = pooling <-> CabData.activeRide row <> None).
Proof.
  unfold findBestMatch. intros H. apply services_scoringLoop_In in H.
  destruct H as [H | (row & Hin & Hev)]; [discriminate|].
  exists row. split; [exact Hin|].
  unfold evaluate, checkLuggageConstraint, Part000.checkLuggageConstraint
    in Hev.
  destruct (_ - _ <=? 0)%Z eqn:Hseats; [discriminate|].
  destruct (_ + _ <=? _)%Z eqn:Hlug; cbn [negb] in Hev; [|discriminate].
  destruct (validDetour _ _ _) eqn:Hdet; cbn [negb] in Hev; [|discriminate].
  injection Hev as <-. cbn [cabId route activeRideId type].
  apply Z.leb_gt in Hseats. apply Z.leb_le in Hlug.
  split; [reflexivity|]. split; [lia|]. split; [exact Hlug|].
  split; [reflexivity|]. split; [|split; [reflexivity|]].
  - intros p Hp. cbv zeta.
    unfold validDetour in Hdet. rewrite forallb_forall in Hdet.
    specialize (Hdet p Hp). unfold checkDetourTolerance in Hdet.
    destruct (Js.eqb _ 0) eqn:Hz; [discriminate|].
    apply JsFacts.eqb_false in Hz. apply JsFacts.leb_true in Hdet.
    split; assumption.
  - destruct (CabData.activeRide row); split; intros H;
      try reflexivity; try discriminate; contradiction.
Qed.

Lemma services_findBestMatch_sound_witness :
  exists row,
    In row [Equator.idleRow]
    /\ cabId Scenarios.servicesIdleMatch = CabData._id row
    /\ (Z.of_nat (length (passengersOf row)) < CabData.capacity row)%Z
    /\ (Part000.currentLuggage (passengersOf row)
        + RideRequest.luggageCount Equator.request <= CabData.capacity row)%Z
    /\ route Scenarios.servicesIdleMatch
       = createOptimalRoute (passengersOf row) Equator.request
                            (CabData.currentLocation row)
    /\ (forall p, In p (passengersOf row) ->
          let direct := calculateDistance (Passenger.pickupLocation p)
                                          (Passenger.dropoffLocation p) in
          direct <> 0
          /\ (calculateRouteDistance (route Scenarios.servicesIdleMatch)
              - direct) / direct * 100
             <= Part000.toleranceOrDefault p / 60 * 40)
    /\ activeRideId Scenarios.servicesIdleMatch
       = option_map ActiveRide._id (CabData.activeRide row)
    /\ (type Scenarios.servicesIdleMatch = pooling
        <-> CabData.activeRide row <> None).
Proof.
  apply (services_findBestMatch_sound Equator.request [Equator.idleRow]
           Scenarios.servicesIdleMatch).
  exact Scenarios.services_findBestMatch_idle.
Defined.

(** X29.  In the engine of [services/matchingEngine.js] a ride with a
    passenger whose direct distance is 0, the pickup being the dropoff, is
    never pooled: the division by that distance makes the detour check
    fail and the row is skipped. *)
Theorem services_zero_length_trip_blocks_pooling newRequest row r p :
  CabData.activeRide row = Some r ->
  In p (ActiveRide.passengers r) ->
  calculateDistance (Passenger.pickupLocation p)
                    (Passenger.dropoffLocation p) = 0 ->
  evaluate newRequest row = None.
Proof.
  intros Hride Hp Hzero. unfold evaluate.
  destruct (_ <=? 0)%Z; [reflexivity|].
  destruct (negb (checkLuggageConstraint _ _ _)); [reflexivity|].
  replace (validDetour newRequest (passengersOf row)
             (createOptimalRoute (passengersOf row) newRequest
                (CabData.currentLocation row)))
    with false; [reflexivity|].
  symmetry. unfold validDetour.
  apply not_true_is_false. intros H. rewrite forallb_forall in H.
  unfold passengersOf in H. rewrite Hride in H.
  specialize (H p Hp). unfold checkDetourTolerance in H.
  rewrite Hzero in H.
  rewrite (proj2 (JsFacts.eqb_true 0 0) eq_refl) in H. discriminate.
Qed.

Lemma services_zero_length_trip_blocks_pooling_witness :
  evaluate Equator.request (Equator.pooledRow 4 0) = None.
Proof.
  apply (services_zero_length_trip_blocks_pooling Equator.request
           (Equator.pooledRow 4 0) (Equator.ride [Equator.rider] 0)
           Equator.rider).
  - reflexivity.
  - left. reflexivity.
  - apply GeoFacts.calculateDistance_equator_same.
Defined.

End ServicesFacts.

(** ** Cancellations and the market conditions *)

Module SurgeFacts.
Import Db RideController PricingService PricingEstimates.

#[local] Arguments saveActiveRide : simpl never.

Lemma ride_unique rides r1 r2 :
  NoDup (map ActiveRide._id rides) ->
  In r1 rides -> In r2 rides -> ActiveRide._id r1 = ActiveRide._id r2 ->
  r1 = r2.
Proof.
  induction rides as [|x rest IH]; intros Hnd H1 H2 Heq; [destruct H1|].
  inversion Hnd as [|? ? Hnotin Hnd']; subst.
  destruct H1 as [->|H1], H2 as [->|H2].
  - reflexivity.
  - exfalso. apply Hnotin. rewrite Heq. apply in_map. exact H2.
  - exfalso. apply Hnotin. rewrite <- Heq. apply in_map. exact H1.
  - apply IH; assumption.
Qed.

(** Replacing a stored ride by a document for the same cab leaves the
    cabs that the rides reference as they are. *)
Lemma replaceRide_cabIds doc rides read :
  NoDup (map ActiveRide._id rides) ->
  In read rides ->
  ActiveRide._id doc = ActiveRide._id read ->
  ActiveRide.cabId doc = ActiveRide.cabId read ->
  map ActiveRide.cabId (replaceRide doc rides) = map ActiveRide.cabId rides.
Proof.
  intros Hnd Hread Hid Hcab. unfold replaceRide. rewrite map_map.
  apply map_ext_in. intros r Hr.
  destruct (ActiveRide._id r =? ActiveRide._id doc)%nat eqn:Heq;
    [|reflexivity].
  apply Nat.eqb_eq in Heq.
  rewrite (ride_unique rides r read Hnd Hr Hread) by congruence.
  exact Hcab.
Qed.

Lemma getMarketConditions_ext st st' :
  cabs st' = cabs st ->
  map ActiveRide.cabId (activeRides st')
  = map ActiveRide.cabId (activeRides st) ->
  rideRequests st' = rideRequests st ->
  getMarketConditions st' = getMarketConditions st.
Proof.
  intros Hc Ha Hr.
  unfold getMarketConditions, calculateSurgeMultiplier, totalCabs,
    activeCabs, pendingRequests.
  rewrite Hc, Ha, Hr. reflexivity.
Qed.

Lemma saveActiveRide_market st doc st' read :
  StoreFacts.distinctIds st ->
  ActiveRide_findById st (Some (ActiveRide._id read)) = Some read ->
  ActiveRide._id doc = ActiveRide._id read ->
  ActiveRide.cabId doc = ActiveRide.cabId read ->
  saveActiveRide st doc = Ok st' ->
  getMarketConditions st' = getMarketConditions st.
Proof.
  intros Hnd Hread Hid Hcab. unfold saveActiveRide.
  destruct (negb (validActiveRide doc)); [discriminate|].
  destruct (ActiveRide_findById st (Some (ActiveRide._id doc)));
    [|discriminate].
  destruct (negb _); [discriminate|].
  destruct (violatesUniqueCab _ _); [discriminate|].
  intros H. injection H as <-.
  apply getMarketConditions_ext; [reflexivity | | reflexivity].
  cbn [setActiveRides activeRides].
  apply (replaceRide_cabIds _ _ read Hnd).
  - apply (find_some _ _ Hread).
  - exact Hid.
  - exact Hcab.
Qed.

(** X30.  In a collection with distinct ids, a cancellation without
    concurrent writes leaves the market conditions and the surge
    multiplier as they were: the ride, cancelled or not, still references
    its cab, which the pricing keeps counting as busy. *)
Theorem cancelRide_keeps_market_conditions (st : Store)
    (rideId userId : ObjectId) :
  StoreFacts.distinctIds st ->
  let o := cancelRide [] st rideId userId in
  getMarketConditions (store o) = getMarketConditions st
  /\ calculateSurgeMultiplier (store o) = calculateSurgeMultiplier st.
Proof.
  intros Hnd. cbv zeta.
  assert (Hgoal : getMarketConditions
                    (store (cancelRide [] st rideId userId))
                  = getMarketConditions st).
  { unfold cancelRide.
    destruct (ActiveRide_findById st (Some rideId)) as [read|] eqn:Hread;
      [|reflexivity].
    pose proof (QuietFacts.findById_own _ _ _ Hread) as Hown.
    destruct (ActiveRide.isActive read); [|reflexivity].
    cbn [negb].
    destruct (findIndex userId (ActiveRide.passengers read)) as [i|];
      [|reflexivity].
    destruct (length (RouteBuilder.removeAt i (ActiveRide.passengers read))
              =? 0)%nat.
    - cbn [interfere].
      destruct (saveActiveRide st _) as [st2|e] eqn:Hsave; [|reflexivity].
      cbn [store].
      refine (saveActiveRide_market st _ st2 read Hnd Hown _ _ Hsave);
        reflexivity.
    - destruct (Cab_findById st (ActiveRide.cabId read)) as [cab|];
        [|reflexivity].
      cbn [interfere].
      destruct (saveActiveRide st _) as [st2|e] eqn:Hsave; [|reflexivity].
      cbn [store].
      refine (saveActiveRide_market st _ st2 read Hnd Hown _ _ Hsave);
        reflexivity. }
  split; [exact Hgoal|].
  apply (f_equal MarketConditions.isSurgeActive) in Hgoal as Hactive.
  unfold getMarketConditions in Hgoal.
  injection Hgoal as Ht Hav Hac Hp _ _ _.
  unfold calculateSurgeMultiplier, totalCabs, activeCabs, pendingRequests
    in *.
  apply INR_eq in Ht. apply INR_eq in Hac. apply INR_eq in Hp.
  unfold totalCabs in Ht. rewrite Ht.
  congruence.
Qed.

Lemma cancelRide_keeps_market_conditions_witness :
  getMarketConditions
    (store (cancelRide [] (Bookings.pooledStore 4 0) 10%nat 100%nat))
  = getMarketConditions (Bookings.pooledStore 4 0)
  /\ calculateSurgeMultiplier
       (store (cancelRide [] (Bookings.pooledStore 4 0) 10%nat 100%nat))
     = calculateSurgeMultiplier (Bookings.pooledStore 4 0).
Proof.
  apply (cancelRide_keeps_market_conditions (Bookings.pooledStore 4 0)
           10%nat 100%nat).
  unfold StoreFacts.distinctIds. simpl. repeat constructor. intros [].
Defined.

End SurgeFacts.
